(** * SP advertising data analysis: dimension extraction and aggregation

    A shallow embedding of [data_processor.py]: the three positional token
    extractors, [extract_all_dimensions], [format_value], [aggregate_single]
    and [aggregate_cross], together with the part of pandas they rely on
    (a row-aligned data frame, [groupby(...).agg('sum')], column assignment,
    column selection and [sort_values]).

    Data frames are Python objects: the functions receive and return
    references into a store, and column assignment updates the store in
    place, so that the frame conditions of the functions can be stated. *)

From Stdlib Require Import ZArith NArith Lia Bool.
From Stdlib Require Import Floats.SpecFloat.
From Stdlib Require Import Sorting.Sorted Sorting.Permutation.
From stdpp Require Import base list strings.

Set Default Proof Using "Type".
Local Open Scope Z_scope.

(* ===================================================================== *)
(** ** Python strings *)
(* ===================================================================== *)

(** A Python [str] is a sequence of Unicode code points.  Literals are
    written as UTF-8 text and decoded by [u]. *)
Module Py.

Abbreviation str := (list N).

Definition byte_of (a : Ascii.ascii) : N := Ascii.N_of_ascii a.

Fixpoint bytes_of (s : string) : list N :=
  match s with
  | EmptyString => []
  | String a s' => byte_of a :: bytes_of s'
  end.

Definition cont (b : N) : N := N.land b 63.

(** UTF-8 decoding of a byte sequence (well-formed input expected; a
    truncated sequence is dropped). *)
Fixpoint utf8_decode (bs : list N) : str :=
  match bs with
  | [] => []
  | b0 :: r0 =>
    if (b0 <? 128)%N then b0 :: utf8_decode r0
    else match r0 with
    | [] => []
    | b1 :: r1 =>
      if (b0 <? 224)%N
      then N.lor (N.shiftl (N.land b0 31) 6) (cont b1) :: utf8_decode r1
      else match r1 with
      | [] => []
      | b2 :: r2 =>
        if (b0 <? 240)%N
        then N.lor (N.shiftl (N.land b0 15) 12)
               (N.lor (N.shiftl (cont b1) 6) (cont b2)) :: utf8_decode r2
        else match r2 with
        | [] => []
        | b3 :: r3 =>
          N.lor (N.shiftl (N.land b0 7) 18)
            (N.lor (N.shiftl (cont b1) 12)
               (N.lor (N.shiftl (cont b2) 6) (cont b3))) :: utf8_decode r3
        end
      end
    end
  end.

Definition u (s : string) : str := utf8_decode (bytes_of s).

(** [str.isspace] on one code point: the code points CPython's
    [_PyUnicode_IsWhitespace] accepts. *)
Definition isspace (c : N) : bool :=
  ((9 <=? c) && (c <=? 13) || (28 <=? c) && (c <=? 32)
   || (c =? 133) || (c =? 160) || (c =? 5760)
   || (8192 <=? c) && (c <=? 8202)
   || (c =? 8232) || (c =? 8233) || (c =? 8239) || (c =? 8287)
   || (c =? 12288))%N.

(** [s.split()] with no separator: maximal runs of non-whitespace code
    points, in order.  [cur] holds the run being read, reversed. *)
Definition flush (cur : str) (k : list str) : list str :=
  match cur with
  | [] => k
  | _ :: _ => rev cur :: k
  end.

Fixpoint split_from (cur : str) (s : str) : list str :=
  match s with
  | [] => flush cur []
  | c :: s' =>
    if isspace c then flush cur (split_from [] s')
    else split_from (c :: cur) s'
  end.

Definition split (s : str) : list str := split_from [] s.

(** [s.strip()]: leading and trailing whitespace removed. *)
Fixpoint lstrip (s : str) : str :=
  match s with
  | [] => []
  | c :: s' => if isspace c then lstrip s' else s
  end.

Definition strip (s : str) : str := rev (lstrip (rev (lstrip s))).

(** Truth value of a string: non-empty. *)
Definition truthy (s : str) : bool :=
  match s with [] => false | _ :: _ => true end.

(** Comparison of strings: lexicographic on code points. *)
Fixpoint compare (s t : str) : comparison :=
  match s, t with
  | [], [] => Eq
  | [], _ :: _ => Lt
  | _ :: _, [] => Gt
  | a :: s', b :: t' =>
    match N.compare a b with
    | Eq => compare s' t'
    | c => c
    end
  end.

Definition eqb (s t : str) : bool :=
  match compare s t with Eq => true | _ => false end.

Definition leb (s t : str) : bool :=
  match compare s t with Gt => false | _ => true end.

(** [x in xs] for a list of strings. *)
Definition mem (x : str) (xs : list str) : bool := existsb (eqb x) xs.

(** Substring test, used to read what an error message names. *)
Fixpoint prefixb (p s : str) : bool :=
  match p, s with
  | [], _ => true
  | _ :: _, [] => false
  | a :: p', b :: s' => (a =? b)%N && prefixb p' s'
  end.

Fixpoint contains (s p : str) : bool :=
  prefixb p s
  || match s with
     | [] => false
     | _ :: s' => contains s' p
     end.

End Py.

Abbreviation pystr := Py.str.
Abbreviation u := Py.u.

(* ===================================================================== *)
(** ** Numbers, cells and exceptions *)
(* ===================================================================== *)

(** A Python [float] is an IEEE 754 binary64 value. *)
Module F64.

Definition float := spec_float.
Definition prec : Z := 53.
Definition emax : Z := 1024.

Definition add : float -> float -> float := SFadd prec emax.
Definition mul : float -> float -> float := SFmul prec emax.
Definition div : float -> float -> float := SFdiv prec emax.

(** [float(z)] for an integer: rounded to nearest, ties to even. *)
Definition of_Z (z : Z) : float := binary_normalize prec emax z 0 false.

Definition zero : float := S754_zero false.
Definition nan : float := S754_nan.

Definition is_nan (f : float) : bool :=
  match f with S754_nan => true | _ => false end.

Definition is_zero (f : float) : bool :=
  match f with S754_zero _ => true | _ => false end.

(** Ordering of two floats that are not NaN. *)
Definition compare (f g : float) : comparison :=
  match SFcompare f g with Some c => c | None => Eq end.

End F64.

Abbreviation float := F64.float.

(** Decimal rendering of a natural number, as code points. *)
Fixpoint uint_digits (d : Decimal.uint) : pystr :=
  match d with
  | Decimal.Nil => []
  | Decimal.D0 d' => 48%N :: uint_digits d'
  | Decimal.D1 d' => 49%N :: uint_digits d'
  | Decimal.D2 d' => 50%N :: uint_digits d'
  | Decimal.D3 d' => 51%N :: uint_digits d'
  | Decimal.D4 d' => 52%N :: uint_digits d'
  | Decimal.D5 d' => 53%N :: uint_digits d'
  | Decimal.D6 d' => 54%N :: uint_digits d'
  | Decimal.D7 d' => 55%N :: uint_digits d'
  | Decimal.D8 d' => 56%N :: uint_digits d'
  | Decimal.D9 d' => 57%N :: uint_digits d'
  end.

Definition decimal (n : Z) : pystr := uint_digits (N.to_uint (Z.to_N n)).

Definition two_digits (n : Z) : pystr :=
  if n <? 10 then 48%N :: decimal n else decimal n.

Definition sign_prefix (s : bool) : pystr := if s then u "-" else [].

(** Quotient of two non-negative integers rounded to the nearest integer,
    ties to even: the rounding of the ['f'] presentation type. *)
Definition round_half_even (num den : Z) : Z :=
  let q := num / den in
  let r := num mod den in
  match Z.compare (2 * r) den with
  | Lt => q
  | Gt => q + 1
  | Eq => if Z.even q then q else q + 1
  end.

(** [|m * 2^e| * 100] rounded to an integer. *)
Definition hundredths (m : positive) (e : Z) : Z :=
  if 0 <=? e then Z.pos m * 2 ^ e * 100
  else round_half_even (Z.pos m * 100) (2 ^ (- e)).

(** [f"{value:.2f}"]. *)
Definition format_2f (value : float) : pystr :=
  match value with
  | S754_nan => u "nan"
  | S754_infinity s => sign_prefix s ++ u "inf"
  | S754_zero s => sign_prefix s ++ u "0.00"
  | S754_finite s m e =>
    let n := hundredths m e in
    sign_prefix s ++ decimal (n / 100) ++ u "." ++ two_digits (n mod 100)
  end.

Inductive exn :=
| ValueError (msg : pystr)
| KeyError (key : pystr)
| TypeError
| ZeroDivisionError
| OverflowError.

Inductive result (A : Type) :=
| Ok (a : A)
| Raise (e : exn).
Arguments Ok {A} a.
Arguments Raise {A} e.

(** [int(value)]: truncation toward zero. *)
Definition int_of_float (value : float) : result Z :=
  match value with
  | S754_nan => Raise (ValueError (u "cannot convert float NaN to integer"))
  | S754_infinity _ => Raise OverflowError
  | S754_zero _ => Ok 0
  | S754_finite s m e =>
    let a := if 0 <=? e then Z.pos m * 2 ^ e else Z.pos m / 2 ^ (- e) in
    Ok (if s then - a else a)
  end.

(** [f"{z}"] for an integer. *)
Definition format_int (z : Z) : pystr :=
  if z <? 0 then u "-" ++ decimal (- z) else decimal z.

(** A cell of a table: an integer, a float (NaN is the missing value) or
    a string. *)
Inductive cell :=
| VInt (z : Z)
| VFloat (f : float)
| VStr (s : pystr).

(** [pd.isna] / [pd.notna] on a scalar. *)
Definition isna (c : cell) : bool :=
  match c with
  | VFloat f => F64.is_nan f
  | _ => false
  end.

Definition notna (c : cell) : bool := negb (isna c).

(* ===================================================================== *)
(** ** Dimension extraction *)
(* ===================================================================== *)

(** The sentinel for an absent token. *)
Definition Unclassified : pystr := u "未分类".

Definition extract_parent_code (campaign_name : cell) : pystr :=
  match campaign_name with
  | VStr s =>
    let parts := Py.split s in
    if (0 <? length parts)%nat && Py.truthy (Py.strip (nth 0 parts []))
    then nth 0 parts []
    else Unclassified
  | _ => Unclassified
  end.

Definition extract_pattern (campaign_name : cell) : pystr :=
  match campaign_name with
  | VStr s =>
    let parts := Py.split s in
    if (1 <? length parts)%nat && Py.truthy (Py.strip (nth 1 parts []))
    then nth 1 parts []
    else Unclassified
  | _ => Unclassified
  end.

Definition extract_attribute (campaign_name : cell) : pystr :=
  match campaign_name with
  | VStr s =>
    let parts := Py.split s in
    if (2 <? length parts)%nat && Py.truthy (Py.strip (nth 2 parts []))
    then nth 2 parts []
    else Unclassified
  | _ => Unclassified
  end.

(* ===================================================================== *)
(** ** Exceptions as a monad *)
(* ===================================================================== *)

#[export] Instance result_ret : MRet result := fun _ a => Ok a.
#[export] Instance result_bind : MBind result := fun _ _ f r =>
  match r with
  | Ok a => f a
  | Raise e => Raise e
  end.

(* ===================================================================== *)
(** ** Data frames *)
(* ===================================================================== *)

(** A data frame: the column labels, and the rows, each aligned with the
    labels. *)
Record DataFrame := {
  columns : list pystr;
  rows : list (list cell)
}.

Definition empty_frame : DataFrame := {| columns := []; rows := [] |}.

(** Position of the first column carrying a label. *)
Fixpoint index_of (c : pystr) (cols : list pystr) : option nat :=
  match cols with
  | [] => None
  | x :: xs => if Py.eqb c x then Some 0%nat else S <$> index_of c xs
  end.

(** The position of a label, or [KeyError]. *)
Definition lookup_index (d : DataFrame) (c : pystr) : result nat :=
  match index_of c (columns d) with
  | Some i => Ok i
  | None => Raise (KeyError c)
  end.

(** The cell of a row in a column, and a column as a list. *)
Definition cell_at (i : nat) (r : list cell) : cell := nth i r (VFloat F64.nan).

Definition column_at (i : nat) (d : DataFrame) : list cell :=
  map (cell_at i) (rows d).

(** [df[c]]. *)
Definition get_column (d : DataFrame) (c : pystr) : result (list cell) :=
  i ← lookup_index d c; Ok (column_at i d).

(** [df[c] = values]: an existing column is overwritten where it stands,
    a new label is appended on the right. *)
Definition set_column (d : DataFrame) (c : pystr) (values : list cell)
  : DataFrame :=
  match index_of c (columns d) with
  | Some i =>
    {| columns := columns d;
       rows := zip_with (fun r v => <[i := v]> r) (rows d) values |}
  | None =>
    {| columns := columns d ++ [c];
       rows := zip_with (fun r v => r ++ [v]) (rows d) values |}
  end.

(** [df[cols]] for a list of labels. *)
Definition select_columns (d : DataFrame) (cols : list pystr)
  : result DataFrame :=
  idx ← mapM (lookup_index d) cols;
  Ok {| columns := cols;
        rows := map (fun r => map (fun i => cell_at i r) idx) (rows d) |}.

(** *** Column types and the ['sum'] aggregation *)

Inductive dtype := Int64 | Float64 | Object.

Definition in_int64 (z : Z) : bool := (- 2 ^ 63 <=? z) && (z <? 2 ^ 63).

Definition wrap64 (z : Z) : Z := (z + 2 ^ 63) mod 2 ^ 64 - 2 ^ 63.

Definition is_int64 (c : cell) : bool :=
  match c with VInt z => in_int64 z | _ => false end.

Definition is_str (c : cell) : bool :=
  match c with VStr _ => true | _ => false end.

Definition is_float (c : cell) : bool :=
  match c with VFloat _ => true | _ => false end.

(** The type a column of these cells is stored with: machine integers,
    doubles (as soon as one cell is a float, NaN included), or Python
    objects. *)
Definition infer_dtype (cells : list cell) : dtype :=
  if forallb is_int64 cells then Int64
  else if forallb (fun c => is_float c || is_int64 c) cells then Float64
  else Object.

(** The double a numeric column stores for a cell. *)
Definition to_float (c : cell) : float :=
  match c with
  | VInt z => F64.of_Z z
  | VFloat f => f
  | VStr _ => F64.nan
  end.

Definition int_value (c : cell) : Z :=
  match c with VInt z => z | _ => 0 end.

(** Sum of an int64 column: two's complement addition. *)
Definition sum_int64 (cells : list cell) : Z :=
  fold_left (fun acc c => wrap64 (acc + int_value c)) cells 0.

(** Sum of a float64 column: NaN skipped, accumulated in row order. *)
Definition sum_float64 (cells : list cell) : float :=
  fold_left (fun acc c =>
               let x := to_float c in
               if F64.is_nan x then acc else F64.add acc x)
            cells F64.zero.

(** Python's [+] on two cells. *)
Definition py_add (a b : cell) : result cell :=
  match a, b with
  | VInt x, VInt y => Ok (VInt (x + y))
  | VInt x, VFloat g => Ok (VFloat (F64.add (F64.of_Z x) g))
  | VFloat f, VInt y => Ok (VFloat (F64.add f (F64.of_Z y)))
  | VFloat f, VFloat g => Ok (VFloat (F64.add f g))
  | VStr s, VStr t => Ok (VStr (s ++ t))
  | _, _ => Raise TypeError
  end.

(** Sum of an object column: missing cells skipped, the others added
    with [+] in row order starting from the first; 0 when none is left. *)
Fixpoint sum_object_from (acc : cell) (cells : list cell) : result cell :=
  match cells with
  | [] => Ok acc
  | c :: cs =>
    if isna c then sum_object_from acc cs
    else t ← py_add acc c; sum_object_from t cs
  end.

Definition sum_object (cells : list cell) : result cell :=
  match filter (fun c => notna c) cells with
  | [] => Ok (VInt 0)
  | c :: cs => sum_object_from c cs
  end.

Definition agg_sum (dt : dtype) (cells : list cell) : result cell :=
  match dt with
  | Int64 => Ok (VInt (sum_int64 cells))
  | Float64 => Ok (VFloat (sum_float64 cells))
  | Object => sum_object cells
  end.

(** *** Group keys and their order *)

(** Order of two cells used as keys: missing values last, numbers before
    strings, numbers by value, strings by code points. *)
Definition cell_compare (a b : cell) : comparison :=
  match isna a, isna b with
  | true, true => Eq
  | true, false => Gt
  | false, true => Lt
  | false, false =>
    match a, b with
    | VStr s, VStr t => Py.compare s t
    | VStr _, _ => Gt
    | _, VStr _ => Lt
    | VInt x, VInt y => Z.compare x y
    | _, _ => F64.compare (to_float a) (to_float b)
    end
  end.

Fixpoint key_compare (k1 k2 : list cell) : comparison :=
  match k1, k2 with
  | [], [] => Eq
  | [], _ :: _ => Lt
  | _ :: _, [] => Gt
  | a :: k1', b :: k2' =>
    match cell_compare a b with
    | Eq => key_compare k1' k2'
    | c => c
    end
  end.

Definition key_eqb (k1 k2 : list cell) : bool :=
  match key_compare k1 k2 with Eq => true | _ => false end.

Definition key_leb (k1 k2 : list cell) : bool :=
  match key_compare k1 k2 with Gt => false | _ => true end.

(** The distinct keys of a column, in increasing order. *)
Fixpoint insert_key (k : list cell) (ks : list (list cell))
  : list (list cell) :=
  match ks with
  | [] => [k]
  | k' :: ks' =>
    match key_compare k k' with
    | Lt => k :: ks
    | Eq => ks
    | Gt => k' :: insert_key k ks'
    end
  end.

Definition unique_keys (ks : list (list cell)) : list (list cell) :=
  fold_right insert_key [] ks.

Definition key_at (idx : list nat) (r : list cell) : list cell :=
  map (fun i => cell_at i r) idx.

(** [df.groupby(by).agg({c: 'sum' for c in sum_columns}).reset_index()]:
    rows whose key has a missing component are dropped, one output row
    per distinct key in increasing key order, the key first and then the
    sum of each listed column over the rows of the group. *)
Definition group_row (kidx : list nat)
    (vcols : list (nat * dtype)) (kept : list (list cell)) (k : list cell)
  : result (list cell) :=
  let grp := filter (fun r => key_eqb (key_at kidx r) k) kept in
  sums ← mapM (fun '(i, dt) => agg_sum dt (map (cell_at i) grp)) vcols;
  Ok (k ++ sums).

Definition groupby_sum (d : DataFrame) (by_ : list pystr)
    (sum_columns : list pystr) : result DataFrame :=
  kidx ← mapM (lookup_index d) by_;
  vidx ← mapM (lookup_index d) sum_columns;
  let kept := filter (fun r => forallb notna (key_at kidx r)) (rows d) in
  let keys := unique_keys (map (key_at kidx) kept) in
  let vcols := map (fun i => (i, infer_dtype (column_at i d))) vidx in
  rows' ← mapM (group_row kidx vcols kept) keys;
  Ok {| columns := by_ ++ sum_columns; rows := rows' |}.

(** *** Sorting *)

Fixpoint insert_row (kidx : list nat) (r : list cell)
    (rs : list (list cell)) : list (list cell) :=
  match rs with
  | [] => [r]
  | r' :: rs' =>
    if key_leb (key_at kidx r) (key_at kidx r') then r :: rs
    else r' :: insert_row kidx r rs'
  end.

Definition sort_rows (kidx : list nat) (rs : list (list cell))
  : list (list cell) :=
  fold_right (insert_row kidx) [] rs.

(** A key column that holds both strings and numbers cannot be ordered. *)
Definition comparable (cells : list cell) : bool :=
  let present := filter (fun c => notna c) cells in
  forallb is_str present || forallb (fun c => negb (is_str c)) present.

(** [df.sort_values(by=by).reset_index(drop=True)]. *)
Definition sort_values (d : DataFrame) (by_ : list pystr)
  : result DataFrame :=
  kidx ← mapM (lookup_index d) by_;
  if forallb (fun i => comparable (column_at i d)) kidx
  then Ok {| columns := columns d; rows := sort_rows kidx (rows d) |}
  else Raise TypeError.

(** *** Division of two columns *)

Definition is_zero_number (c : cell) : bool :=
  match c with
  | VInt z => z =? 0
  | VFloat f => F64.is_zero f
  | VStr _ => false
  end.

(** Python's [/] on two cells. *)
Definition py_truediv (x y : cell) : result float :=
  if is_str x || is_str y then Raise TypeError
  else if is_zero_number y then Raise ZeroDivisionError
  else Ok (F64.div (to_float x) (to_float y)).

Definition numeric_dtype (dt : dtype) : bool :=
  match dt with Object => false | _ => true end.

(** [a / b] on two columns of one frame: IEEE division when both are
    numeric columns, Python's [/] cell by cell on object columns. *)
Definition series_truediv (a b : list cell) : result (list float) :=
  if numeric_dtype (infer_dtype a) && numeric_dtype (infer_dtype b)
  then Ok (zip_with (fun x y => F64.div (to_float x) (to_float y)) a b)
  else mapM (fun '(x, y) => py_truediv x y) (zip a b).

(* ===================================================================== *)
(** ** The object store *)
(* ===================================================================== *)

(** Frames live in a store and are passed by reference; a computation
    threads the store and may raise. *)
Abbreviation ref := nat.
Abbreviation store := (list DataFrame).

Definition M (A : Type) : Type := store -> result A * store.

#[export] Instance M_ret : MRet M := fun _ a σ => (Ok a, σ).
#[export] Instance M_bind : MBind M := fun _ _ f m σ =>
  match m σ with
  | (Ok a, σ') => f a σ'
  | (Raise e, σ') => (Raise e, σ')
  end.

(** [raise e], a pure result, and the three accesses to the store. *)
Definition raise {A} (e : exn) : M A := fun σ => (Raise e, σ).

Definition lift {A} (r : result A) : M A := fun σ => (r, σ).

Definition deref (σ : store) (r : ref) : DataFrame := nth r σ empty_frame.

Definition load (r : ref) : M DataFrame := fun σ => (Ok (deref σ r), σ).

Definition alloc (d : DataFrame) : M ref := fun σ => (Ok (length σ), σ ++ [d]).

Definition assign (r : ref) (d : DataFrame) : M unit :=
  fun σ => (Ok tt, <[r := d]> σ).

(** [df.copy()]: a new object with the same contents. *)
Definition pd_copy (df : ref) : M ref := d ← load df; alloc d.

(** [df.columns]. *)
Definition pd_columns (df : ref) : M (list pystr) :=
  d ← load df; mret (columns d).

(** [df[c]]. *)
Definition pd_getitem (df : ref) (c : pystr) : M (list cell) :=
  d ← load df; lift (get_column d c).

(** [df[c] = values]: the object behind [df] is updated in place. *)
Definition pd_setitem (df : ref) (c : pystr) (values : list cell) : M unit :=
  d ← load df; assign df (set_column d c values).

(** [df[cols]]: a new frame. *)
Definition pd_select (df : ref) (cols : list pystr) : M ref :=
  d ← load df; d' ← lift (select_columns d cols); alloc d'.

(** [df.groupby(by).agg(...).reset_index()]: a new frame. *)
Definition pd_groupby_sum (df : ref) (by_ sum_columns : list pystr) : M ref :=
  d ← load df; d' ← lift (groupby_sum d by_ sum_columns); alloc d'.

(** [df.sort_values(by=by).reset_index(drop=True)]: a new frame. *)
Definition pd_sort_values (df : ref) (by_ : list pystr) : M ref :=
  d ← load df; d' ← lift (sort_values d by_); alloc d'.

(* ===================================================================== *)
(** ** data_processor.py *)
(* ===================================================================== *)

Definition missing_column_message : pystr :=
  u "数据框中未找到 'Campaign Name' 或 '广告活动' 列".

Definition extract_all_dimensions (df : ref) : M ref :=
  df_copy ← pd_copy df;
  cols ← pd_columns df_copy;
  campaign_col ←
    (if Py.mem (u "Campaign Name") cols then mret (u "Campaign Name")
     else if Py.mem (u "广告活动") cols then mret (u "广告活动")
     else raise (ValueError missing_column_message));
  s ← pd_getitem df_copy campaign_col;
  pd_setitem df_copy (u "Parent Code") (map (fun x => VStr (extract_parent_code x)) s);;
  s ← pd_getitem df_copy campaign_col;
  pd_setitem df_copy (u "Pattern") (map (fun x => VStr (extract_pattern x)) s);;
  s ← pd_getitem df_copy campaign_col;
  pd_setitem df_copy (u "Attribute") (map (fun x => VStr (extract_attribute x)) s);;
  mret df_copy.

(** The metric types the aggregator passes to [format_value].  (Any other
    type falls back to [str(value)], which no caller in the module uses.) *)
Inductive metric_type := percent | currency | ratio | number.

Definition format_value (value : float) (t : metric_type) : result pystr :=
  if F64.is_nan value then Ok (u "-")
  else match t with
  | percent => Ok (format_2f value ++ u "%")
  | currency => Ok (u "¥" ++ format_2f value)
  | ratio => Ok (format_2f value ++ u "x")
  | number => z ← int_of_float value; Ok (format_int z)
  end.

Definition valid_dims : list pystr :=
  [u "Parent Code"; u "Pattern"; u "Attribute"].

Definition not_summed : list pystr :=
  [u "Campaign Name"; u "Parent Code"; u "Pattern"; u "Attribute"].

(** The keys of the [sum_columns] dictionary, in order. *)
Definition sum_columns_of (cols : list pystr) : list pystr :=
  filter (fun col => negb (Py.mem col not_summed)) cols.

Inductive role := impressions | click | spend | sales | conversions.

Definition role_eqb (a b : role) : bool :=
  match a, b with
  | impressions, impressions | click, click | spend, spend
  | sales, sales | conversions, conversions => true
  | _, _ => false
  end.

Definition column_mappings : list (role * list pystr) :=
  [ (impressions, [u "Impressions"; u "曝光量"; u "展示"]);
    (click, [u "Clicks"; u "Click"; u "点击"; u "点击数"]);
    (spend, [u "Spend"; u "Spend ($)"; u "花费"; u "支出"]);
    (sales, [u "Sales"; u "销售额"; u "销售"]);
    (conversions, [u "Conversions"; u "转化"; u "转化数"]) ].

(** The [actual_columns] dictionary: for each role the first of its
    names that is a column of the grouped frame. *)
Definition resolve_columns (cols : list pystr) : list (role * pystr) :=
  omap (fun '(key, possible_names) =>
          col_name ← List.find (fun n => Py.mem n cols) possible_names;
          Some (key, col_name))
       column_mappings.

Fixpoint actual (actual_columns : list (role * pystr)) (key : role)
  : option pystr :=
  match actual_columns with
  | [] => None
  | (k, c) :: rest => if role_eqb key k then Some c else actual rest key
  end.

(** [lambda x: format_value(x, t) if pd.notna(x) else "-"]. *)
Definition render (t : metric_type) (x : float) : result pystr :=
  if negb (F64.is_nan x) then format_value x t else Ok (u "-").

(** [q * 100] on a column of floats, for the percentages. *)
Definition scale (times_100 : bool) (q : list float) : list float :=
  if times_100 then map (fun x => F64.mul x (F64.of_Z 100)) q else q.

(** One derived-metric block:
    the quotient of two columns of [result], multiplied by 100 for the
    percentages, each value rendered by [format_value] unless it is
    missing, and the rendered column assigned to [result[name]]. *)
Definition derive_metric (result : ref) (name num den : pystr)
    (times_100 : bool) (t : metric_type) : M unit :=
  a ← pd_getitem result num;
  b ← pd_getitem result den;
  q ← lift (series_truediv a b);
  let q := scale times_100 q in
  s ← lift (mapM (render t) q);
  pd_setitem result name (map VStr s).

Definition when_both (a b : option pystr) (k : pystr -> pystr -> M unit)
  : M unit :=
  match a, b with
  | Some x, Some y => k x y
  | _, _ => mret tt
  end.

Definition aggregate_single (df : ref) (dimension : pystr) : M ref :=
  if negb (Py.mem dimension valid_dims)
  then raise (ValueError (u "无效的维度: " ++ dimension))
  else
    cols ← pd_columns df;
    let sum_columns := sum_columns_of cols in
    result ← pd_groupby_sum df [dimension] sum_columns;
    rcols ← pd_columns result;
    let actual_columns := resolve_columns rcols in
    when_both (actual actual_columns click) (actual actual_columns impressions)
      (fun click_col imp_col =>
         derive_metric result (u "CTR") click_col imp_col true percent);;
    when_both (actual actual_columns spend) (actual actual_columns click)
      (fun spend_col click_col =>
         derive_metric result (u "CPC") spend_col click_col false currency);;
    when_both (actual actual_columns sales) (actual actual_columns spend)
      (fun sales_col spend_col =>
         derive_metric result (u "ROAS") sales_col spend_col false ratio);;
    when_both (actual actual_columns spend) (actual actual_columns sales)
      (fun spend_col sales_col =>
         derive_metric result (u "ACoS") spend_col sales_col true percent);;
    when_both (actual actual_columns conversions) (actual actual_columns click)
      (fun conv_col click_col =>
         derive_metric result (u "CVR") conv_col click_col true percent);;
    when_both (actual actual_columns spend) (actual actual_columns conversions)
      (fun spend_col conv_col =>
         derive_metric result (u "CPA") spend_col conv_col false currency);;
    rcols ← pd_columns result;
    let cols := dimension :: filter (fun col => negb (Py.eqb col dimension)) rcols in
    result ← pd_select result cols;
    result ← pd_sort_values result [dimension];
    mret result.

Definition invalid_dims_message : pystr :=
  u "无效的维度，应该是 ['Parent Code', 'Pattern', 'Attribute'] 中的一个".

Definition duplicate_dims_message : pystr := u "两个维度不能相同".

Definition aggregate_cross (df : ref) (dim1 dim2 : pystr) : M ref :=
  if negb (Py.mem dim1 valid_dims) || negb (Py.mem dim2 valid_dims)
  then raise (ValueError invalid_dims_message)
  else if Py.eqb dim1 dim2
  then raise (ValueError duplicate_dims_message)
  else
    cols ← pd_columns df;
    let sum_columns := sum_columns_of cols in
    result ← pd_groupby_sum df [dim1; dim2] sum_columns;
    result ← pd_sort_values result [dim1; dim2];
    mret result.

(** The error kinds of the interface, read off the raised exception. *)
Definition MissingColumn (e : exn) : Prop :=
  e = ValueError missing_column_message.

Definition InvalidDimension (e : exn) : Prop :=
  exists m, e = ValueError m /\ Py.prefixb (u "无效的维度") m = true.

Definition DuplicateDimension (e : exn) : Prop :=
  e = ValueError duplicate_dims_message.

(* ===================================================================== *)
(** ** Reading the results *)
(* ===================================================================== *)

(** The frame a computation returns, read from the final store. *)
Definition returned (out : result ref * store) : option DataFrame :=
  match out with
  | (Ok r, σ) => σ !! r
  | (Raise _, _) => None
  end.

Definition raised (out : result ref * store) : option exn :=
  match out with
  | (Ok _, _) => None
  | (Raise e, _) => Some e
  end.

(** A computation run on a store that holds one frame. *)
Definition run_on {A} (d : DataFrame) (f : ref -> M A) : result A * store :=
  f 0%nat [d].

(** The cell of column [c] in row [i]. *)
Definition frame_cell (d : DataFrame) (c : pystr) (i : nat) : option cell :=
  j ← index_of c (columns d); r ← rows d !! i; r !! j.

(** The column [c] as a list, empty when there is no such column. *)
Definition column (d : DataFrame) (c : pystr) : list cell :=
  match get_column d c with
  | Ok col => col
  | Raise _ => []
  end.

(** [df[c].sum()]. *)
Definition column_sum (d : DataFrame) (c : pystr) : result cell :=
  col ← get_column d c; agg_sum (infer_dtype col) col.

(** Rows aligned with the labels. *)
Definition well_formed (d : DataFrame) : Prop :=
  Forall (fun r => length r = length (columns d)) (rows d).

(** A column that holds strings only, as the extractors produce. *)
Definition string_column (d : DataFrame) (c : pystr) : Prop :=
  exists i, index_of c (columns d) = Some i
            /\ Forall (fun r => is_str (cell_at i r) = true) (rows d).

(** A column stored as int64. *)
Definition int64_column (d : DataFrame) (c : pystr) : Prop :=
  exists i, index_of c (columns d) = Some i
            /\ Forall (fun r => is_int64 (cell_at i r) = true) (rows d).

Definition metric_names : list pystr :=
  [u "CTR"; u "CPC"; u "ROAS"; u "ACoS"; u "CVR"; u "CPA"].

(** *** Tokens, as the interface describes them

    The tokens of a string are its maximal runs of non-whitespace code
    points: the string is a run of whitespace, then a non-empty run free
    of whitespace, then the rest, which is empty or starts with
    whitespace, and so on. *)
Definition boundary (rest : pystr) : Prop :=
  match rest with
  | [] => True
  | c :: _ => Py.isspace c = true
  end.

Inductive tokens_of : pystr -> list pystr -> Prop :=
| tokens_none ws :
    Forall (fun c => Py.isspace c = true) ws ->
    tokens_of ws []
| tokens_cons ws t rest ts :
    Forall (fun c => Py.isspace c = true) ws ->
    t <> [] ->
    Forall (fun c => Py.isspace c = false) t ->
    boundary rest ->
    tokens_of rest ts ->
    tokens_of (ws ++ t ++ rest) (t :: ts).

(** *** The programs as functions of the frame

    What each store-passing program computes from the contents of its
    argument; [extract_all_dimensions_run], [aggregate_single_run] and
    [aggregate_cross_run] below relate the two. *)
Definition campaign_column (cols : list pystr) : result pystr :=
  if Py.mem (u "Campaign Name") cols then Ok (u "Campaign Name")
  else if Py.mem (u "广告活动") cols then Ok (u "广告活动")
  else Raise (ValueError missing_column_message).

Definition add_dimension (d : DataFrame) (campaign_col name : pystr)
    (f : cell -> pystr) : result DataFrame :=
  s ← get_column d campaign_col;
  Ok (set_column d name (map (fun x => VStr (f x)) s)).

Definition extract_all_dimensions_frame (d : DataFrame) : result DataFrame :=
  campaign_col ← campaign_column (columns d);
  d ← add_dimension d campaign_col (u "Parent Code") extract_parent_code;
  d ← add_dimension d campaign_col (u "Pattern") extract_pattern;
  add_dimension d campaign_col (u "Attribute") extract_attribute.

Definition derive_metric_frame (name : pystr) (times_100 : bool)
    (t : metric_type) (g : DataFrame) (num den : pystr) : result DataFrame :=
  a ← get_column g num;
  b ← get_column g den;
  q ← series_truediv a b;
  s ← mapM (render t) (scale times_100 q);
  Ok (set_column g name (map VStr s)).

Definition when_both_frame (a b : option pystr)
    (k : DataFrame -> pystr -> pystr -> result DataFrame) (g : DataFrame)
  : result DataFrame :=
  match a, b with
  | Some x, Some y => k g x y
  | _, _ => Ok g
  end.

Definition derive_all (ac : list (role * pystr)) (g : DataFrame)
  : result DataFrame :=
  g ← when_both_frame (actual ac click) (actual ac impressions)
        (derive_metric_frame (u "CTR") true percent) g;
  g ← when_both_frame (actual ac spend) (actual ac click)
        (derive_metric_frame (u "CPC") false currency) g;
  g ← when_both_frame (actual ac sales) (actual ac spend)
        (derive_metric_frame (u "ROAS") false ratio) g;
  g ← when_both_frame (actual ac spend) (actual ac sales)
        (derive_metric_frame (u "ACoS") true percent) g;
  g ← when_both_frame (actual ac conversions) (actual ac click)
        (derive_metric_frame (u "CVR") true percent) g;
  when_both_frame (actual ac spend) (actual ac conversions)
        (derive_metric_frame (u "CPA") false currency) g.

Definition reorder (dimension : pystr) (g : DataFrame) : result DataFrame :=
  select_columns g
    (dimension :: filter (fun col => negb (Py.eqb col dimension)) (columns g)).

Definition aggregate_single_frame (d : DataFrame) (dimension : pystr)
  : result DataFrame :=
  if negb (Py.mem dimension valid_dims)
  then Raise (ValueError (u "无效的维度: " ++ dimension))
  else
    g ← groupby_sum d [dimension] (sum_columns_of (columns d));
    g ← derive_all (resolve_columns (columns g)) g;
    g ← reorder dimension g;
    sort_values g [dimension].

Definition aggregate_cross_frame (d : DataFrame) (dim1 dim2 : pystr)
  : result DataFrame :=
  if negb (Py.mem dim1 valid_dims) || negb (Py.mem dim2 valid_dims)
  then Raise (ValueError invalid_dims_message)
  else if Py.eqb dim1 dim2
  then Raise (ValueError duplicate_dims_message)
  else
    g ← groupby_sum d [dim1; dim2] (sum_columns_of (columns d));
    sort_values g [dim1; dim2].

(* ===================================================================== *)
(** ** Notions used in the statements *)
(* ===================================================================== *)

(** The order in which the values of a key column are compared, and its
    lexicographic extension to keys of several columns. *)
Definition cell_le (a b : cell) : Prop := cell_compare a b <> Gt.

Definition key_le (k1 k2 : list cell) : Prop := key_compare k1 k2 <> Gt.

(** Two rows in the order of their keys. *)
Definition rows_le (kidx : list nat) (r r' : list cell) : Prop :=
  key_leb (key_at kidx r) (key_at kidx r') = true.

(** A key made of one string, and the strict order of such keys. *)
Definition skey (k : list cell) : Prop := exists s, k = [VStr s].

Definition klt (k k' : list cell) : Prop := key_compare k k' = Lt.

(** An exception other than [ValueError], and a result that raises no
    other kind. *)
Definition benign (e : exn) : Prop :=
  match e with ValueError _ => False | _ => True end.

Definition raises_benign {A} (r : result A) : Prop :=
  forall e, r = Raise e -> benign e.

(** The exact sum of the integers of a column. *)
Definition sumZ (l : list Z) : Z := foldr Z.add 0 l.

Definition total (cells : list cell) : Z := sumZ (map int_value cells).

(** *** Example tables *)

(** One row with a spend and no sales (example 4 of the interface). *)
Definition example4 : DataFrame :=
  {| columns := [u "Campaign Name"; u "Parent Code"; u "Pattern";
                 u "Attribute"; u "Spend"; u "Sales"];
     rows := [[VStr (u "SP-US 模式A1"); VStr (u "SP-US"); VStr (u "模式A1");
               VStr Unclassified; VInt 50; VInt 0]] |}.

(** The same row with arbitrary names, and its summary on a dimension. *)
Definition spend_sales_row (name p q a : pystr) : DataFrame :=
  {| columns := [u "Campaign Name"; u "Parent Code"; u "Pattern";
                 u "Attribute"; u "Spend"; u "Sales"];
     rows := [[VStr name; VStr p; VStr q; VStr a; VInt 50; VInt 0]] |}.

Definition spend_sales_summary (dimension key : pystr) : DataFrame :=
  {| columns := [dimension; u "Spend"; u "Sales"; u "ROAS"; u "ACoS"];
     rows := [[VStr key; VInt 50; VInt 0; VStr (u "0.00x");
               VStr (u "inf%")]] |}.

(** An extracted table whose campaign-name column carries the Chinese
    label. *)
Definition example3 : DataFrame :=
  {| columns := [u "广告活动"; u "Parent Code"; u "Pattern"; u "Attribute";
                 u "Clicks"];
     rows := [[VStr (u "SP-US 模式A1"); VStr (u "SP-US"); VStr (u "模式A1");
               VStr Unclassified; VInt 5];
              [VStr (u "SP-US 模式A2"); VStr (u "SP-US"); VStr (u "模式A2");
               VStr Unclassified; VInt 7]] |}.

(** An extracted table with a float column whose sum depends on the
    order of the additions. *)
Definition example5 : DataFrame :=
  {| columns := [u "Campaign Name"; u "Parent Code"; u "Pattern";
                 u "Attribute"; u "Spend"];
     rows := [[VStr (u "SP-A x"); VStr (u "SP-A"); VStr (u "x");
               VStr Unclassified; VFloat (F64.of_Z (10 ^ 16))];
              [VStr (u "SP-B x"); VStr (u "SP-B"); VStr (u "x");
               VStr Unclassified; VFloat (F64.of_Z 1)];
              [VStr (u "SP-A x"); VStr (u "SP-A"); VStr (u "x");
               VStr Unclassified; VFloat (F64.of_Z (- 10 ^ 16))]] |}.

(** A raw table without a campaign-name column. *)
Definition example6 : DataFrame :=
  {| columns := [u "Clicks"]; rows := [[VInt 5]] |}.

(** An extracted table of three campaigns in two parent codes. *)
Definition example8 : DataFrame :=
  {| columns := [u "Campaign Name"; u "Parent Code"; u "Pattern";
                 u "Attribute"; u "Impressions"; u "Clicks"];
     rows := [[VStr (u "SP-US 模式A1"); VStr (u "SP-US"); VStr (u "模式A1");
               VStr Unclassified; VInt 100; VInt 5];
              [VStr (u "SP-UK 模式B2 品类C"); VStr (u "SP-UK");
               VStr (u "模式B2"); VStr (u "品类C"); VInt 50; VInt 1];
              [VStr (u "SP-US 模式A1 品类B"); VStr (u "SP-US");
               VStr (u "模式A1"); VStr (u "品类B"); VInt 300; VInt 15]] |}.

(** A raw table that already has a column called Pattern, and a raw
    table with the Chinese label and a missing name. *)
Definition example9 : DataFrame :=
  {| columns := [u "Campaign Name"; u "Pattern"];
     rows := [[VStr (u "SP-US 模式A1"); VStr (u "manual")]] |}.

Definition example9_raw : DataFrame :=
  {| columns := [u "广告活动"; u "Clicks"];
     rows := [[VStr (u "SP-US 模式A1 品类B"); VInt 5];
              [VFloat F64.nan; VInt 7]] |}.

(** The summary of [example8] by parent code. *)
Definition example8_by_parent : DataFrame :=
  {| columns := [u "Parent Code"; u "Impressions"; u "Clicks"; u "CTR"];
     rows := [[VStr (u "SP-UK"); VInt 50; VInt 1; VStr (u "2.00%")];
              [VStr (u "SP-US"); VInt 400; VInt 20; VStr (u "5.00%")]] |}.

(** The summary of [example8] by parent code and pattern. *)
Definition example8_by_parent_and_pattern : DataFrame :=
  {| columns := [u "Parent Code"; u "Pattern"; u "Impressions"; u "Clicks"];
     rows := [[VStr (u "SP-UK"); VStr (u "模式B2"); VInt 50; VInt 1];
              [VStr (u "SP-US"); VStr (u "模式A1"); VInt 400; VInt 20]] |}.

(* ===================================================================== *)
(** ** The rest of the module, and its caller *)
(* ===================================================================== *)

(** [s.nunique()]: the number of distinct values of a column, missing
    values left out. *)
Definition nunique (cells : list cell) : nat :=
  length (unique_keys (map (fun c => [c]) (filter (fun c => notna c) cells))).

Record DimensionSummary := {
  parent_code_count : nat;
  pattern_count : nat;
  attribute_count : nat
}.

Definition get_dimension_summary (df : ref) : M DimensionSummary :=
  a ← pd_getitem df (u "Parent Code");
  b ← pd_getitem df (u "Pattern");
  c ← pd_getitem df (u "Attribute");
  mret {| parent_code_count := nunique a;
          pattern_count := nunique b;
          attribute_count := nunique c |}.

(** [df.empty]: no column or no row. *)
Definition df_empty (d : DataFrame) : bool :=
  (length (columns d) =? 0)%nat || (length (rows d) =? 0)%nat.

Definition pd_empty (df : ref) : M bool := d ← load df; mret (df_empty d).

Definition missing_name_error : pystr := u "缺少 'Campaign Name' 列".

Definition empty_frame_error : pystr := u "数据框为空".

Definition validate_data (df : ref) : M (bool * list pystr) :=
  let errors : list pystr := [] in
  cols ← pd_columns df;
  let errors := if negb (Py.mem (u "Campaign Name") cols)
                then errors ++ [missing_name_error] else errors in
  e ← pd_empty df;
  let errors := if (e : bool) then errors ++ [empty_frame_error]
                else errors in
  mret ((length errors =? 0)%nat, errors).

(** [df[c] == value] for a string [value], cell by cell. *)
Definition cell_eq_str (value : pystr) (c : cell) : bool :=
  match c with
  | VStr s => Py.eqb s value
  | _ => false
  end.

(** [df[df[c] == value]]: the rows whose cell in column [c] is the
    string [value], in a new frame. *)
Definition filter_eq (d : DataFrame) (c value : pystr) : result DataFrame :=
  i ← lookup_index d c;
  Ok {| columns := columns d;
        rows := filter (fun r => cell_eq_str value (cell_at i r)) (rows d) |}.

Definition pd_filter_eq (df : ref) (c value : pystr) : M ref :=
  d ← load df; d' ← lift (filter_eq d c value); alloc d'.

(** What the detail page of [app.py] ends up showing: the error of a
    missing cache, the warning of an unknown value, or the tables handed
    to [st.dataframe] (the summary, when it has rows, and the filtered
    rows without the Parent Code and Pattern columns). *)
Inductive page :=
| NoData
| NotFound
| Detail (summary : option ref) (detail : ref).

Definition show_detail_page (cache : option ref) (dimension value : pystr)
  : M page :=
  match cache with
  | None => mret NoData
  | Some df_extracted =>
    df_filtered ← pd_filter_eq df_extracted dimension value;
    e ← pd_empty df_filtered;
    if (e : bool) then mret NotFound
    else
      summary_data ← aggregate_single df_filtered dimension;
      e ← pd_empty summary_data;
      cols ← pd_columns df_filtered;
      let display_cols :=
        filter (fun col => negb (Py.mem col [u "Parent Code"; u "Pattern"]))
               cols in
      detail ← pd_select df_filtered display_cols;
      mret (Detail (if negb (e : bool) then Some summary_data else None)
                   detail)
  end.

(** The six derived-metric blocks of [aggregate_single], in order: the
    label, the role of the numerator, the role of the denominator,
    whether the quotient is multiplied by 100, and the rendering. *)
Definition metric_blocks : list (pystr * role * role * bool * metric_type) :=
  [ (u "CTR", click, impressions, true, percent);
    (u "CPC", spend, click, false, currency);
    (u "ROAS", sales, spend, false, ratio);
    (u "ACoS", spend, sales, true, percent);
    (u "CVR", conversions, click, true, percent);
    (u "CPA", spend, conversions, false, currency) ].

(** The cell a derived metric shows for a numerator and a denominator. *)
Definition metric_cell (times_100 : bool) (t : metric_type) (x y : cell)
  : result cell :=
  let q := F64.div (to_float x) (to_float y) in
  let q := if times_100 then F64.mul q (F64.of_Z 100) else q in
  s ← render t q; Ok (VStr s).

(** The blocks run one after the other on the grouped frame, each one
    only when both of its roles have a column. *)
Fixpoint run_blocks (ac : list (role * pystr))
    (blocks : list (pystr * role * role * bool * metric_type))
    (g : DataFrame) : result DataFrame :=
  match blocks with
  | [] => Ok g
  | (name, a, b, times_100, t) :: rest =>
    g ← when_both_frame (actual ac a) (actual ac b)
          (derive_metric_frame name times_100 t) g;
    run_blocks ac rest g
  end.



(** A key made of two strings, as the cross aggregation groups by. *)
Definition pkey (k : list cell) : Prop := exists s t, k = [VStr s; VStr t].

(** The labels of the blocks that run: those whose two roles have a
    column in [actual_columns]. *)
Definition derived_names (ac : list (role * pystr))
    (blocks : list (pystr * role * role * bool * metric_type))
  : list pystr :=
  omap (fun '(name, a, b, _, _) =>
          match actual ac a, actual ac b with
          | Some _, Some _ => Some name
          | _, _ => None
          end) blocks.

(** *** Notions used in the further properties *)

(** A non-empty string without whitespace. *)
Definition clean (t : pystr) : Prop :=
  t <> [] /\ Forall (fun c => Py.isspace c = false) t.

(** The first component of a key. *)
Definition first_cell (k : list cell) : cell := nth 0 k (VFloat F64.nan).

(** An extracted table without rows. *)
Definition no_rows : DataFrame :=
  {| columns := [u "Campaign Name"; u "Parent Code"; u "Pattern";
                 u "Attribute"; u "Impressions"; u "Clicks"];
     rows := [] |}.

(** What a block leaves in the frame, column by column. *)
Definition metric_columns (g : DataFrame) (name num den : pystr)
    (times_100 : bool) (t : metric_type) : Prop :=
  exists a b m,
    get_column g num = Ok a /\ get_column g den = Ok b
    /\ get_column g name = Ok m
    /\ Forall2 (fun xy m => metric_cell times_100 t xy.1 xy.2 = Ok m)
         (zip a b) m.

(* ===================================================================== *)
(** * Properties *)
(* ===================================================================== *)

Example decode_ascii : u "SP-US" = [83; 80; 45; 85; 83]%N.
Proof. reflexivity. Qed.

Example decode_cjk : u "模式A1" = [27169; 24335; 65; 49]%N.
Proof. reflexivity. Qed.

Example split_example :
  Py.split (u "  SP-US 　模式A1 ") = [u "SP-US"; u "模式A1"].
Proof. reflexivity. Qed.

Example format_2f_eighth :
  format_2f (F64.div (F64.of_Z 1) (F64.of_Z 8)) = u "0.12".
Proof. vm_compute. reflexivity. Qed.

Example format_2f_third :
  format_2f (F64.div (F64.of_Z 200) (F64.of_Z 3)) = u "66.67".
Proof. vm_compute. reflexivity. Qed.

Example format_2f_inf :
  format_2f (F64.div (F64.of_Z 50) (F64.of_Z 0)) = u "inf".
Proof. vm_compute. reflexivity. Qed.

Example extract_example_1 :
  extract_parent_code (VStr (u "SP-US 模式A1")) = u "SP-US"
  /\ extract_pattern (VStr (u "SP-US 模式A1")) = u "模式A1"
  /\ extract_attribute (VStr (u "SP-US 模式A1")) = Unclassified.
Proof. vm_compute. repeat split. Qed.

(* --------------------------------------------------------------------- *)
(** ** Strings *)
(* --------------------------------------------------------------------- *)

Lemma compare_refl (s : pystr) : Py.compare s s = Eq.
Proof. induction s as [|a s IH]; simpl; [done|]. by rewrite N.compare_refl. Qed.

Lemma compare_eq (s t : pystr) : Py.compare s t = Eq -> s = t.
Proof.
  revert t. induction s as [|a s IH]; intros [|b t]; simpl; try done.
  destruct (N.compare a b) eqn:E; try done.
  apply N.compare_eq in E. intros H. f_equal; auto.
Qed.

Lemma compare_antisym (s t : pystr) :
  Py.compare t s = CompOpp (Py.compare s t).
Proof.
  revert t. induction s as [|a s IH]; intros [|b t]; simpl; try done.
  rewrite (N.compare_antisym a b).
  destruct (N.compare a b); simpl; auto.
Qed.

Lemma eqb_eq (s t : pystr) : Py.eqb s t = true <-> s = t.
Proof.
  unfold Py.eqb. split.
  - destruct (Py.compare s t) eqn:E; try done. intros _. by apply compare_eq.
  - intros ->. by rewrite compare_refl.
Qed.

Lemma eqb_neq (s t : pystr) : Py.eqb s t = false <-> s <> t.
Proof.
  rewrite <- eqb_eq. destruct (Py.eqb s t); split; congruence.
Qed.

Lemma eqb_refl (s : pystr) : Py.eqb s s = true.
Proof. by apply eqb_eq. Qed.

Lemma mem_elem_of (x : pystr) (xs : list pystr) :
  Py.mem x xs = true <-> x ∈ xs.
Proof.
  unfold Py.mem. induction xs as [|y xs IH]; simpl.
  - split; [done | by intros ?%elem_of_nil].
  - rewrite orb_true_iff, IH, eqb_eq, elem_of_cons. tauto.
Qed.

Lemma mem_not_elem_of (x : pystr) (xs : list pystr) :
  Py.mem x xs = false <-> x ∉ xs.
Proof.
  rewrite <- mem_elem_of. destruct (Py.mem x xs); split; congruence.
Qed.

(* --------------------------------------------------------------------- *)
(** ** Tokens *)
(* --------------------------------------------------------------------- *)

Section Tokens.

Local Abbreviation space := (fun c => Py.isspace c = true).
Local Abbreviation solid := (fun c => Py.isspace c = false).

Lemma split_skip_space (ws rest : pystr) :
  Forall space ws -> Py.split_from [] (ws ++ rest) = Py.split_from [] rest.
Proof.
  induction 1 as [|c ws Hc _ IH]; simpl; [done|]. by rewrite Hc.
Qed.

Lemma split_read_token (t rest cur : pystr) :
  Forall solid t ->
  Py.split_from cur (t ++ rest) = Py.split_from (rev t ++ cur) rest.
Proof.
  intros Ht. revert cur.
  induction Ht as [|c t Hc _ IH]; intros cur; simpl; [done|].
  rewrite Hc, IH. by rewrite <- app_assoc.
Qed.

Lemma flush_token (t : pystr) (k : list pystr) :
  t <> [] -> Py.flush (rev t) k = t :: k.
Proof.
  intros Ht. unfold Py.flush.
  destruct (rev t) as [|c r] eqn:E.
  - apply (f_equal (@rev N)) in E. rewrite rev_involutive in E. done.
  - by rewrite <- E, rev_involutive.
Qed.

(** The tokens of a string are what [split] returns. *)
Lemma tokens_split (s : pystr) (ts : list pystr) :
  tokens_of s ts -> Py.split s = ts.
Proof.
  unfold Py.split.
  induction 1 as [ws Hws | ws t rest ts Hws Hne Ht Hb _ IH].
  - rewrite <- (app_nil_r ws). by rewrite split_skip_space.
  - rewrite split_skip_space by done.
    rewrite split_read_token by done. rewrite app_nil_r.
    destruct rest as [|c rest]; simpl in *.
    + rewrite flush_token by done. by rewrite <- IH.
    + rewrite Hb in *. simpl in IH. rewrite flush_token by done.
      by rewrite IH.
Qed.

Lemma tokens_prepend_space (c : N) (s : pystr) (ts : list pystr) :
  Py.isspace c = true -> tokens_of s ts -> tokens_of (c :: s) ts.
Proof.
  intros Hc [ws Hws | ws t rest ts' Hws Hne Ht Hb H].
  - constructor. by constructor.
  - change (c :: ws ++ t ++ rest) with ((c :: ws) ++ t ++ rest).
    constructor; auto.
Qed.

Lemma split_from_tokens (s : pystr) :
  tokens_of s (Py.split_from [] s)
  /\ forall cur, cur <> [] -> Forall solid cur ->
       tokens_of (rev cur ++ s) (Py.split_from cur s).
Proof.
  induction s as [|c s [IH0 IH1]].
  - split.
    + simpl. by constructor.
    + intros cur Hne Hcur. simpl.
      assert (Hr : rev cur <> []).
      { intros E. apply (f_equal (@rev N)) in E.
        rewrite rev_involutive in E. done. }
      rewrite <- (rev_involutive cur) at 2.
      rewrite flush_token by done.
      apply (tokens_cons [] (rev cur) [] []); auto.
      * by apply Forall_rev.
      * simpl. done.
      * by constructor.
  - simpl. destruct (Py.isspace c) eqn:Hc.
    + split.
      * simpl. by apply tokens_prepend_space.
      * intros cur Hne Hcur.
        assert (Hr : rev cur <> []).
        { intros E. apply (f_equal (@rev N)) in E.
          rewrite rev_involutive in E. done. }
        rewrite <- (rev_involutive cur) at 2.
        rewrite flush_token by done.
        apply (tokens_cons [] (rev cur) (c :: s)); auto.
        -- by apply Forall_rev.
        -- by apply tokens_prepend_space.
    + assert (H1 : forall cur, Forall solid cur ->
                tokens_of (rev cur ++ c :: s) (Py.split_from (c :: cur) s)).
      { intros cur Hcur.
        replace (rev cur ++ c :: s) with (rev (c :: cur) ++ s)
          by (simpl; by rewrite <- app_assoc).
        apply IH1; [done | by constructor]. }
      split; [apply (H1 []); constructor | intros cur _ Hcur; by apply H1].
Qed.

Lemma split_tokens (s : pystr) : tokens_of s (Py.split s).
Proof. apply split_from_tokens. Qed.

Lemma tokens_solid (s : pystr) (ts : list pystr) :
  tokens_of s ts -> Forall (fun t => t <> [] /\ Forall solid t) ts.
Proof. induction 1; constructor; auto. Qed.

Lemma lstrip_solid (t : pystr) : Forall solid t -> Py.lstrip t = t.
Proof. intros [|c t' Hc _]; simpl; [done|]. by rewrite Hc. Qed.

Lemma strip_token (t : pystr) : Forall solid t -> Py.strip t = t.
Proof.
  intros Ht. unfold Py.strip. rewrite (lstrip_solid t) by done.
  rewrite lstrip_solid by (by apply Forall_rev).
  apply rev_involutive.
Qed.

(** The guard [len(parts) > i and parts[i].strip()] only tests the
    length: a token is never blank. *)
Lemma token_guard (s : pystr) (i : nat) :
  (if (i <? length (Py.split s))%nat
      && Py.truthy (Py.strip (nth i (Py.split s) []))
   then nth i (Py.split s) [] else Unclassified)
  = nth i (Py.split s) Unclassified.
Proof.
  pose proof (tokens_solid _ _ (split_tokens s)) as Hts.
  destruct (Nat.ltb_spec i (length (Py.split s))) as [Hlt|Hge]; simpl.
  - rewrite Forall_forall in Hts.
    assert (Hin : In (nth i (Py.split s) []) (Py.split s))
      by (by apply nth_In).
    apply list_elem_of_In, Hts in Hin. destruct Hin as [Hne Hsol].
    rewrite strip_token by done.
    destruct (nth i (Py.split s) []) eqn:E; [done|]. simpl.
    rewrite <- E. by apply nth_indep.
  - by rewrite nth_overflow.
Qed.

End Tokens.

(** Claim C4.  For every campaign-name value: a value that is not a
    string (a number, or the missing value) yields the sentinel
    [Unclassified] for all three dimensions; for a string, whose tokens
    (its maximal whitespace-free runs) are uniquely determined, the parent
    code, the pattern and the attribute are the first, second and third
    token, or [Unclassified] where the string has no such token.  On
    ["SP-US 模式A1"] the results are ["SP-US"], ["模式A1"] and
    [Unclassified]. *)
Theorem extraction_by_tokens :
  (forall z, extract_parent_code (VInt z) = Unclassified
             /\ extract_pattern (VInt z) = Unclassified
             /\ extract_attribute (VInt z) = Unclassified)
  /\ (forall f, extract_parent_code (VFloat f) = Unclassified
                /\ extract_pattern (VFloat f) = Unclassified
                /\ extract_attribute (VFloat f) = Unclassified)
  /\ (forall s, exists ts,
         tokens_of s ts
         /\ (forall ts', tokens_of s ts' -> ts' = ts)
         /\ extract_parent_code (VStr s) = nth 0 ts Unclassified
         /\ extract_pattern (VStr s) = nth 1 ts Unclassified
         /\ extract_attribute (VStr s) = nth 2 ts Unclassified)
  /\ (extract_parent_code (VStr (u "SP-US 模式A1")) = u "SP-US"
      /\ extract_pattern (VStr (u "SP-US 模式A1")) = u "模式A1"
      /\ extract_attribute (VStr (u "SP-US 模式A1")) = Unclassified).
Proof.
  split; [done|]. split; [done|]. split.
  - intros s. exists (Py.split s). split; [apply split_tokens|].
    split; [intros ts' H; symmetry; by apply tokens_split|].
    unfold extract_parent_code, extract_pattern, extract_attribute.
    cbv zeta. by rewrite !token_guard.
  - vm_compute. done.
Qed.

(* --------------------------------------------------------------------- *)
(** ** Running the store-passing programs *)
(* --------------------------------------------------------------------- *)

Section Execution.

Lemma bind_ok {A B} (m : M A) (f : A -> M B) (σ σ' : store) (a : A) :
  m σ = (Ok a, σ') -> (m ≫= f) σ = f a σ'.
Proof. unfold mbind, M_bind. by intros ->. Qed.

Lemma bind_raise {A B} (m : M A) (f : A -> M B) (σ σ' : store) (e : exn) :
  m σ = (Raise e, σ') -> (m ≫= f) σ = (Raise e, σ').
Proof. unfold mbind, M_bind. by intros ->. Qed.

Lemma deref_lookup (σ : store) (r : ref) (d : DataFrame) :
  σ !! r = Some d -> deref σ r = d.
Proof. intros H. unfold deref. by rewrite nth_lookup, H. Qed.

Lemma lookup_new (σ : store) (d : DataFrame) :
  (σ ++ [d]) !! length σ = Some d.
Proof. rewrite lookup_app_r by lia. by rewrite Nat.sub_diag. Qed.

Lemma insert_new (σ : store) (d d' : DataFrame) :
  <[length σ := d']> (σ ++ [d]) = σ ++ [d'].
Proof.
  replace (length σ) with (length σ + 0)%nat at 1 by lia.
  by rewrite insert_app_r.
Qed.

Lemma pd_copy_run (σ : store) (df : ref) (d : DataFrame) :
  σ !! df = Some d -> pd_copy df σ = (Ok (length σ), σ ++ [d]).
Proof.
  intros H. unfold pd_copy, mbind, M_bind, load, alloc.
  by rewrite (deref_lookup _ _ _ H).
Qed.

Lemma pd_columns_run (σ : store) (df : ref) (d : DataFrame) :
  σ !! df = Some d -> pd_columns df σ = (Ok (columns d), σ).
Proof.
  intros H. unfold pd_columns, mbind, M_bind, load, mret, M_ret.
  by rewrite (deref_lookup _ _ _ H).
Qed.

Lemma pd_getitem_run (σ : store) (df : ref) (d : DataFrame) (c : pystr) :
  σ !! df = Some d -> pd_getitem df c σ = (get_column d c, σ).
Proof.
  intros H. unfold pd_getitem, mbind, M_bind, load, lift.
  by rewrite (deref_lookup _ _ _ H).
Qed.

Lemma pd_setitem_run (σ : store) (df : ref) (d : DataFrame) (c : pystr)
    (values : list cell) :
  σ !! df = Some d ->
  pd_setitem df c values σ = (Ok tt, <[df := set_column d c values]> σ).
Proof.
  intros H. unfold pd_setitem, mbind, M_bind, load, assign.
  by rewrite (deref_lookup _ _ _ H).
Qed.

(** The three operations that build a new frame out of an old one. *)
Lemma pd_fresh_run (op : DataFrame -> result DataFrame) (σ : store)
    (df : ref) (d : DataFrame) :
  σ !! df = Some d ->
  (d0 ← load df; d' ← lift (op d0); alloc d') σ
  = match op d with
    | Ok d' => (Ok (length σ), σ ++ [d'])
    | Raise e => (Raise e, σ)
    end.
Proof.
  intros H. unfold mbind, M_bind, load, lift, alloc.
  rewrite (deref_lookup _ _ _ H). by destruct (op d).
Qed.

Lemma pd_select_run (σ : store) (df : ref) (d : DataFrame)
    (cols : list pystr) :
  σ !! df = Some d ->
  pd_select df cols σ
  = match select_columns d cols with
    | Ok d' => (Ok (length σ), σ ++ [d'])
    | Raise e => (Raise e, σ)
    end.
Proof. apply (pd_fresh_run (fun d => select_columns d cols)). Qed.

Lemma pd_groupby_sum_run (σ : store) (df : ref) (d : DataFrame)
    (by_ cols : list pystr) :
  σ !! df = Some d ->
  pd_groupby_sum df by_ cols σ
  = match groupby_sum d by_ cols with
    | Ok d' => (Ok (length σ), σ ++ [d'])
    | Raise e => (Raise e, σ)
    end.
Proof. apply (pd_fresh_run (fun d => groupby_sum d by_ cols)). Qed.

Lemma pd_sort_values_run (σ : store) (df : ref) (d : DataFrame)
    (by_ : list pystr) :
  σ !! df = Some d ->
  pd_sort_values df by_ σ
  = match sort_values d by_ with
    | Ok d' => (Ok (length σ), σ ++ [d'])
    | Raise e => (Raise e, σ)
    end.
Proof. apply (pd_fresh_run (fun d => sort_values d by_)). Qed.

(** One extraction step on the frame behind [r], followed by [k]. *)
Lemma add_dimension_run {A} (σ : store) (r : ref) (d : DataFrame)
    (cc name : pystr) (f : cell -> pystr) (k : M A) :
  σ !! r = Some d ->
  (s ← pd_getitem r cc;
   pd_setitem r name (map (fun x => VStr (f x)) s);; k) σ
  = match add_dimension d cc name f with
    | Ok d' => k (<[r := d']> σ)
    | Raise e => (Raise e, σ)
    end.
Proof.
  intros H. unfold add_dimension.
  destruct (get_column d cc) as [s|e] eqn:E; simpl.
  - rewrite (bind_ok _ _ σ σ s) by (by rewrite (pd_getitem_run _ _ _ _ H), E).
    by rewrite (bind_ok _ _ σ _ tt (pd_setitem_run _ _ _ _ _ H)).
  - by rewrite (bind_raise _ _ σ σ e)
      by (by rewrite (pd_getitem_run _ _ _ _ H), E).
Qed.

Lemma campaign_choice_run (cols : list pystr) (σ : store) :
  (if Py.mem (u "Campaign Name") cols then mret (u "Campaign Name")
   else if Py.mem (u "广告活动") cols then mret (u "广告活动")
   else raise (ValueError missing_column_message) : M pystr) σ
  = (campaign_column cols, σ).
Proof.
  unfold campaign_column.
  destruct (Py.mem (u "Campaign Name") cols); [done|].
  by destruct (Py.mem (u "广告活动") cols).
Qed.

(** [extract_all_dimensions] allocates one object, the copy, and leaves
    in it what [extract_all_dimensions_frame] computes. *)
Lemma extract_all_dimensions_run (σ : store) (df : ref) (d : DataFrame) :
  σ !! df = Some d ->
  exists d',
    extract_all_dimensions df σ
    = (match extract_all_dimensions_frame d with
       | Ok _ => Ok (length σ)
       | Raise e => Raise e
       end, σ ++ [d'])
    /\ (forall out, extract_all_dimensions_frame d = Ok out -> d' = out).
Proof.
  intros H. unfold extract_all_dimensions, extract_all_dimensions_frame.
  rewrite (bind_ok _ _ _ _ _ (pd_copy_run _ _ _ H)).
  pose proof (lookup_new σ d) as Hn.
  rewrite (bind_ok _ _ _ _ _ (pd_columns_run _ _ _ Hn)).
  destruct (campaign_column (columns d)) as [cc|e] eqn:Ecc; simpl.
  2:{ rewrite (bind_raise _ _ _ (σ ++ [d]) e)
        by (by rewrite campaign_choice_run, Ecc).
      exists d. split; [done|]. intros; done. }
  rewrite (bind_ok _ _ _ (σ ++ [d]) cc)
    by (by rewrite campaign_choice_run, Ecc).
  rewrite (add_dimension_run _ _ _ _ _ _ _ Hn).
  destruct (add_dimension d cc _ extract_parent_code) as [d1|e]; simpl.
  2:{ exists d. split; [done|]. intros; done. }
  rewrite insert_new. pose proof (lookup_new σ d1) as Hn1.
  rewrite (add_dimension_run _ _ _ _ _ _ _ Hn1).
  destruct (add_dimension d1 cc _ extract_pattern) as [d2|e]; simpl.
  2:{ exists d1. split; [done|]. intros; done. }
  rewrite insert_new. pose proof (lookup_new σ d2) as Hn2.
  rewrite (add_dimension_run _ _ _ _ _ _ _ Hn2).
  destruct (add_dimension d2 cc _ extract_attribute) as [d3|e]; simpl.
  2:{ exists d2. split; [done|]. intros; done. }
  rewrite insert_new. exists d3. split; [done|]. by intros out [= <-].
Qed.

End Execution.

(* --------------------------------------------------------------------- *)
(** ** Labels and columns *)
(* --------------------------------------------------------------------- *)

Section Columns.

Lemma map_fmap {A B} (f : A -> B) (l : list A) : map f l = f <$> l.
Proof. reflexivity. Qed.

Lemma index_of_lookup (c : pystr) (cols : list pystr) (i : nat) :
  index_of c cols = Some i -> cols !! i = Some c.
Proof.
  revert i. induction cols as [|x cols IH]; intros i; simpl; [done|].
  destruct (Py.eqb c x) eqn:E.
  - intros [= <-]. apply eqb_eq in E. by subst.
  - destruct (index_of c cols) as [j|]; simpl; [|done].
    intros [= <-]. by apply IH.
Qed.

Lemma index_of_lt (c : pystr) (cols : list pystr) (i : nat) :
  index_of c cols = Some i -> (i < length cols)%nat.
Proof. intros H. by eapply lookup_lt_Some, index_of_lookup. Qed.

Lemma index_of_None (c : pystr) (cols : list pystr) :
  index_of c cols = None <-> c ∉ cols.
Proof.
  induction cols as [|x cols IH]; simpl.
  - split; [intros _; apply not_elem_of_nil | done].
  - rewrite not_elem_of_cons. destruct (Py.eqb c x) eqn:E.
    + apply eqb_eq in E. split; [done | intros [? _]; done].
    + apply eqb_neq in E. destruct (index_of c cols); simpl.
      * split; [done|]. intros [_ H]. by apply IH in H.
      * split; [|done]. intros _. split; [done | by apply IH].
Qed.

Lemma index_of_Some (c : pystr) (cols : list pystr) :
  c ∈ cols -> exists i, index_of c cols = Some i.
Proof.
  intros H. destruct (index_of c cols) as [i|] eqn:E; [by exists i|].
  by apply index_of_None in E.
Qed.

Lemma index_of_inj (c c' : pystr) (cols : list pystr) (i : nat) :
  index_of c cols = Some i -> index_of c' cols = Some i -> c = c'.
Proof.
  intros H H'. apply index_of_lookup in H, H'. congruence.
Qed.

Lemma index_of_app_l (c : pystr) (cols more : list pystr) (i : nat) :
  index_of c cols = Some i -> index_of c (cols ++ more) = Some i.
Proof.
  revert i. induction cols as [|x cols IH]; intros i; simpl; [done|].
  destruct (Py.eqb c x); [done|].
  destruct (index_of c cols) as [j|]; simpl; [|done].
  intros [= <-]. by rewrite (IH j).
Qed.

Lemma index_of_app_r (c : pystr) (cols more : list pystr) :
  c ∉ cols ->
  index_of c (cols ++ more) = (fun j => length cols + j)%nat <$> index_of c more.
Proof.
  induction cols as [|x cols IH]; simpl.
  - intros _. by destruct (index_of c more).
  - rewrite not_elem_of_cons. intros [Hne Hnot].
    apply eqb_neq in Hne. rewrite Hne, IH by done.
    by destruct (index_of c more).
Qed.

Lemma index_of_head (c : pystr) (cols : list pystr) :
  index_of c (c :: cols) = Some 0%nat.
Proof. simpl. by rewrite eqb_refl. Qed.

Lemma index_of_tail (c x : pystr) (cols : list pystr) :
  c <> x -> index_of c (x :: cols) = S <$> index_of c cols.
Proof. intros H. apply eqb_neq in H. simpl. by rewrite H. Qed.

Lemma cell_at_app_l (i : nat) (r more : list cell) :
  (i < length r)%nat -> cell_at i (r ++ more) = cell_at i r.
Proof. intros H. unfold cell_at. by rewrite app_nth1. Qed.

Lemma cell_at_insert_ne (i j : nat) (r : list cell) (v : cell) :
  i <> j -> cell_at i (<[j := v]> r) = cell_at i r.
Proof.
  intros H. unfold cell_at. rewrite !nth_lookup.
  by rewrite list_lookup_insert_ne.
Qed.

Lemma cell_at_insert_eq (i : nat) (r : list cell) (v : cell) :
  (i < length r)%nat -> cell_at i (<[i := v]> r) = v.
Proof.
  intros H. unfold cell_at. rewrite nth_lookup.
  by rewrite list_lookup_insert_eq.
Qed.

Lemma cell_at_snoc (r : list cell) (v : cell) :
  cell_at (length r) (r ++ [v]) = v.
Proof. unfold cell_at. rewrite app_nth2 by lia. by rewrite Nat.sub_diag. Qed.

Lemma zip_with_same {A B C} (f : A -> B -> C) (g : A -> B) (l : list A) :
  zip_with f l (map g l) = map (fun x => f x (g x)) l.
Proof. induction l; simpl; congruence. Qed.

Lemma length_zip_with_same {A B C} (f : A -> B -> C) (l : list A)
    (k : list B) :
  length k = length l -> length (zip_with f l k) = length l.
Proof. intros H. rewrite length_zip_with. lia. Qed.

Lemma zip_with_Forall {A B C} (f : A -> B -> C) (P : A -> Prop)
    (Q : C -> Prop) (l : list A) (k : list B) :
  (forall x y, P x -> Q (f x y)) -> Forall P l -> Forall Q (zip_with f l k).
Proof.
  intros Hf Hl. revert k.
  induction Hl as [|x l Hx _ IH]; intros [|y k]; simpl; constructor; auto.
Qed.

Lemma map_zip_with_l {A B C D} (f : A -> B -> C) (g : C -> D) (h : A -> D)
    (l : list A) (k : list B) :
  length k = length l ->
  (forall x y, x ∈ l -> g (f x y) = h x) ->
  map g (zip_with f l k) = map h l.
Proof.
  revert k. induction l as [|x l IH]; intros [|y k]; simpl; try done.
  intros [= Hlen] Hf. f_equal.
  - apply Hf. by left.
  - apply IH; [done|]. intros ? ? ?. apply Hf. by right.
Qed.

Lemma map_zip_with_r {A B C D} (f : A -> B -> C) (g : C -> D)
    (l : list A) (k : list B) (h : B -> D) :
  length k = length l ->
  (forall x y, x ∈ l -> g (f x y) = h y) ->
  map g (zip_with f l k) = map h k.
Proof.
  revert k. induction l as [|x l IH]; intros [|y k]; simpl; try done.
  intros [= Hlen] Hf. f_equal.
  - apply Hf. by left.
  - apply IH; [done|]. intros ? ? ?. apply Hf. by right.
Qed.

(** *** Column assignment *)

Lemma set_column_wf (d : DataFrame) (c : pystr) (values : list cell) :
  well_formed d -> well_formed (set_column d c values).
Proof.
  unfold well_formed, set_column. intros H.
  destruct (index_of c (columns d)) as [i|]; simpl.
  - eapply zip_with_Forall; [|exact H]. simpl. intros r v Hr.
    by rewrite length_insert.
  - eapply zip_with_Forall; [|exact H]. simpl. intros r v Hr.
    rewrite !length_app. simpl. lia.
Qed.

Lemma set_column_length (d : DataFrame) (c : pystr) (values : list cell) :
  length values = length (rows d) ->
  length (rows (set_column d c values)) = length (rows d).
Proof.
  intros H. unfold set_column.
  destruct (index_of c (columns d)); simpl; by apply length_zip_with_same.
Qed.

Lemma get_column_length (d : DataFrame) (c : pystr) (col : list cell) :
  get_column d c = Ok col -> length col = length (rows d).
Proof.
  unfold get_column, lookup_index.
  destruct (index_of c (columns d)); simpl; [|done].
  intros [= <-]. unfold column_at. by rewrite length_map.
Qed.

(** Reading back the assigned column. *)
Lemma get_column_set_eq (d : DataFrame) (c : pystr) (values : list cell) :
  well_formed d -> length values = length (rows d) ->
  get_column (set_column d c values) c = Ok values.
Proof.
  unfold well_formed, get_column, lookup_index, set_column, column_at.
  intros Hwf Hlen.
  destruct (index_of c (columns d)) as [i|] eqn:E; simpl.
  - rewrite E. simpl. f_equal.
    rewrite <- (map_id values) at 2.
    apply map_zip_with_r; [done|]. intros r v Hr.
    apply cell_at_insert_eq. rewrite Forall_forall in Hwf.
    rewrite (Hwf r Hr). by eapply index_of_lt.
  - apply index_of_None in E. rewrite index_of_app_r by done. simpl.
    rewrite eqb_refl. simpl. f_equal.
    rewrite <- (map_id values) at 2.
    apply map_zip_with_r; [done|]. intros r v Hr.
    rewrite Forall_forall in Hwf. rewrite Nat.add_0_r, <- (Hwf r Hr).
    apply cell_at_snoc.
Qed.

(** The other columns are left as they were. *)
Lemma get_column_set_ne (d : DataFrame) (c c' : pystr)
    (values : list cell) :
  well_formed d -> length values = length (rows d) ->
  c' <> c -> c' ∈ columns d ->
  get_column (set_column d c values) c' = get_column d c'.
Proof.
  unfold well_formed, get_column, lookup_index, set_column, column_at.
  intros Hwf Hlen Hne Hin.
  destruct (index_of_Some _ _ Hin) as [j Ej]. rewrite Ej. simpl.
  destruct (index_of c (columns d)) as [i|] eqn:E; simpl.
  - rewrite Ej. simpl. f_equal.
    apply map_zip_with_l; [done|]. intros r v Hr.
    apply cell_at_insert_ne. intros ->. apply Hne.
    by eapply index_of_inj.
  - rewrite (index_of_app_l _ _ _ _ Ej). simpl. f_equal.
    apply map_zip_with_l; [done|]. intros r v Hr.
    apply cell_at_app_l. rewrite Forall_forall in Hwf.
    rewrite (Hwf r Hr). by eapply index_of_lt.
Qed.

Lemma set_column_columns (d : DataFrame) (c : pystr) (values : list cell) :
  columns (set_column d c values)
  = if Py.mem c (columns d) then columns d else columns d ++ [c].
Proof.
  unfold set_column.
  destruct (index_of c (columns d)) as [i|] eqn:E; simpl.
  - apply index_of_lookup, list_elem_of_lookup_2, mem_elem_of in E.
    by rewrite E.
  - apply index_of_None, mem_not_elem_of in E. by rewrite E.
Qed.

Lemma set_column_keeps (d : DataFrame) (c c' : pystr)
    (values : list cell) :
  c' ∈ columns d -> c' ∈ columns (set_column d c values).
Proof.
  rewrite set_column_columns. destruct (Py.mem c (columns d)); [done|].
  intros H. apply elem_of_app. by left.
Qed.

End Columns.

(* --------------------------------------------------------------------- *)
(** ** Extraction over a table *)
(* --------------------------------------------------------------------- *)

Section ExtractAll.

Lemma column_get (d : DataFrame) (c : pystr) (col : list cell) :
  get_column d c = Ok col -> column d c = col.
Proof. unfold column. by intros ->. Qed.

Lemma get_column_Some (d : DataFrame) (c : pystr) :
  c ∈ columns d -> get_column d c = Ok (column d c).
Proof.
  intros H. destruct (index_of_Some _ _ H) as [i E].
  unfold column, get_column, lookup_index. by rewrite E.
Qed.

Lemma campaign_column_cases (cols : list pystr) :
  (u "Campaign Name" ∈ cols
   /\ campaign_column cols = Ok (u "Campaign Name"))
  \/ ((u "Campaign Name" ∉ cols) /\ u "广告活动" ∈ cols
      /\ campaign_column cols = Ok (u "广告活动"))
  \/ ((u "Campaign Name" ∉ cols) /\ (u "广告活动" ∉ cols)
      /\ campaign_column cols = Raise (ValueError missing_column_message)).
Proof.
  unfold campaign_column.
  destruct (Py.mem (u "Campaign Name") cols) eqn:E1.
  { left. by apply mem_elem_of in E1. }
  apply mem_not_elem_of in E1. right.
  destruct (Py.mem (u "广告活动") cols) eqn:E2.
  { left. by apply mem_elem_of in E2. }
  apply mem_not_elem_of in E2. by right.
Qed.

(** One step writes the extracted column and leaves the others. *)
Lemma add_dimension_spec (d : DataFrame) (cc name : pystr)
    (f : cell -> pystr) :
  well_formed d -> cc ∈ columns d ->
  exists d',
    add_dimension d cc name f = Ok d'
    /\ well_formed d'
    /\ length (rows d') = length (rows d)
    /\ get_column d' name = Ok (map (fun x => VStr (f x)) (column d cc))
    /\ (forall c, c <> name -> c ∈ columns d ->
          c ∈ columns d' /\ get_column d' c = get_column d c).
Proof.
  intros Hwf Hcc. unfold add_dimension.
  rewrite (get_column_Some _ _ Hcc). simpl.
  assert (Hlen : length (map (fun x => VStr (f x)) (column d cc))
                 = length (rows d)).
  { rewrite length_map. apply get_column_length with cc.
    by apply get_column_Some. }
  eexists. split; [done|]. split; [by apply set_column_wf|].
  split; [by apply set_column_length|].
  split; [by apply get_column_set_eq|].
  intros c Hne Hin. split; [by apply set_column_keeps|].
  by apply get_column_set_ne.
Qed.

(** With a fresh label the column goes to the right end. *)
Lemma add_dimension_fresh (d : DataFrame) (cc name : pystr)
    (f : cell -> pystr) (i : nat) :
  index_of cc (columns d) = Some i -> name ∉ columns d ->
  add_dimension d cc name f
  = Ok {| columns := columns d ++ [name];
          rows := map (fun r => r ++ [VStr (f (cell_at i r))]) (rows d) |}.
Proof.
  intros Hi Hfresh. apply index_of_None in Hfresh.
  unfold add_dimension, get_column, lookup_index, set_column, column_at.
  rewrite Hi. simpl. rewrite Hfresh. do 2 f_equal.
  rewrite map_map.
  apply (zip_with_same (fun r v => r ++ [v])
           (fun x => VStr (f (cell_at i x)))).
Qed.

Lemma extract_all_dimensions_frame_fresh (d : DataFrame) (cc : pystr)
    (i : nat) :
  well_formed d ->
  campaign_column (columns d) = Ok cc ->
  index_of cc (columns d) = Some i ->
  (forall c, c ∈ valid_dims -> c ∉ columns d) ->
  extract_all_dimensions_frame d
  = Ok {| columns := columns d ++ [u "Parent Code"; u "Pattern"; u "Attribute"];
          rows := map (fun r =>
                         r ++ [VStr (extract_parent_code (cell_at i r));
                               VStr (extract_pattern (cell_at i r));
                               VStr (extract_attribute (cell_at i r))])
                      (rows d) |}.
Proof.
  intros Hwf Hcc Hi Hfresh. unfold extract_all_dimensions_frame.
  rewrite Hcc. simpl.
  assert (H1 : (u "Parent Code") ∉ columns d)
    by (apply Hfresh; unfold valid_dims; rewrite !elem_of_cons; auto).
  assert (H2 : (u "Pattern") ∉ columns d)
    by (apply Hfresh; unfold valid_dims; rewrite !elem_of_cons; auto).
  assert (H3 : (u "Attribute") ∉ columns d)
    by (apply Hfresh; unfold valid_dims; rewrite !elem_of_cons; auto).
  rewrite (add_dimension_fresh _ _ _ _ i) by done. simpl.
  rewrite (add_dimension_fresh _ _ _ _ i); simpl.
  2: by apply index_of_app_l.
  2:{ rewrite not_elem_of_app, not_elem_of_cons. split; [done|].
      split; [by vm_compute | apply not_elem_of_nil]. }
  rewrite (add_dimension_fresh _ _ _ _ i); simpl.
  2: by do 2 apply index_of_app_l.
  2:{ rewrite !not_elem_of_app, !not_elem_of_cons.
      repeat split; try done; try (by vm_compute); apply not_elem_of_nil. }
  f_equal. f_equal.
  - by rewrite <- !app_assoc.
  - rewrite !map_map. apply map_ext_in. intros r Hr.
    apply list_elem_of_In in Hr.
    unfold well_formed in Hwf. rewrite Forall_forall in Hwf.
    pose proof (Hwf r Hr) as Hlen. pose proof (index_of_lt _ _ _ Hi) as Hlt.
    rewrite !cell_at_app_l by (rewrite ?length_app; simpl; lia).
    by rewrite <- !app_assoc.
Qed.

(** Whatever the labels already present, extraction succeeds as soon as
    a campaign-name column is found, and the three dimensions are read
    from that column. *)
Lemma extract_all_dimensions_frame_ok (d : DataFrame) (cc : pystr) :
  well_formed d ->
  campaign_column (columns d) = Ok cc ->
  exists out,
    extract_all_dimensions_frame d = Ok out
    /\ column out (u "Parent Code")
       = map (fun x => VStr (extract_parent_code x)) (column d cc)
    /\ column out (u "Pattern")
       = map (fun x => VStr (extract_pattern x)) (column d cc)
    /\ column out (u "Attribute")
       = map (fun x => VStr (extract_attribute x)) (column d cc).
Proof.
  intros Hwf Hcc.
  assert (Hin : cc ∈ columns d /\ cc <> u "Parent Code"
                /\ cc <> u "Pattern" /\ cc <> u "Attribute").
  { destruct (campaign_column_cases (columns d))
      as [[H E]|[(_ & H & E)|(_ & _ & E)]];
      rewrite E in Hcc; try done; injection Hcc as <-;
      (split; [done | repeat split; by vm_compute]). }
  destruct Hin as (Hin & N1 & N2 & N3).
  unfold extract_all_dimensions_frame. rewrite Hcc. simpl.
  destruct (add_dimension_spec d cc (u "Parent Code") extract_parent_code
              Hwf Hin) as (d1 & E1 & Hwf1 & _ & G1 & K1).
  rewrite E1. simpl.
  destruct (K1 cc N1 Hin) as [Hin1 C1].
  destruct (add_dimension_spec d1 cc (u "Pattern") extract_pattern
              Hwf1 Hin1) as (d2 & E2 & Hwf2 & _ & G2 & K2).
  rewrite E2. simpl.
  destruct (K2 cc N2 Hin1) as [Hin2 C2].
  destruct (add_dimension_spec d2 cc (u "Attribute") extract_attribute
              Hwf2 Hin2) as (d3 & E3 & _ & _ & G3 & K3).
  exists d3. split; [done|].
  assert (P1 : u "Parent Code" ∈ columns d1).
  { unfold add_dimension in E1. rewrite (get_column_Some _ _ Hin) in E1.
    injection E1 as <-. rewrite set_column_columns.
    destruct (Py.mem (u "Parent Code") (columns d)) eqn:E.
    - by apply mem_elem_of.
    - apply elem_of_app. right. by left. }
  assert (P2 : u "Pattern" ∈ columns d2).
  { unfold add_dimension in E2. rewrite (get_column_Some _ _ Hin1) in E2.
    injection E2 as <-. rewrite set_column_columns.
    destruct (Py.mem (u "Pattern") (columns d1)) eqn:E.
    - by apply mem_elem_of.
    - apply elem_of_app. right. by left. }
  destruct (K2 (u "Parent Code")) as [P12 Q2]; [by vm_compute | done |].
  destruct (K3 (u "Parent Code")) as [_ Q3]; [by vm_compute | done |].
  destruct (K3 (u "Pattern")) as [_ Q3']; [by vm_compute | done |].
  assert (D1 : column d1 cc = column d cc) by (unfold column; by rewrite C1).
  assert (D2 : column d2 cc = column d cc) by (unfold column; by rewrite C2, C1).
  split; [apply column_get; by rewrite Q3, Q2, G1|].
  split; [apply column_get; by rewrite Q3', G2, D1|].
  apply column_get. by rewrite G3, D2.
Qed.

End ExtractAll.

(** Claim C9 as stated fails on a table that already has a column
    called Pattern: that column is overwritten where it stands, and only
    two columns are appended. *)
Lemma extract_all_overwrites_existing_column :
  exists out,
    returned (run_on example9 extract_all_dimensions) = Some out
    /\ columns out
       = [u "Campaign Name"; u "Pattern"; u "Parent Code"; u "Attribute"]
    /\ columns out
       <> columns example9 ++ [u "Parent Code"; u "Pattern"; u "Attribute"]
    /\ rows out = [[VStr (u "SP-US 模式A1"); VStr (u "模式A1");
                    VStr (u "SP-US"); VStr Unclassified]].
Proof. eexists. vm_compute. repeat split. discriminate. Qed.

(** Claim C9, amended.  For every well-formed table that has a
    campaign-name column and no column already called Parent Code,
    Pattern or Attribute, [extract_all_dimensions] returns a new object
    whose labels are those of the input followed by Parent Code, Pattern,
    Attribute, and whose rows are the rows of the input, one for one and
    in the same order, each followed by the three values extracted from its
    campaign name; the frame behind the argument is unchanged. *)
Theorem extract_all_dimensions_appends (σ : store) (df : ref)
    (d : DataFrame) :
  σ !! df = Some d ->
  well_formed d ->
  (u "Campaign Name") ∈ columns d \/ (u "广告活动") ∈ columns d ->
  (forall c, c ∈ valid_dims -> c ∉ columns d) ->
  exists (cc : pystr) (i : nat) (out : DataFrame),
    (cc = u "Campaign Name" \/ cc = u "广告活动")
    /\ index_of cc (columns d) = Some i
    /\ extract_all_dimensions df σ = (Ok (length σ), σ ++ [out])
    /\ columns out
       = columns d ++ [u "Parent Code"; u "Pattern"; u "Attribute"]
    /\ rows out
       = map (fun r =>
                r ++ [VStr (extract_parent_code (cell_at i r));
                      VStr (extract_pattern (cell_at i r));
                      VStr (extract_attribute (cell_at i r))])
             (rows d)
    /\ length (rows out) = length (rows d)
    /\ (σ ++ [out]) !! df = Some d
    /\ df <> length σ.
Proof.
  intros Hdf Hwf Hhas Hfresh.
  assert (Hcc : exists cc, (cc = u "Campaign Name" \/ cc = u "广告活动")
                           /\ cc ∈ columns d
                           /\ campaign_column (columns d) = Ok cc).
  { destruct (campaign_column_cases (columns d))
      as [[H E]|[(_ & H & E)|(N1 & N2 & _)]].
    - exists (u "Campaign Name"). auto.
    - exists (u "广告活动"). auto.
    - by destruct Hhas. }
  destruct Hcc as (cc & Hname & Hin & Hcc).
  destruct (index_of_Some _ _ Hin) as [i Hi].
  pose proof (extract_all_dimensions_frame_fresh d cc i Hwf Hcc Hi Hfresh)
    as Hframe.
  destruct (extract_all_dimensions_run σ df d Hdf) as (d' & Hrun & Hd').
  rewrite Hframe in Hrun. specialize (Hd' _ Hframe). subst d'.
  eexists cc, i, _. split; [done|]. split; [done|].
  split; [exact Hrun|]. simpl. split; [done|]. split; [done|].
  split; [by rewrite length_map|].
  pose proof (lookup_lt_Some _ _ _ Hdf) as Hlt.
  split; [by rewrite lookup_app_l | lia].
Qed.

Lemma extract_all_dimensions_appends_witness :
  exists out,
    extract_all_dimensions 0%nat [example9_raw] = (Ok 1%nat, [example9_raw; out])
    /\ columns out = [u "广告活动"; u "Clicks"; u "Parent Code"; u "Pattern";
                      u "Attribute"]
    /\ rows out
       = [[VStr (u "SP-US 模式A1 品类B"); VInt 5; VStr (u "SP-US");
           VStr (u "模式A1"); VStr (u "品类B")];
          [VFloat F64.nan; VInt 7; VStr Unclassified; VStr Unclassified;
           VStr Unclassified]].
Proof.
  destruct (extract_all_dimensions_appends [example9_raw] 0%nat example9_raw)
    as (cc & i & out & Hname & Hi & Hrun & Hcols & Hrows & _).
  - reflexivity.
  - repeat constructor.
  - right. cbn [columns example9_raw]. left.
  - intros c Hc Hin. unfold valid_dims in Hc.
    cbn [columns example9_raw] in Hin.
    repeat (apply elem_of_cons in Hc as [Hc|Hc]);
      repeat (apply elem_of_cons in Hin as [H|Hin]);
      try (by apply elem_of_nil in Hc); try (by apply elem_of_nil in Hin);
      subst c; vm_compute in H; discriminate.
  - exists out. split; [exact Hrun|]. split; [by rewrite Hcols|].
    rewrite Hrows.
    assert (i = 0%nat) as ->.
    { destruct Hname as [-> | ->]; vm_compute in Hi; congruence. }
    vm_compute. reflexivity.
Defined.

(** Claim C6.  [extract_all_dimensions] looks for a column called
    Campaign Name first and for one called 广告活动 second, and reads the
    dimensions from the first it finds; it fails exactly when the table has
    neither, the only failure is the missing-column error, and its message
    names both labels. *)
Theorem extract_all_dimensions_missing_column (σ : store) (df : ref)
    (d : DataFrame) :
  σ !! df = Some d ->
  well_formed d ->
  ((exists e, raised (extract_all_dimensions df σ) = Some e /\ MissingColumn e)
   <-> (u "Campaign Name" ∉ columns d) /\ (u "广告活动" ∉ columns d))
  /\ (forall e, raised (extract_all_dimensions df σ) = Some e ->
               MissingColumn e)
  /\ Py.contains missing_column_message (u "Campaign Name") = true
  /\ Py.contains missing_column_message (u "广告活动") = true
  /\ (forall out,
        returned (extract_all_dimensions df σ) = Some out ->
        let cc := if Py.mem (u "Campaign Name") (columns d)
                  then u "Campaign Name" else u "广告活动" in
        column out (u "Parent Code")
        = map (fun x => VStr (extract_parent_code x)) (column d cc)
        /\ column out (u "Pattern")
           = map (fun x => VStr (extract_pattern x)) (column d cc)
        /\ column out (u "Attribute")
           = map (fun x => VStr (extract_attribute x)) (column d cc)).
Proof.
  intros Hdf Hwf.
  destruct (extract_all_dimensions_run σ df d Hdf) as (d' & Hrun & Hd').
  rewrite Hrun. unfold raised, returned, MissingColumn.
  destruct (campaign_column_cases (columns d))
    as [[H1 E]|[(N1 & H2 & E)|(N1 & N2 & E)]].
  - destruct (extract_all_dimensions_frame_ok d _ Hwf E)
      as (out & Hout & Hcols).
    rewrite Hout. specialize (Hd' _ Hout). subst d'.
    split; [split; [by intros (e & ? & _) | by intros [? _]]|].
    split; [done|]. do 2 (split; [by vm_compute|]).
    intros o. rewrite lookup_new. intros [= <-].
    apply mem_elem_of in H1. by rewrite H1.
  - destruct (extract_all_dimensions_frame_ok d _ Hwf E)
      as (out & Hout & Hcols).
    rewrite Hout. specialize (Hd' _ Hout). subst d'.
    split; [split; [by intros (e & ? & _) | by intros [_ ?]]|].
    split; [done|]. do 2 (split; [by vm_compute|]).
    intros o. rewrite lookup_new. intros [= <-].
    apply mem_not_elem_of in N1. by rewrite N1.
  - assert (Hf : extract_all_dimensions_frame d
                 = Raise (ValueError missing_column_message)).
    { unfold extract_all_dimensions_frame. by rewrite E. }
    rewrite Hf.
    split; [split; [done | intros _; by eexists]|].
    split; [by intros e [= <-]|]. do 2 (split; [by vm_compute|]).
    done.
Qed.

Lemma extract_all_dimensions_missing_column_witness :
  exists e, raised (extract_all_dimensions 0%nat [example6]) = Some e
            /\ MissingColumn e.
Proof.
  apply (extract_all_dimensions_missing_column [example6] 0%nat example6).
  - reflexivity.
  - repeat constructor.
  - split; intros H; cbn [columns example6] in H;
      apply elem_of_cons in H as [H|H];
      [vm_compute in H; discriminate | by apply elem_of_nil in H
      |vm_compute in H; discriminate | by apply elem_of_nil in H].
Defined.

(* --------------------------------------------------------------------- *)
(** ** The order of keys and sorting *)
(* --------------------------------------------------------------------- *)

Section KeyOrder.

Lemma float_compare_antisym (f g : float) :
  F64.compare g f = CompOpp (F64.compare f g).
Proof.
  unfold F64.compare.
  destruct f as [s1|s1| |s1 m1 e1], g as [s2|s2| |s2 m2 e2]; simpl;
    try done; try (by destruct s1); try (by destruct s2);
    try (by destruct s1, s2).
  destruct s1, s2; simpl; try done;
    rewrite (Z.compare_antisym e1 e2); destruct (e1 ?= e2); simpl; try done;
    rewrite ?CompOpp_involutive, Pos.compare_cont_antisym; done.
Qed.

Lemma cell_compare_antisym (a b : cell) :
  cell_compare b a = CompOpp (cell_compare a b).
Proof.
  unfold cell_compare.
  destruct (isna a), (isna b); try done.
  destruct a as [x|f|s], b as [y|g|t]; simpl; try done.
  - apply Z.compare_antisym.
  - apply float_compare_antisym.
  - apply float_compare_antisym.
  - apply float_compare_antisym.
  - apply compare_antisym.
Qed.

Lemma key_compare_antisym (k1 k2 : list cell) :
  key_compare k2 k1 = CompOpp (key_compare k1 k2).
Proof.
  revert k2. induction k1 as [|a k1 IH]; intros [|b k2]; simpl; try done.
  rewrite (cell_compare_antisym a b).
  destruct (cell_compare a b); simpl; auto.
Qed.

(** Either of two keys is below the other. *)
Lemma key_leb_total (k1 k2 : list cell) :
  key_leb k1 k2 = false -> key_leb k2 k1 = true.
Proof.
  unfold key_leb. rewrite (key_compare_antisym k1 k2).
  by destruct (key_compare k1 k2).
Qed.

Lemma insert_row_sorted (kidx : list nat) (r : list cell)
    (rs : list (list cell)) :
  Sorted (rows_le kidx) rs -> Sorted (rows_le kidx) (insert_row kidx r rs).
Proof.
  induction 1 as [|r' rs Hs IH Hhd]; simpl.
  - by repeat constructor.
  - destruct (key_leb (key_at kidx r) (key_at kidx r')) eqn:E.
    + constructor; [by constructor | by constructor].
    + constructor; [done|]. apply key_leb_total in E.
      destruct Hhd as [|r'' rs' Hle]; simpl.
      * by constructor.
      * destruct (key_leb (key_at kidx r) (key_at kidx r''));
          by constructor.
Qed.

Lemma sort_rows_sorted (kidx : list nat) (rs : list (list cell)) :
  Sorted (rows_le kidx) (sort_rows kidx rs).
Proof.
  induction rs as [|r rs IH]; simpl; [constructor|].
  by apply insert_row_sorted.
Qed.

Lemma insert_row_perm (kidx : list nat) (r : list cell)
    (rs : list (list cell)) :
  Permutation (insert_row kidx r rs) (r :: rs).
Proof.
  induction rs as [|r' rs IH]; simpl; [done|].
  destruct (key_leb (key_at kidx r) (key_at kidx r')); [done|].
  rewrite IH. apply perm_swap.
Qed.

Lemma sort_rows_perm (kidx : list nat) (rs : list (list cell)) :
  Permutation (sort_rows kidx rs) rs.
Proof.
  induction rs as [|r rs IH]; simpl; [done|].
  rewrite insert_row_perm. by constructor.
Qed.

End KeyOrder.

(** On strings the order of cells is the order of their code points. *)
Lemma cell_le_strings (s t : pystr) :
  cell_le (VStr s) (VStr t) <-> Py.compare s t <> Gt.
Proof. reflexivity. Qed.

(** On pairs the order of keys is lexicographic. *)
Lemma key_le_pairs (a1 a2 b1 b2 : cell) :
  key_le [a1; a2] [b1; b2]
  <-> cell_compare a1 b1 = Lt
      \/ (cell_compare a1 b1 = Eq /\ cell_le a2 b2).
Proof.
  unfold key_le, cell_le. simpl.
  destruct (cell_compare a1 b1); [|by intuition..].
  destruct (cell_compare a2 b2); by intuition.
Qed.

(* --------------------------------------------------------------------- *)
(** ** Running the aggregators *)
(* --------------------------------------------------------------------- *)

Section AggregateExecution.

Lemma derive_metric_run (σ : store) (r : ref) (g : DataFrame)
    (name num den : pystr) (times_100 : bool) (t : metric_type) :
  σ !! r = Some g ->
  derive_metric r name num den times_100 t σ
  = match derive_metric_frame name times_100 t g num den with
    | Ok g' => (Ok tt, <[r := g']> σ)
    | Raise e => (Raise e, σ)
    end.
Proof.
  intros H. unfold derive_metric, derive_metric_frame.
  unfold mbind at 1, M_bind. rewrite (pd_getitem_run _ _ _ _ H).
  destruct (get_column g num) as [a|e]; simpl; [|done].
  unfold mbind at 1, M_bind. rewrite (pd_getitem_run _ _ _ _ H).
  destruct (get_column g den) as [b|e]; simpl; [|done].
  unfold mbind at 1, M_bind, lift.
  destruct (series_truediv a b) as [q|e]; simpl; [|done].
  unfold mbind at 1, M_bind.
  destruct (mapM (render t) (scale times_100 q)) as [s|e]; simpl; [|done].
  apply (pd_setitem_run _ _ _ _ _ H).
Qed.

Lemma when_both_run {A} (σ : store) (r : ref) (g : DataFrame)
    (a b : option pystr) (name : pystr) (times_100 : bool)
    (t : metric_type) (k : M A) :
  σ !! r = Some g ->
  (when_both a b (fun x y => derive_metric r name x y times_100 t);; k) σ
  = match when_both_frame a b (derive_metric_frame name times_100 t) g with
    | Ok g' => k (<[r := g']> σ)
    | Raise e => (Raise e, σ)
    end.
Proof.
  intros H. unfold mbind, M_bind, when_both, when_both_frame.
  destruct a as [x|], b as [y|]; simpl;
    rewrite ?(list_insert_id _ _ _ H); try done.
  rewrite (derive_metric_run _ _ _ _ _ _ _ _ H).
  by destruct (derive_metric_frame name times_100 t g x y).
Qed.

(** [aggregate_single] only adds objects to the store; on success the
    returned reference holds what [aggregate_single_frame] computes. *)
Lemma aggregate_single_run (σ : store) (df : ref) (d : DataFrame)
    (dimension : pystr) :
  σ !! df = Some d ->
  exists (r : ref) (ext : store),
    aggregate_single df dimension σ
    = (match aggregate_single_frame d dimension with
       | Ok _ => Ok r
       | Raise e => Raise e
       end, σ ++ ext)
    /\ (forall out, aggregate_single_frame d dimension = Ok out ->
          (σ ++ ext) !! r = Some out).
Proof.
  intros H. unfold aggregate_single, aggregate_single_frame.
  destruct (negb (Py.mem dimension valid_dims)).
  { exists 0%nat, []. rewrite app_nil_r. split; [done | intros; done]. }
  rewrite (bind_ok _ _ _ _ _ (pd_columns_run _ _ _ H)).
  unfold mbind at 1, M_bind. rewrite (pd_groupby_sum_run _ _ _ _ _ H).
  destruct (groupby_sum d [dimension] (sum_columns_of (columns d)))
    as [g|e]; simpl.
  2:{ exists 0%nat, []. rewrite app_nil_r. split; [done | intros; done]. }
  pose proof (lookup_new σ g) as Hn.
  rewrite (bind_ok _ _ _ _ _ (pd_columns_run _ _ _ Hn)).
  unfold derive_all.
  repeat (
    match goal with
    | Hl : (σ ++ [?g0]) !! length σ = Some ?g0 |- _ =>
      rewrite (when_both_run _ _ _ _ _ _ _ _ _ Hl); clear Hl;
      match goal with
      | |- context [when_both_frame ?a ?b ?k g0] =>
        let g' := fresh "g" in
        destruct (when_both_frame a b k g0) as [g'|?]; simpl;
        [rewrite insert_new; pose proof (lookup_new σ g')
        | exists 0%nat, [g0]; split; [done | intros; done] ]
      end
    end).
  match goal with
  | Hl : (σ ++ [?g0]) !! length σ = Some ?g0 |- _ =>
    rewrite (bind_ok _ _ _ _ _ (pd_columns_run _ _ _ Hl));
    unfold mbind at 1, M_bind; rewrite (pd_select_run _ _ _ _ Hl);
    unfold reorder;
    destruct (select_columns g0 _) as [g7|e]; simpl;
    [| exists 0%nat, [g0]; split; [done | intros; done] ];
    pose proof (lookup_new (σ ++ [g0]) g7) as Hn7;
    unfold mbind at 1, M_bind; rewrite (pd_sort_values_run _ _ _ _ Hn7);
    destruct (sort_values g7 [dimension]) as [g8|e]; simpl;
    [| exists 0%nat, [g0; g7]; rewrite <- app_assoc; split;
       [done | intros; done] ];
    exists (length ((σ ++ [g0]) ++ [g7])), [g0; g7; g8];
    split; [by rewrite <- !app_assoc|];
    intros out [= <-];
    replace (σ ++ [g0; g7; g8]) with (((σ ++ [g0]) ++ [g7]) ++ [g8])
      by (by rewrite <- !app_assoc);
    apply lookup_new
  end.
Qed.

Lemma aggregate_cross_run (σ : store) (df : ref) (d : DataFrame)
    (dim1 dim2 : pystr) :
  σ !! df = Some d ->
  exists (r : ref) (ext : store),
    aggregate_cross df dim1 dim2 σ
    = (match aggregate_cross_frame d dim1 dim2 with
       | Ok _ => Ok r
       | Raise e => Raise e
       end, σ ++ ext)
    /\ (forall out, aggregate_cross_frame d dim1 dim2 = Ok out ->
          (σ ++ ext) !! r = Some out).
Proof.
  intros H. unfold aggregate_cross, aggregate_cross_frame.
  destruct (negb (Py.mem dim1 valid_dims) || negb (Py.mem dim2 valid_dims)).
  { exists 0%nat, []. rewrite app_nil_r. split; [done | intros; done]. }
  destruct (Py.eqb dim1 dim2).
  { exists 0%nat, []. rewrite app_nil_r. split; [done | intros; done]. }
  rewrite (bind_ok _ _ _ _ _ (pd_columns_run _ _ _ H)).
  unfold mbind at 1, M_bind. rewrite (pd_groupby_sum_run _ _ _ _ _ H).
  destruct (groupby_sum d [dim1; dim2] (sum_columns_of (columns d)))
    as [g|e]; simpl.
  2:{ exists 0%nat, []. rewrite app_nil_r. split; [done | intros; done]. }
  pose proof (lookup_new σ g) as Hn.
  unfold mbind at 1, M_bind. rewrite (pd_sort_values_run _ _ _ _ Hn).
  destruct (sort_values g [dim1; dim2]) as [g1|e]; simpl.
  2:{ exists 0%nat, [g]. split; [done | intros; done]. }
  exists (length (σ ++ [g])), [g; g1]. split; [by rewrite <- !app_assoc|].
  intros out [= <-].
  replace (σ ++ [g; g1]) with ((σ ++ [g]) ++ [g1])
    by (by rewrite <- !app_assoc).
  apply lookup_new.
Qed.

End AggregateExecution.

(* --------------------------------------------------------------------- *)
(** ** The shape of the summaries *)
(* --------------------------------------------------------------------- *)

Section Shape.

Lemma bind_Ok_inv {A B} (r : result A) (f : A -> result B) (b : B) :
  r ≫= f = Ok b -> exists a, r = Ok a /\ f a = Ok b.
Proof. destruct r as [a|e]; simpl; [by exists a | done]. Qed.

Lemma mapM_Ok_length {A B} (f : A -> result B) (l : list A) (k : list B) :
  mapM f l = Ok k -> length k = length l.
Proof.
  revert k. induction l as [|x l IH]; intros k; simpl.
  - by intros [= <-].
  - intros H. apply bind_Ok_inv in H as (y & _ & H).
    apply bind_Ok_inv in H as (k' & Hk' & H). injection H as <-.
    simpl. f_equal. by apply IH.
Qed.

Lemma mapM_Ok_Forall2 {A B} (f : A -> result B) (l : list A) (k : list B) :
  mapM f l = Ok k -> Forall2 (fun x y => f x = Ok y) l k.
Proof.
  revert k. induction l as [|x l IH]; intros k; simpl.
  - intros [= <-]. constructor.
  - intros H. apply bind_Ok_inv in H as (y & Hy & H).
    apply bind_Ok_inv in H as (k' & Hk' & H). injection H as <-.
    constructor; auto.
Qed.

Lemma mapM_Ok_intro {A B} (f : A -> result B) (g : A -> B) (l : list A) :
  Forall (fun x => f x = Ok (g x)) l -> mapM f l = Ok (map g l).
Proof.
  induction 1 as [|x l Hx _ IH]; simpl; [done|]. by rewrite Hx, IH.
Qed.

Lemma groupby_sum_columns (d : DataFrame) (by_ cols : list pystr)
    (g : DataFrame) :
  groupby_sum d by_ cols = Ok g -> columns g = by_ ++ cols.
Proof.
  unfold groupby_sum. intros H.
  apply bind_Ok_inv in H as (kidx & _ & H).
  apply bind_Ok_inv in H as (vidx & _ & H).
  apply bind_Ok_inv in H as (rows' & _ & H). by injection H as <-.
Qed.

Lemma sort_values_inv (g : DataFrame) (by_ : list pystr) (out : DataFrame) :
  sort_values g by_ = Ok out ->
  exists kidx,
    mapM (lookup_index g) by_ = Ok kidx
    /\ columns out = columns g
    /\ rows out = sort_rows kidx (rows g).
Proof.
  unfold sort_values. intros H.
  apply bind_Ok_inv in H as (kidx & Hk & H). exists kidx.
  destruct (forallb _ kidx); [|done]. by injection H as <-.
Qed.

Lemma select_columns_inv (g : DataFrame) (cols : list pystr)
    (out : DataFrame) :
  select_columns g cols = Ok out ->
  exists idx,
    mapM (lookup_index g) cols = Ok idx
    /\ columns out = cols
    /\ rows out = map (fun r => map (fun i => cell_at i r) idx) (rows g).
Proof.
  unfold select_columns. intros H.
  apply bind_Ok_inv in H as (idx & Hi & H). exists idx.
  by injection H as <-.
Qed.

Lemma aggregate_single_frame_inv (d : DataFrame) (dimension : pystr)
    (out : DataFrame) :
  aggregate_single_frame d dimension = Ok out ->
  dimension ∈ valid_dims
  /\ exists g0 g1 g2,
       groupby_sum d [dimension] (sum_columns_of (columns d)) = Ok g0
       /\ derive_all (resolve_columns (columns g0)) g0 = Ok g1
       /\ reorder dimension g1 = Ok g2
       /\ sort_values g2 [dimension] = Ok out.
Proof.
  unfold aggregate_single_frame.
  destruct (Py.mem dimension valid_dims) eqn:E; simpl; [|done].
  intros H. split; [by apply mem_elem_of|].
  apply bind_Ok_inv in H as (g0 & H0 & H).
  apply bind_Ok_inv in H as (g1 & H1 & H).
  apply bind_Ok_inv in H as (g2 & H2 & H). by exists g0, g1, g2.
Qed.

Lemma aggregate_cross_frame_inv (d : DataFrame) (dim1 dim2 : pystr)
    (out : DataFrame) :
  aggregate_cross_frame d dim1 dim2 = Ok out ->
  dim1 ∈ valid_dims /\ dim2 ∈ valid_dims /\ dim1 <> dim2
  /\ exists g,
       groupby_sum d [dim1; dim2] (sum_columns_of (columns d)) = Ok g
       /\ sort_values g [dim1; dim2] = Ok out.
Proof.
  unfold aggregate_cross_frame.
  destruct (Py.mem dim1 valid_dims) eqn:E1,
    (Py.mem dim2 valid_dims) eqn:E2; cbn [negb orb]; try done.
  destruct (Py.eqb dim1 dim2) eqn:E; [done|].
  intros H. apply mem_elem_of in E1, E2. apply eqb_neq in E.
  apply bind_Ok_inv in H as (g & Hg & H). eauto 10.
Qed.

Lemma Sorted_map_impl {A B} (R : A -> A -> Prop) (R' : B -> B -> Prop)
    (f : A -> B) (l : list A) :
  (forall x y, R x y -> R' (f x) (f y)) ->
  Sorted R l -> Sorted R' (map f l).
Proof.
  intros HR. induction 1 as [|x l Hs IH Hhd]; simpl; constructor; [done|].
  destruct Hhd; simpl; constructor; auto.
Qed.

(** The summary of [aggregate_single] has its key in the first column,
    and its rows sorted on it. *)
Lemma aggregate_single_frame_sorted (d : DataFrame) (dimension : pystr)
    (out : DataFrame) :
  aggregate_single_frame d dimension = Ok out ->
  Sorted cell_le (column out dimension).
Proof.
  intros H. apply aggregate_single_frame_inv in H
    as (_ & g0 & g1 & g2 & _ & _ & H2 & H3).
  apply select_columns_inv in H2 as (idx & _ & Hc2 & _).
  apply sort_values_inv in H3 as (kidx & Hk & Hc & Hr).
  assert (Hk0 : kidx = [0%nat]).
  { simpl in Hk. unfold lookup_index in Hk. rewrite Hc2 in Hk.
    rewrite index_of_head in Hk. simpl in Hk. by injection Hk as <-. }
  subst kidx.
  unfold column, get_column, lookup_index.
  rewrite Hc, Hc2, index_of_head. simpl. unfold column_at. rewrite Hr.
  apply Sorted_map_impl with (R := rows_le [0%nat]);
    [|apply sort_rows_sorted].
  intros r r'. unfold rows_le, key_leb, cell_le. simpl.
  destruct (cell_compare (cell_at 0 r) (cell_at 0 r')); done.
Qed.

Lemma zip_with_map_map {A B C D} (f : B -> C -> D) (g : A -> B)
    (h : A -> C) (l : list A) :
  zip_with f (map g l) (map h l) = map (fun x => f (g x) (h x)) l.
Proof. induction l; simpl; congruence. Qed.

(** The summary of [aggregate_cross] has its two keys in the first two
    columns, and its rows sorted on the pair. *)
Lemma aggregate_cross_frame_sorted (d : DataFrame) (dim1 dim2 : pystr)
    (out : DataFrame) :
  aggregate_cross_frame d dim1 dim2 = Ok out ->
  Sorted key_le
    (zip_with (fun a b => [a; b]) (column out dim1) (column out dim2)).
Proof.
  intros H. apply aggregate_cross_frame_inv in H
    as (_ & _ & Hne & g & Hg & Hs).
  apply groupby_sum_columns in Hg. simpl in Hg.
  apply sort_values_inv in Hs as (kidx & Hk & Hc & Hr).
  assert (H1 : index_of dim1 (columns g) = Some 0%nat)
    by (rewrite Hg; apply index_of_head).
  assert (H2 : index_of dim2 (columns g) = Some 1%nat).
  { rewrite Hg. rewrite index_of_tail by done. by rewrite index_of_head. }
  assert (Hk0 : kidx = [0%nat; 1%nat]).
  { simpl in Hk. unfold lookup_index in Hk. rewrite H1, H2 in Hk.
    simpl in Hk. by injection Hk as <-. }
  subst kidx.
  unfold column, get_column, lookup_index. rewrite Hc, H1, H2. simpl.
  unfold column_at. rewrite zip_with_map_map, Hr.
  apply Sorted_map_impl with (R := rows_le [0%nat; 1%nat]);
    [|apply sort_rows_sorted].
  intros r r'. unfold rows_le, key_leb, key_le, key_at. cbn [map].
  destruct (key_compare _ _); done.
Qed.

End Shape.

(** Example 3 of the interface: two rows of parent code SP-US with
    impressions 100 and 300 and clicks 5 and 15 aggregate to 400, 20 and a
    click-through rate of 5.00%. *)
Example example8_summary :
  returned (run_on example8 (fun df => aggregate_single df (u "Parent Code")))
  = Some {| columns := [u "Parent Code"; u "Impressions"; u "Clicks";
                        u "CTR"];
            rows := [[VStr (u "SP-UK"); VInt 50; VInt 1; VStr (u "2.00%")];
                     [VStr (u "SP-US"); VInt 400; VInt 20;
                      VStr (u "5.00%")]] |}.
Proof. vm_compute. reflexivity. Qed.

(** Claim C8.  Whenever [aggregate_single] returns a summary, the values
    of its dimension column are in non-decreasing order from one row to
    the next; whenever [aggregate_cross] returns a summary, the pairs made
    of its two dimension columns are in non-decreasing lexicographic
    order. *)
Theorem summaries_sorted (σ : store) (df : ref) (d : DataFrame)
    (dimension dim1 dim2 : pystr) :
  σ !! df = Some d ->
  (forall out, returned (aggregate_single df dimension σ) = Some out ->
               Sorted cell_le (column out dimension))
  /\ (forall out, returned (aggregate_cross df dim1 dim2 σ) = Some out ->
        Sorted key_le
          (zip_with (fun a b => [a; b]) (column out dim1) (column out dim2))).
Proof.
  intros Hdf. split; intros out.
  - destruct (aggregate_single_run σ df d dimension Hdf)
      as (r & ext & Hrun & Hout).
    rewrite Hrun. unfold returned.
    destruct (aggregate_single_frame d dimension) as [o|e] eqn:E; [|done].
    rewrite (Hout o eq_refl). intros [= <-].
    by apply (aggregate_single_frame_sorted d).
  - destruct (aggregate_cross_run σ df d dim1 dim2 Hdf)
      as (r & ext & Hrun & Hout).
    rewrite Hrun. unfold returned.
    destruct (aggregate_cross_frame d dim1 dim2) as [o|e] eqn:E; [|done].
    rewrite (Hout o eq_refl). intros [= <-].
    by apply (aggregate_cross_frame_sorted d).
Qed.

Lemma summaries_sorted_witness :
  Sorted cell_le [VStr (u "SP-UK"); VStr (u "SP-US")]
  /\ Sorted key_le [[VStr (u "SP-UK"); VStr (u "品类C")];
                    [VStr (u "SP-US"); VStr (u "品类B")];
                    [VStr (u "SP-US"); VStr Unclassified]].
Proof.
  destruct (summaries_sorted [example8] 0%nat example8 (u "Parent Code")
              (u "Parent Code") (u "Attribute") eq_refl) as [H1 H2].
  split.
  - refine (H1 {| columns := [u "Parent Code"; u "Impressions"; u "Clicks";
                              u "CTR"];
                  rows := [[VStr (u "SP-UK"); VInt 50; VInt 1;
                            VStr (u "2.00%")];
                           [VStr (u "SP-US"); VInt 400; VInt 20;
                            VStr (u "5.00%")]] |} _).
    vm_compute. reflexivity.
  - refine (H2 {| columns := [u "Parent Code"; u "Attribute";
                              u "Impressions"; u "Clicks"];
                  rows := [[VStr (u "SP-UK"); VStr (u "品类C"); VInt 50;
                            VInt 1];
                           [VStr (u "SP-US"); VStr (u "品类B"); VInt 300;
                            VInt 15];
                           [VStr (u "SP-US"); VStr Unclassified; VInt 100;
                            VInt 5]] |} _).
    vm_compute. reflexivity.
Defined.

(** Claim C10.  Neither aggregator changes the frame behind its argument:
    whatever the dimensions, and whether the call returns or raises, the
    final store is the initial store followed by the new objects, so the
    argument still refers to the same columns, rows and values. *)
Theorem aggregators_leave_input (σ : store) (df : ref) (d : DataFrame)
    (dimension dim1 dim2 : pystr) :
  σ !! df = Some d ->
  (exists ext, (aggregate_single df dimension σ).2 = σ ++ ext)
  /\ (aggregate_single df dimension σ).2 !! df = Some d
  /\ (exists ext, (aggregate_cross df dim1 dim2 σ).2 = σ ++ ext)
  /\ (aggregate_cross df dim1 dim2 σ).2 !! df = Some d.
Proof.
  intros Hdf.
  destruct (aggregate_single_run σ df d dimension Hdf) as (r & ext & -> & _).
  destruct (aggregate_cross_run σ df d dim1 dim2 Hdf) as (r' & ext' & -> & _).
  pose proof (lookup_lt_Some _ _ _ Hdf) as Hlt. simpl.
  split; [by exists ext|]. split; [by rewrite lookup_app_l|].
  split; [by exists ext'|]. by rewrite lookup_app_l.
Qed.

Lemma aggregators_leave_input_witness :
  (aggregate_single 0%nat (u "Parent Code") [example8]).2 !! 0%nat
  = Some example8
  /\ (aggregate_cross 0%nat (u "Parent Code") (u "Pattern") [example8]).2
       !! 0%nat
     = Some example8.
Proof.
  destruct (aggregators_leave_input [example8] 0%nat example8
              (u "Parent Code") (u "Parent Code") (u "Pattern") eq_refl)
    as (_ & H1 & _ & H2).
  by split.
Defined.

(* --------------------------------------------------------------------- *)
(** ** Which exceptions the aggregators raise *)
(* --------------------------------------------------------------------- *)

Section Exceptions.

Lemma benign_bind {A B} (r : result A) (f : A -> result B) :
  raises_benign r -> (forall a, raises_benign (f a)) ->
  raises_benign (r ≫= f).
Proof.
  intros Hr Hf e. destruct r as [a|e']; simpl.
  - apply Hf.
  - intros [= <-]. by apply Hr.
Qed.

Lemma benign_Ok {A} (a : A) : raises_benign (Ok a).
Proof. by intros e. Qed.

Lemma benign_mapM {A B} (f : A -> result B) (l : list A) :
  (forall x, raises_benign (f x)) -> raises_benign (mapM f l).
Proof.
  intros Hf. induction l as [|x l IH]; simpl; [apply benign_Ok|].
  apply benign_bind; [apply Hf|]. intros y.
  apply benign_bind; [apply IH|]. intros k. apply benign_Ok.
Qed.

Lemma benign_lookup_index (d : DataFrame) (c : pystr) :
  raises_benign (lookup_index d c).
Proof.
  unfold lookup_index. intros e.
  destruct (index_of c (columns d)); [done|]. by intros [= <-].
Qed.

Lemma benign_get_column (d : DataFrame) (c : pystr) :
  raises_benign (get_column d c).
Proof.
  apply benign_bind; [apply benign_lookup_index | intros; apply benign_Ok].
Qed.

Lemma benign_py_add (a b : cell) : raises_benign (py_add a b).
Proof. intros e. destruct a, b; simpl; try done; by intros [= <-]. Qed.

Lemma benign_sum_object_from (cells : list cell) (acc : cell) :
  raises_benign (sum_object_from acc cells).
Proof.
  revert acc. induction cells as [|c cs IH]; intros acc; simpl.
  - apply benign_Ok.
  - destruct (isna c); [apply IH|].
    apply benign_bind; [apply benign_py_add | intros; apply IH].
Qed.

Lemma benign_agg_sum (dt : dtype) (cells : list cell) :
  raises_benign (agg_sum dt cells).
Proof.
  destruct dt; simpl; try apply benign_Ok.
  unfold sum_object. destruct (filter _ cells); [apply benign_Ok|].
  apply benign_sum_object_from.
Qed.

Lemma benign_groupby_sum (d : DataFrame) (by_ cols : list pystr) :
  raises_benign (groupby_sum d by_ cols).
Proof.
  unfold groupby_sum.
  apply benign_bind; [apply benign_mapM, benign_lookup_index|]. intros kidx.
  apply benign_bind; [apply benign_mapM, benign_lookup_index|]. intros vidx.
  apply benign_bind; [|intros; apply benign_Ok].
  apply benign_mapM. intros k. unfold group_row.
  apply benign_bind; [|intros; apply benign_Ok].
  apply benign_mapM. intros [i dt]. apply benign_agg_sum.
Qed.

Lemma benign_series_truediv (a b : list cell) :
  raises_benign (series_truediv a b).
Proof.
  unfold series_truediv.
  destruct (_ && _); [apply benign_Ok|].
  apply benign_mapM. intros [x y] e. unfold py_truediv.
  destruct (is_str x || is_str y); [by intros [= <-]|].
  destruct (is_zero_number y); [by intros [= <-] | done].
Qed.

Lemma benign_render (t : metric_type) (x : float) :
  t <> number -> raises_benign (render t x).
Proof.
  intros Ht e. unfold render, format_value.
  destruct (F64.is_nan x); simpl; [done|]. by destruct t.
Qed.

Lemma benign_derive_metric (name : pystr) (times_100 : bool)
    (t : metric_type) (g : DataFrame) (num den : pystr) :
  t <> number ->
  raises_benign (derive_metric_frame name times_100 t g num den).
Proof.
  intros Ht. unfold derive_metric_frame.
  apply benign_bind; [apply benign_get_column|]. intros a.
  apply benign_bind; [apply benign_get_column|]. intros b.
  apply benign_bind; [apply benign_series_truediv|]. intros q.
  apply benign_bind; [|intros; apply benign_Ok].
  apply benign_mapM. intros x. by apply benign_render.
Qed.

Lemma benign_when_both (a b : option pystr) (name : pystr)
    (times_100 : bool) (t : metric_type) (g : DataFrame) :
  t <> number ->
  raises_benign (when_both_frame a b (derive_metric_frame name times_100 t) g).
Proof.
  intros Ht. unfold when_both_frame.
  destruct a, b; try apply benign_Ok. by apply benign_derive_metric.
Qed.

Lemma benign_derive_all (ac : list (role * pystr)) (g : DataFrame) :
  raises_benign (derive_all ac g).
Proof.
  unfold derive_all.
  repeat (apply benign_bind; [by apply benign_when_both | intros ?]).
  by apply benign_when_both.
Qed.

Lemma benign_select_columns (g : DataFrame) (cols : list pystr) :
  raises_benign (select_columns g cols).
Proof.
  unfold select_columns.
  apply benign_bind; [apply benign_mapM, benign_lookup_index|].
  intros; apply benign_Ok.
Qed.

Lemma benign_sort_values (g : DataFrame) (by_ : list pystr) :
  raises_benign (sort_values g by_).
Proof.
  unfold sort_values.
  apply benign_bind; [apply benign_mapM, benign_lookup_index|].
  intros kidx e. destruct (forallb _ kidx); [done | by intros [= <-]].
Qed.

Lemma benign_aggregate_single (d : DataFrame) (dimension : pystr) :
  dimension ∈ valid_dims ->
  raises_benign (aggregate_single_frame d dimension).
Proof.
  intros H. apply mem_elem_of in H. unfold aggregate_single_frame.
  rewrite H. simpl.
  apply benign_bind; [apply benign_groupby_sum|]. intros g0.
  apply benign_bind; [apply benign_derive_all|]. intros g1.
  apply benign_bind; [apply benign_select_columns|]. intros g2.
  apply benign_sort_values.
Qed.

Lemma benign_aggregate_cross (d : DataFrame) (dim1 dim2 : pystr) :
  dim1 ∈ valid_dims -> dim2 ∈ valid_dims -> dim1 <> dim2 ->
  raises_benign (aggregate_cross_frame d dim1 dim2).
Proof.
  intros H1 H2 Hne. apply mem_elem_of in H1, H2. apply eqb_neq in Hne.
  unfold aggregate_cross_frame. rewrite H1, H2, Hne. simpl.
  apply benign_bind; [apply benign_groupby_sum|]. intros g.
  apply benign_sort_values.
Qed.

Lemma benign_not_dimension_error (e : exn) :
  benign e -> ~ InvalidDimension e /\ ~ DuplicateDimension e.
Proof.
  intros H. split.
  - intros (m & -> & _). done.
  - intros ->. done.
Qed.

End Exceptions.

(** Claim C7 as stated fails where both arguments of [aggregate_cross]
    are the same invalid name: the validity check comes first, and the
    error is the invalid-dimension one, not the duplicate-dimension one. *)
Lemma aggregate_cross_same_invalid_name :
  exists e,
    aggregate_cross 0%nat (u "Region") (u "Region") [example8]
    = (Raise e, [example8])
    /\ InvalidDimension e /\ ~ DuplicateDimension e.
Proof.
  eexists. split; [vm_compute; reflexivity|]. split.
  - eexists. split; [reflexivity | by vm_compute].
  - unfold DuplicateDimension. vm_compute. discriminate.
Qed.

(** Claim C7, amended.  [aggregate_single] fails with the
    invalid-dimension error whenever its dimension is not one of Parent
    Code, Pattern, Attribute; [aggregate_cross] fails with the
    invalid-dimension error whenever one of its two dimensions is not in
    that set, and with the duplicate-dimension error whenever the two are
    the same valid dimension; with valid (and, for the cross aggregation,
    distinct) dimensions neither raises either error. *)
Theorem dimension_errors (σ : store) (df : ref) (d : DataFrame)
    (dimension dim1 dim2 : pystr) :
  σ !! df = Some d ->
  (dimension ∉ valid_dims ->
     exists e, aggregate_single df dimension σ = (Raise e, σ)
               /\ InvalidDimension e)
  /\ ((dim1 ∉ valid_dims) \/ (dim2 ∉ valid_dims) ->
        exists e, aggregate_cross df dim1 dim2 σ = (Raise e, σ)
                  /\ InvalidDimension e)
  /\ (dim1 ∈ valid_dims -> dim1 = dim2 ->
        exists e, aggregate_cross df dim1 dim2 σ = (Raise e, σ)
                  /\ DuplicateDimension e)
  /\ (dimension ∈ valid_dims ->
        forall e, raised (aggregate_single df dimension σ) = Some e ->
                  ~ InvalidDimension e /\ ~ DuplicateDimension e)
  /\ (dim1 ∈ valid_dims -> dim2 ∈ valid_dims -> dim1 <> dim2 ->
        forall e, raised (aggregate_cross df dim1 dim2 σ) = Some e ->
                  ~ InvalidDimension e /\ ~ DuplicateDimension e).
Proof.
  intros Hdf.
  destruct (aggregate_single_run σ df d dimension Hdf)
    as (r & ext & Hrun & _).
  destruct (aggregate_cross_run σ df d dim1 dim2 Hdf)
    as (r' & ext' & Hrun' & _).
  split; [|split; [|split; [|split]]].
  - intros H. apply mem_not_elem_of in H.
    unfold aggregate_single. rewrite H. simpl.
    eexists. split; [reflexivity|]. eexists. split; reflexivity.
  - intros H. unfold aggregate_cross.
    assert (E : negb (Py.mem dim1 valid_dims)
                || negb (Py.mem dim2 valid_dims) = true).
    { destruct H as [H|H]; apply mem_not_elem_of in H; rewrite H;
        simpl; [done | apply orb_true_r]. }
    rewrite E. eexists. split; [reflexivity|]. eexists.
    split; [reflexivity | by vm_compute].
  - intros H <-. apply mem_elem_of in H.
    unfold aggregate_cross. rewrite H, eqb_refl. simpl.
    by eexists.
  - intros Hdim e He. rewrite Hrun in He. unfold raised in He.
    destruct (aggregate_single_frame d dimension) as [o|e'] eqn:E; [done|].
    injection He as <-.
    by apply benign_not_dimension_error,
      (benign_aggregate_single d dimension).
  - intros H1 H2 Hne e He. rewrite Hrun' in He. unfold raised in He.
    destruct (aggregate_cross_frame d dim1 dim2) as [o|e'] eqn:E; [done|].
    injection He as <-.
    by apply benign_not_dimension_error,
      (benign_aggregate_cross d dim1 dim2).
Qed.

Lemma dimension_errors_witness :
  (exists e, aggregate_single 0%nat (u "Region") [example8]
             = (Raise e, [example8]) /\ InvalidDimension e)
  /\ (exists e, aggregate_cross 0%nat (u "Pattern") (u "Pattern") [example8]
                = (Raise e, [example8]) /\ DuplicateDimension e).
Proof.
  destruct (dimension_errors [example8] 0%nat example8 (u "Region")
              (u "Pattern") (u "Pattern") eq_refl) as (H1 & _ & H3 & _).
  split.
  - apply H1. apply mem_not_elem_of. by vm_compute.
  - apply H3; [|done]. apply mem_elem_of. by vm_compute.
Defined.

(* --------------------------------------------------------------------- *)
(** ** Groups of a string-valued dimension *)
(* --------------------------------------------------------------------- *)

Section StringKeys.

Lemma compare_lt_trans (a b c : pystr) :
  Py.compare a b = Lt -> Py.compare b c = Lt -> Py.compare a c = Lt.
Proof.
  revert b c. induction a as [|x a IH]; intros [|y b] [|z c]; simpl;
    try done.
  destruct (N.compare_spec x y) as [->|Hxy|Hxy]; try done.
  - destruct (N.compare y z); try done. apply IH.
  - destruct (N.compare_spec y z) as [->|Hyz|Hyz]; try done.
    + intros _ _. apply N.compare_lt_iff in Hxy. by rewrite Hxy.
    + intros _ _. assert (H : (x < z)%N) by lia.
      apply N.compare_lt_iff in H. by rewrite H.
Qed.

Lemma skey_compare (s t : pystr) :
  key_compare [VStr s] [VStr t] = Py.compare s t.
Proof. simpl. unfold cell_compare. simpl. by destruct (Py.compare s t). Qed.

Lemma skey_eqb (k k' : list cell) :
  skey k -> skey k' -> key_eqb k k' = true <-> k = k'.
Proof.
  intros [s ->] [t ->]. unfold key_eqb. rewrite skey_compare. split.
  - destruct (Py.compare s t) eqn:E; try done. intros _.
    by rewrite (compare_eq _ _ E).
  - intros [= ->]. by rewrite compare_refl.
Qed.

Lemma klt_trans (k1 k2 k3 : list cell) :
  skey k1 -> skey k2 -> skey k3 -> klt k1 k2 -> klt k2 k3 -> klt k1 k3.
Proof.
  intros [a ->] [b ->] [c ->]. unfold klt. rewrite !skey_compare.
  apply compare_lt_trans.
Qed.

Lemma klt_irrefl (k : list cell) : skey k -> ~ klt k k.
Proof.
  intros [s ->]. unfold klt. rewrite skey_compare. by rewrite compare_refl.
Qed.

Lemma insert_key_elem_of (k x : list cell) (ks : list (list cell)) :
  skey k -> Forall skey ks ->
  x ∈ insert_key k ks <-> x = k \/ x ∈ ks.
Proof.
  intros Hk. induction 1 as [|k' ks Hk' _ IH]; simpl.
  - rewrite list_elem_of_singleton, elem_of_nil. tauto.
  - destruct (key_compare k k') eqn:E.
    + assert (k = k') as -> by (apply skey_eqb; auto; unfold key_eqb;
                                  by rewrite E).
      rewrite elem_of_cons. tauto.
    + rewrite !elem_of_cons. tauto.
    + rewrite !elem_of_cons, IH. tauto.
Qed.

Lemma insert_key_skey (k : list cell) (ks : list (list cell)) :
  skey k -> Forall skey ks -> Forall skey (insert_key k ks).
Proof.
  intros Hk Hks. apply Forall_forall. intros x Hx.
  apply insert_key_elem_of in Hx as [->|Hx]; auto.
  by eapply Forall_forall in Hks.
Qed.

Lemma insert_key_sorted (k : list cell) (ks : list (list cell)) :
  skey k -> Forall skey ks ->
  StronglySorted klt ks -> StronglySorted klt (insert_key k ks).
Proof.
  intros Hk Hks Hs. induction Hs as [|k' ks Hs IH Hall]; simpl.
  - repeat constructor.
  - apply Forall_cons in Hks as [Hk' Hks].
    destruct (key_compare k k') eqn:E.
    + by constructor.
    + constructor; [by constructor|]. constructor; [done|].
      rewrite Forall_forall in Hall, Hks. apply Forall_forall.
      intros x Hx. apply (klt_trans k k' x); auto.
    + constructor; [by apply IH|].
      apply Forall_forall. intros x Hx.
      apply insert_key_elem_of in Hx as [->|Hx]; auto.
      * unfold klt. rewrite (key_compare_antisym k k'), E. done.
      * by eapply Forall_forall in Hall.
Qed.

Lemma unique_keys_spec (ks : list (list cell)) :
  Forall skey ks ->
  Forall skey (unique_keys ks)
  /\ StronglySorted klt (unique_keys ks)
  /\ (forall x, x ∈ unique_keys ks <-> x ∈ ks).
Proof.
  induction 1 as [|k ks Hk Hks (IH1 & IH2 & IH3)]; simpl.
  - split; [constructor|]. split; [constructor | done].
  - split; [by apply insert_key_skey|].
    split; [by apply insert_key_sorted|].
    intros x. rewrite insert_key_elem_of by done.
    rewrite elem_of_cons, IH3. tauto.
Qed.

Lemma sorted_keys_NoDup (ks : list (list cell)) :
  Forall skey ks -> StronglySorted klt ks -> NoDup ks.
Proof.
  intros Hks. induction 1 as [|k ks Hs IH Hall]; [constructor|].
  apply Forall_cons in Hks as [Hk Hks]. constructor; [|by apply IH].
  intros Hin. rewrite Forall_forall in Hall.
  by apply (klt_irrefl k), Hall.
Qed.

End StringKeys.

(* --------------------------------------------------------------------- *)
(** ** Sums over groups *)
(* --------------------------------------------------------------------- *)

Section Sums.

Lemma wrap64_idem_l (a b : Z) : wrap64 (wrap64 a + b) = wrap64 (a + b).
Proof.
  unfold wrap64. f_equal.
  replace ((a + 2 ^ 63) mod 2 ^ 64 - 2 ^ 63 + b + 2 ^ 63)
    with ((a + 2 ^ 63) mod 2 ^ 64 + b) by lia.
  rewrite Zplus_mod_idemp_l. f_equal. lia.
Qed.

Lemma wrap64_idem_r (a b : Z) : wrap64 (a + wrap64 b) = wrap64 (a + b).
Proof. by rewrite (Z.add_comm a), wrap64_idem_l, Z.add_comm. Qed.

Lemma wrap64_0 : wrap64 0 = 0.
Proof. reflexivity. Qed.

Lemma wrap64_in_range (z : Z) : in_int64 (wrap64 z) = true.
Proof.
  unfold in_int64, wrap64.
  pose proof (Z.mod_pos_bound (z + 2 ^ 63) (2 ^ 64) ltac:(lia)).
  apply andb_true_iff. split; [apply Z.leb_le | apply Z.ltb_lt]; lia.
Qed.

Lemma sum_int64_from (cells : list cell) (acc : Z) :
  fold_left (fun a c => wrap64 (a + int_value c)) cells (wrap64 acc)
  = wrap64 (acc + total cells).
Proof.
  revert acc. induction cells as [|c cells IH]; intros acc; simpl.
  - unfold total. simpl. by rewrite Z.add_0_r.
  - rewrite wrap64_idem_l, IH. f_equal. unfold total. simpl. lia.
Qed.

Lemma sum_int64_total (cells : list cell) :
  sum_int64 cells = wrap64 (total cells).
Proof.
  unfold sum_int64. rewrite <- wrap64_0 at 1.
  by rewrite sum_int64_from.
Qed.

Lemma sumZ_perm (l k : list Z) : Permutation l k -> sumZ l = sumZ k.
Proof. induction 1; simpl; lia. Qed.

Lemma total_perm (l k : list cell) : Permutation l k -> total l = total k.
Proof. intros H. unfold total. apply sumZ_perm. by apply Permutation_map. Qed.

Lemma sumZ_add {A} (f g : A -> Z) (l : list A) :
  sumZ (map (fun x => f x + g x) l) = sumZ (map f l) + sumZ (map g l).
Proof. induction l; simpl; lia. Qed.

(** The wrapped sum of wrapped partial sums is the wrapped sum. *)
Lemma wrap64_sum_wrapped {A} (f : A -> Z) (l : list A) :
  wrap64 (sumZ (map (fun x => wrap64 (f x)) l)) = wrap64 (sumZ (map f l)).
Proof.
  induction l as [|x l IH]; simpl; [done|].
  rewrite wrap64_idem_l, <- wrap64_idem_r, IH. by rewrite wrap64_idem_r.
Qed.

Lemma sumZ_indicator {A} (P : A -> bool) (x : A) (v : Z) (l : list A) :
  NoDup l -> x ∈ l ->
  (forall y, y ∈ l -> P y = true <-> x = y) ->
  sumZ (map (fun y => if P y then v else 0) l) = v.
Proof.
  induction 1 as [|y l Hy Hnd IH]; intros Hin HP; simpl.
  - by apply elem_of_nil in Hin.
  - apply elem_of_cons in Hin as [->|Hin].
    + assert (P y = true) as -> by (apply HP; [by left | done]).
      assert (Hz : sumZ (map (fun y0 => if P y0 then v else 0) l) = 0).
      { clear IH. induction l as [|z l IHl]; simpl; [done|].
        apply not_elem_of_cons in Hy as [Hne Hy].
        apply NoDup_cons in Hnd as [_ Hnd].
        destruct (P z) eqn:E.
        - exfalso. apply Hne. apply HP; [right; by left | done].
        - rewrite IHl; auto. intros w Hw. apply HP.
          apply elem_of_cons in Hw as [->|Hw]; [by left|].
          right. by right. }
      lia.
    + destruct (P y) eqn:E.
      * exfalso. apply Hy. assert (x = y) as -> by (apply HP; [by left|done]).
        done.
      * rewrite IH; auto. intros w Hw. apply HP. by right.
Qed.

(** Summing group by group is summing everything, when each row belongs
    to exactly one of the listed keys. *)
Lemma sum_over_groups {R} (key : R -> list cell) (f : R -> Z)
    (keys : list (list cell)) (rs : list R) :
  NoDup keys ->
  (forall r, r ∈ rs -> key r ∈ keys) ->
  (forall r k, r ∈ rs -> k ∈ keys -> key_eqb (key r) k = true <-> key r = k) ->
  sumZ (map (fun k => sumZ (map f (filter (fun r => key_eqb (key r) k) rs)))
            keys)
  = sumZ (map f rs).
Proof.
  intros Hnd. induction rs as [|r rs IH]; intros Hin Heq.
  - clear Hnd Hin Heq. induction keys as [|k keys IHk]; [done|].
    simpl in *. by rewrite IHk.
  - simpl. rewrite <- IH.
    2:{ intros r' Hr'. apply Hin. by right. }
    2:{ intros r' k Hr' Hk. apply Heq; [by right | done]. }
    rewrite <- (sumZ_indicator (fun k => key_eqb (key r) k) (key r) (f r) keys)
      at 1.
    2: done.
    2:{ apply Hin. by left. }
    2:{ intros k Hk. apply Heq; [by left | done]. }
    rewrite <- sumZ_add. f_equal. apply map_ext. intros k.
    rewrite filter_cons. destruct (key_eqb (key r) k) eqn:E.
    + rewrite decide_True by done. simpl. lia.
    + rewrite decide_False by (by intros ?). simpl. lia.
Qed.

End Sums.

(* --------------------------------------------------------------------- *)
(** ** A summed column through the aggregation *)
(* --------------------------------------------------------------------- *)

Section SummedColumn.

Lemma filter_all {A} (P : A -> Prop) `{!forall x, Decision (P x)}
    (l : list A) :
  Forall P l -> filter P l = l.
Proof.
  induction 1 as [|x l Hx _ IH]; [done|].
  rewrite filter_cons_True by done. by rewrite IH.
Qed.

Lemma forallb_Forall {A} (f : A -> bool) (l : list A) :
  Forall (fun x => f x = true) l -> forallb f l = true.
Proof. induction 1 as [|x l Hx _ IH]; simpl; [done|]. by rewrite Hx, IH. Qed.

Lemma mapM_Ok_lookup {A B} (f : A -> result B) (l : list A) (k : list B)
    (p : nat) (x : A) :
  mapM f l = Ok k -> l !! p = Some x ->
  exists y, k !! p = Some y /\ f x = Ok y.
Proof.
  intros H Hx. apply mapM_Ok_Forall2 in H.
  destruct (Forall2_lookup_l _ _ _ _ _ H Hx) as (y & ? & ?). eauto.
Qed.

Lemma Forall2_map_eq {A B C} (P : A -> B -> Prop) (F : A -> C) (G : B -> C)
    (l : list A) (k : list B) :
  Forall2 P l k ->
  (forall x y, x ∈ l -> P x y -> G y = F x) ->
  map G k = map F l.
Proof.
  induction 1 as [|x y l k Hxy _ IH]; intros HP; simpl; [done|].
  f_equal.
  - apply HP; [by left | done].
  - apply IH. intros ? ? ? ?. apply HP; [by right | done].
Qed.

Lemma Forall2_Forall_right {A B} (P : A -> B -> Prop) (Q : B -> Prop)
    (l : list A) (k : list B) :
  Forall2 P l k ->
  (forall x y, x ∈ l -> P x y -> Q y) ->
  Forall Q k.
Proof.
  induction 1 as [|x y l k Hxy _ IH]; intros HP; constructor.
  - apply (HP x); [by left | done].
  - apply IH. intros ? ? ? ?. eapply HP; [by right | done].
Qed.

Lemma groupby_sum_inv (d : DataFrame) (by_ cols : list pystr)
    (g : DataFrame) :
  groupby_sum d by_ cols = Ok g ->
  exists kidx vidx,
    mapM (lookup_index d) by_ = Ok kidx
    /\ mapM (lookup_index d) cols = Ok vidx
    /\ columns g = by_ ++ cols
    /\ let kept := filter (fun r => forallb notna (key_at kidx r)) (rows d) in
       mapM (group_row kidx
               (map (fun i => (i, infer_dtype (column_at i d))) vidx) kept)
            (unique_keys (map (key_at kidx) kept))
       = Ok (rows g).
Proof.
  unfold groupby_sum. intros H.
  apply bind_Ok_inv in H as (kidx & Hk & H).
  apply bind_Ok_inv in H as (vidx & Hv & H).
  cbv zeta in H. apply bind_Ok_inv in H as (rows' & Hr & H).
  injection H as <-. by exists kidx, vidx.
Qed.

Lemma string_keys (i : nat) (rs : list (list cell)) :
  Forall (fun r => is_str (cell_at i r) = true) rs ->
  Forall skey (map (key_at [i]) rs)
  /\ Forall (fun r => forallb notna (key_at [i] r)) rs.
Proof.
  induction 1 as [|r rs Hr _ [IH1 IH2]]; [by split|].
  destruct (cell_at i r) as [| |s] eqn:E; try done.
  rewrite map_cons.
  split; constructor; auto.
  - exists s. unfold key_at. cbn [map]. by rewrite E.
  - unfold key_at. cbn [map]. by rewrite E.
Qed.

Lemma sum_columns_not_dimension (cols : list pystr) (c dim : pystr) :
  c ∈ sum_columns_of cols -> dim ∈ valid_dims -> c <> dim /\ c ∈ cols.
Proof.
  unfold sum_columns_of. rewrite list_elem_of_filter.
  intros [Hc Hin] Hdim. split; [|done]. intros ->.
  apply Is_true_true, negb_true_iff, mem_not_elem_of in Hc. apply Hc.
  unfold valid_dims, not_summed in *. rewrite !elem_of_cons in *. tauto.
Qed.

(** After grouping on a string-valued dimension, an int64 column holds,
    key by key, the wrapped sum of its cells over the rows of the key. *)
Lemma groupby_int64_column (d : DataFrame) (dim c : pystr) (i j : nat)
    (g : DataFrame) :
  index_of dim (columns d) = Some i ->
  Forall (fun r => is_str (cell_at i r) = true) (rows d) ->
  index_of c (columns d) = Some j ->
  Forall (fun r => is_int64 (cell_at j r) = true) (rows d) ->
  c ∈ sum_columns_of (columns d) -> dim ∈ valid_dims ->
  groupby_sum d [dim] (sum_columns_of (columns d)) = Ok g ->
  well_formed g /\ c ∈ columns g
  /\ get_column g c
     = Ok (map (fun k =>
                  VInt (sum_int64
                          (map (cell_at j)
                               (filter (fun r => key_eqb (key_at [i] r) k)
                                       (rows d)))))
               (unique_keys (map (key_at [i]) (rows d)))).
Proof.
  intros Hi Hstr Hj Hint Hc Hdim Hg.
  destruct (sum_columns_not_dimension _ _ _ Hc Hdim) as [Hne _].
  apply groupby_sum_inv in Hg as (kidx & vidx & Hk & Hv & Hcols & Hrows).
  assert (kidx = [i]) as ->.
  { simpl in Hk. unfold lookup_index in Hk. rewrite Hi in Hk. simpl in Hk.
    by injection Hk as <-. }
  destruct (string_keys i (rows d) Hstr) as [Hsk Hnn].
  cbv zeta in Hrows. rewrite (filter_all _ _ Hnn) in Hrows.
  destruct (unique_keys_spec _ Hsk) as (Huk & _ & Hmem).
  set (keys := unique_keys (map (key_at [i]) (rows d))) in *.
  set (cols := sum_columns_of (columns d)) in *.
  destruct (index_of_Some _ _ Hc) as [p Hp].
  pose proof (index_of_lookup _ _ _ Hp) as Hcp.
  destruct (mapM_Ok_lookup _ _ _ _ _ Hv Hcp) as (j' & Hvp & Hj').
  unfold lookup_index in Hj'. rewrite Hj in Hj'. injection Hj' as <-.
  assert (Hdt : infer_dtype (column_at j d) = Int64).
  { unfold infer_dtype, column_at. rewrite forallb_Forall; [done|].
    by apply Forall_map. }
  set (vcols := map (fun i0 => (i0, infer_dtype (column_at i0 d))) vidx) in *.
  assert (Hvc : vcols !! p = Some (j, Int64)).
  { unfold vcols. rewrite map_fmap, list_lookup_fmap, Hvp. simpl.
    by rewrite Hdt. }
  assert (Hlen : length vcols = length cols).
  { unfold vcols. rewrite length_map. by apply mapM_Ok_length in Hv. }
  pose proof (mapM_Ok_Forall2 _ _ _ Hrows) as Hall.
  split; [|split].
  - unfold well_formed. rewrite Hcols. simpl.
    eapply Forall2_Forall_right; [exact Hall|]. simpl.
    intros k row Hk' Hrow. unfold group_row in Hrow.
    apply bind_Ok_inv in Hrow as (sums & Hsums & Hrow). injection Hrow as <-.
    apply mapM_Ok_length in Hsums.
    rewrite Forall_forall in Huk. destruct (Huk k Hk') as [s ->].
    rewrite length_app. simpl. lia.
  - rewrite Hcols. simpl. right. done.
  - unfold get_column, lookup_index. rewrite Hcols. cbn [app].
    rewrite index_of_tail by done. rewrite Hp. simpl. f_equal.
    unfold column_at.
    eapply Forall2_map_eq; [exact Hall|]. simpl.
    intros k row Hk' Hrow. unfold group_row in Hrow.
    apply bind_Ok_inv in Hrow as (sums & Hsums & Hrow). injection Hrow as <-.
    destruct (mapM_Ok_lookup _ _ _ _ _ Hsums Hvc) as (y & Hy & Hagg).
    simpl in Hagg. injection Hagg as <-.
    rewrite Forall_forall in Huk. destruct (Huk k Hk') as [s ->].
    unfold cell_at. simpl. by apply nth_lookup_Some.
Qed.

(** *** The derived metrics leave the summed columns alone *)

Lemma series_truediv_length (a b : list cell) (q : list float) :
  series_truediv a b = Ok q -> length a = length b -> length q = length a.
Proof.
  unfold series_truediv. intros H Hlen.
  destruct (_ && _).
  - injection H as <-. rewrite length_zip_with. lia.
  - apply mapM_Ok_length in H. rewrite H, length_zip_with. lia.
Qed.

Lemma scale_length (times_100 : bool) (q : list float) :
  length (scale times_100 q) = length q.
Proof. unfold scale. destruct times_100; [apply length_map | done]. Qed.

Lemma derive_metric_frame_spec (name : pystr) (times_100 : bool)
    (t : metric_type) (g : DataFrame) (num den : pystr) (g' : DataFrame) :
  well_formed g ->
  derive_metric_frame name times_100 t g num den = Ok g' ->
  well_formed g'
  /\ forall c, c <> name -> c ∈ columns g ->
       c ∈ columns g' /\ get_column g' c = get_column g c.
Proof.
  intros Hwf H. unfold derive_metric_frame in H.
  apply bind_Ok_inv in H as (a & Ha & H).
  apply bind_Ok_inv in H as (b & Hb & H).
  apply bind_Ok_inv in H as (q & Hq & H).
  apply bind_Ok_inv in H as (s & Hs & H). injection H as <-.
  apply get_column_length in Ha, Hb.
  apply series_truediv_length in Hq; [|congruence].
  apply mapM_Ok_length in Hs. rewrite scale_length in Hs.
  assert (Hlen : length (map VStr s) = length (rows g))
    by (rewrite length_map; congruence).
  split; [by apply set_column_wf|].
  intros c Hne Hin. split; [by apply set_column_keeps|].
  by apply get_column_set_ne.
Qed.

Lemma when_both_frame_spec (a b : option pystr) (name : pystr)
    (times_100 : bool) (t : metric_type) (g g' : DataFrame) :
  well_formed g ->
  when_both_frame a b (derive_metric_frame name times_100 t) g = Ok g' ->
  well_formed g'
  /\ forall c, c <> name -> c ∈ columns g ->
       c ∈ columns g' /\ get_column g' c = get_column g c.
Proof.
  intros Hwf. unfold when_both_frame.
  destruct a as [x|], b as [y|]; try (intros [= <-]; by split).
  by apply derive_metric_frame_spec.
Qed.

Lemma derive_all_spec (ac : list (role * pystr)) (g g' : DataFrame) :
  well_formed g ->
  derive_all ac g = Ok g' ->
  well_formed g'
  /\ forall c, c ∉ metric_names -> c ∈ columns g ->
       c ∈ columns g' /\ get_column g' c = get_column g c.
Proof.
  intros Hwf H. unfold derive_all in H.
  apply bind_Ok_inv in H as (g1 & H1 & H).
  apply bind_Ok_inv in H as (g2 & H2 & H).
  apply bind_Ok_inv in H as (g3 & H3 & H).
  apply bind_Ok_inv in H as (g4 & H4 & H).
  apply bind_Ok_inv in H as (g5 & H5 & H).
  destruct (when_both_frame_spec _ _ _ _ _ _ _ Hwf H1) as [W1 K1].
  destruct (when_both_frame_spec _ _ _ _ _ _ _ W1 H2) as [W2 K2].
  destruct (when_both_frame_spec _ _ _ _ _ _ _ W2 H3) as [W3 K3].
  destruct (when_both_frame_spec _ _ _ _ _ _ _ W3 H4) as [W4 K4].
  destruct (when_both_frame_spec _ _ _ _ _ _ _ W4 H5) as [W5 K5].
  destruct (when_both_frame_spec _ _ _ _ _ _ _ W5 H) as [W6 K6].
  split; [done|]. intros c Hc Hin.
  unfold metric_names in Hc. rewrite !not_elem_of_cons in Hc.
  destruct Hc as (N1 & N2 & N3 & N4 & N5 & N6 & _).
  destruct (K1 c N1 Hin) as [I1 E1]. destruct (K2 c N2 I1) as [I2 E2].
  destruct (K3 c N3 I2) as [I3 E3]. destruct (K4 c N4 I3) as [I4 E4].
  destruct (K5 c N5 I4) as [I5 E5]. destruct (K6 c N6 I5) as [I6 E6].
  split; [done | congruence].
Qed.

Lemma select_get_column (g : DataFrame) (cols : list pystr)
    (g' : DataFrame) (c : pystr) :
  select_columns g cols = Ok g' -> c ∈ cols ->
  get_column g' c = get_column g c.
Proof.
  intros H Hin. apply select_columns_inv in H as (idx & Hidx & Hc & Hr).
  destruct (index_of_Some _ _ Hin) as [p Hp].
  pose proof (index_of_lookup _ _ _ Hp) as Hcp.
  destruct (mapM_Ok_lookup _ _ _ _ _ Hidx Hcp) as (j & Hj & Hlk).
  unfold get_column. rewrite Hlk. unfold lookup_index. rewrite Hc, Hp.
  simpl. f_equal. unfold column_at. rewrite Hr, map_map.
  apply map_ext. intros r. unfold cell_at at 1.
  apply nth_lookup_Some. by rewrite map_fmap, list_lookup_fmap, Hj.
Qed.

Lemma sort_values_get_column (g : DataFrame) (by_ : list pystr)
    (out : DataFrame) (c : pystr) (col : list cell) :
  sort_values g by_ = Ok out -> get_column g c = Ok col ->
  exists col', get_column out c = Ok col' /\ Permutation col' col.
Proof.
  intros H Hcol. apply sort_values_inv in H as (kidx & _ & Hc & Hr).
  unfold get_column, lookup_index in *. rewrite Hc.
  destruct (index_of c (columns g)) as [j|]; simpl in *; [|done].
  injection Hcol as <-. eexists. split; [done|].
  unfold column_at. rewrite Hr. apply Permutation_map, sort_rows_perm.
Qed.

End SummedColumn.

(** Claim C5 as stated fails on a float column: the group sums are 0.0
    and 1.0, which add up to 1.0, while the column of the input, summed
    in row order, gives 0.0 (the 1.0 is absorbed by 1e16). *)
Lemma float_sums_differ :
  exists out,
    returned (run_on example5 (fun df => aggregate_single df (u "Parent Code")))
    = Some out
    /\ column out (u "Spend") = [VFloat F64.zero; VFloat (F64.of_Z 1)]
    /\ column_sum out (u "Spend") = Ok (VFloat (F64.of_Z 1))
    /\ column_sum example5 (u "Spend") = Ok (VFloat F64.zero)
    /\ column_sum out (u "Spend") <> column_sum example5 (u "Spend").
Proof.
  exists {| columns := [u "Parent Code"; u "Spend"];
            rows := [[VStr (u "SP-A"); VFloat F64.zero];
                     [VStr (u "SP-B"); VFloat (F64.of_Z 1)]] |}.
  split; [by vm_compute|]. split; [by vm_compute|].
  split; [by vm_compute|]. split; [by vm_compute|].
  vm_compute. discriminate.
Qed.

(** Claim C5, amended.  For every table whose dimension column holds
    strings (as extraction produces), and every summed column that is
    stored as int64 and is not replaced by a derived metric, the sum of
    the column over the rows of the summary returned by
    [aggregate_single] is the sum of the column over the rows of the
    input; both are the wrapped 64-bit sum of the cells. *)
Theorem aggregate_single_sum_invariant (σ : store) (df : ref)
    (d : DataFrame) (dimension c : pystr) (out : DataFrame) :
  σ !! df = Some d ->
  string_column d dimension ->
  int64_column d c ->
  c ∈ sum_columns_of (columns d) ->
  c ∉ metric_names ->
  returned (aggregate_single df dimension σ) = Some out ->
  column_sum out c = column_sum d c
  /\ column_sum d c = Ok (VInt (wrap64 (total (column d c)))).
Proof.
  intros Hdf (i & Hi & Hstr) (j & Hj & Hint) Hc Hmetric Hret.
  destruct (aggregate_single_run σ df d dimension Hdf)
    as (r & ext & Hrun & Hout).
  rewrite Hrun in Hret. unfold returned in Hret.
  destruct (aggregate_single_frame d dimension) as [o|e] eqn:E; [|done].
  rewrite (Hout o eq_refl) in Hret. injection Hret as ->.
  apply aggregate_single_frame_inv in E
    as (Hdim & g0 & g1 & g2 & H0 & H1 & H2 & H3).
  destruct (sum_columns_not_dimension _ _ _ Hc Hdim) as [Hne Hcd].
  destruct (groupby_int64_column d dimension c i j g0
              Hi Hstr Hj Hint Hc Hdim H0) as (W0 & I0 & G0).
  destruct (derive_all_spec _ _ _ W0 H1) as [W1 K1].
  destruct (K1 c Hmetric I0) as [I1 G1].
  assert (G2 : get_column g2 c = get_column g1 c).
  { apply (select_get_column _ _ _ _ H2). right.
    apply list_elem_of_filter. split; [|done].
    apply Is_true_true, negb_true_iff. by apply eqb_neq. }
  rewrite G1, G0 in G2.
  destruct (sort_values_get_column _ _ _ _ _ H3 G2) as (col' & Gout & Hperm).
  (* the input column *)
  assert (Hin : get_column d c = Ok (map (cell_at j) (rows d))).
  { unfold get_column, lookup_index. by rewrite Hj. }
  assert (Hd : column_sum d c
               = Ok (VInt (wrap64 (total (map (cell_at j) (rows d)))))).
  { unfold column_sum. rewrite Hin. simpl.
    unfold infer_dtype. rewrite forallb_Forall by (by apply Forall_map).
    simpl. by rewrite sum_int64_total. }
  split; [|by rewrite (column_get _ _ _ Hin)].
  rewrite Hd. unfold column_sum. rewrite Gout. simpl.
  (* the summary column is stored as int64 as well *)
  assert (Hall : Forall (fun x => is_int64 x = true) col').
  { rewrite Hperm. apply Forall_map, Forall_forall. intros k _. simpl.
    rewrite sum_int64_total. apply wrap64_in_range. }
  unfold infer_dtype. rewrite forallb_Forall by done. simpl.
  do 2 f_equal. rewrite sum_int64_total, (total_perm _ _ Hperm).
  unfold total at 1. rewrite map_map. simpl.
  erewrite map_ext by (intros k; apply sum_int64_total).
  rewrite (wrap64_sum_wrapped
             (fun k => total (map (cell_at j)
                            (filter (fun r => key_eqb (key_at [i] r) k)
                                    (rows d))))).
  f_equal. unfold total.
  rewrite (map_map (cell_at j) int_value (rows d)).
  destruct (string_keys i (rows d) Hstr) as [Hsk _].
  destruct (unique_keys_spec _ Hsk) as (Huk & Hsorted & Hmem).
  rewrite <- (sum_over_groups (key_at [i])
                (fun r => int_value (cell_at j r))
                (unique_keys (map (key_at [i]) (rows d))) (rows d)).
  - f_equal. apply map_ext. intros k. by rewrite map_map.
  - by apply sorted_keys_NoDup.
  - intros r' Hr'. apply Hmem. rewrite map_fmap. by apply list_elem_of_fmap_2.
  - intros r' k Hr' Hk. apply skey_eqb.
    + rewrite Forall_forall in Hsk. apply Hsk.
      rewrite map_fmap. by apply list_elem_of_fmap_2.
    + rewrite Forall_forall in Huk. by apply Huk.
Qed.

Lemma aggregate_single_sum_invariant_witness :
  column_sum
    {| columns := [u "Parent Code"; u "Impressions"; u "Clicks"; u "CTR"];
       rows := [[VStr (u "SP-UK"); VInt 50; VInt 1; VStr (u "2.00%")];
                [VStr (u "SP-US"); VInt 400; VInt 20; VStr (u "5.00%")]] |}
    (u "Impressions")
  = column_sum example8 (u "Impressions")
  /\ column_sum example8 (u "Impressions") = Ok (VInt 450).
Proof.
  destruct (aggregate_single_sum_invariant [example8] 0%nat example8
              (u "Parent Code") (u "Impressions")
              {| columns := [u "Parent Code"; u "Impressions"; u "Clicks";
                             u "CTR"];
                 rows := [[VStr (u "SP-UK"); VInt 50; VInt 1;
                           VStr (u "2.00%")];
                          [VStr (u "SP-US"); VInt 400; VInt 20;
                           VStr (u "5.00%")]] |}) as [H1 H2].
  - reflexivity.
  - exists 1%nat. split; [by vm_compute | repeat constructor].
  - exists 4%nat. split; [by vm_compute | repeat constructor].
  - apply list_elem_of_filter. split; [by vm_compute|].
    cbn [columns example8]. rewrite !elem_of_cons. auto 10.
  - unfold metric_names. rewrite !not_elem_of_cons.
    repeat split; try (by vm_compute). apply not_elem_of_nil.
  - vm_compute. reflexivity.
  - split; [exact H1|]. rewrite H2. vm_compute. reflexivity.
Defined.

(* --------------------------------------------------------------------- *)
(** ** A single row with a spend and no sales *)
(* --------------------------------------------------------------------- *)

Section SingleRow.

Lemma mapM_map {A B C} (f : B -> result C) (g : A -> B) (l : list A) :
  mapM f (map g l) = mapM (fun x => f (g x)) l.
Proof. induction l as [|x l IH]; simpl; [done|]. by rewrite IH. Qed.

Lemma key_eqb_refl_str (p : pystr) : key_eqb [VStr p] [VStr p] = true.
Proof. apply skey_eqb; try by exists p. done. Qed.

(** Grouping a table of one row on a string-valued dimension. *)
Lemma groupby_sum_one_row (cols : list pystr) (r : list cell)
    (dim : pystr) (cs : list pystr) (i : nat) (vidx : list nat) (p : pystr) :
  index_of dim cols = Some i -> cell_at i r = VStr p ->
  mapM (lookup_index {| columns := cols; rows := [r] |}) cs = Ok vidx ->
  groupby_sum {| columns := cols; rows := [r] |} [dim] cs
  = (sums ← mapM (fun j => agg_sum (infer_dtype [cell_at j r]) [cell_at j r])
                 vidx;
     Ok {| columns := dim :: cs; rows := [VStr p :: sums] |}).
Proof.
  intros Hi Hp Hv. unfold groupby_sum. rewrite Hv.
  cbn [mapM]. unfold lookup_index at 1. cbn [columns]. rewrite Hi.
  cbn [mbind result_bind mret result_ret rows].
  assert (Hk : key_at [i] r = [VStr p])
    by (unfold key_at; cbn [map]; by rewrite Hp).
  rewrite filter_cons_True by (rewrite Hk; done).
  rewrite filter_nil. cbn [map unique_keys fold_right insert_key]. rewrite Hk.
  cbn [mapM mbind result_bind mret result_ret].
  unfold group_row.
  rewrite filter_cons_True by (rewrite Hk, key_eqb_refl_str; done).
  rewrite filter_nil. rewrite mapM_map. cbn [map column_at rows app].
  by destruct (mapM _ vidx).
Qed.

Lemma spend_sales_row_frame (name p q a : pystr) :
  aggregate_single_frame (spend_sales_row name p q a) (u "Parent Code")
  = Ok (spend_sales_summary (u "Parent Code") p)
  /\ aggregate_single_frame (spend_sales_row name p q a) (u "Pattern")
     = Ok (spend_sales_summary (u "Pattern") q)
  /\ aggregate_single_frame (spend_sales_row name p q a) (u "Attribute")
     = Ok (spend_sales_summary (u "Attribute") a).
Proof.
  unfold aggregate_single_frame, spend_sales_row. cbn [columns].
  replace (sum_columns_of _) with [u "Spend"; u "Sales"] by (by vm_compute).
  split; [|split].
  - replace (negb _) with false by (by vm_compute).
    rewrite (groupby_sum_one_row _ _ _ _ 1%nat [4%nat; 5%nat] p)
      by (by vm_compute).
    by vm_compute.
  - replace (negb _) with false by (by vm_compute).
    rewrite (groupby_sum_one_row _ _ _ _ 2%nat [4%nat; 5%nat] q)
      by (by vm_compute).
    by vm_compute.
  - replace (negb _) with false by (by vm_compute).
    rewrite (groupby_sum_one_row _ _ _ _ 3%nat [4%nat; 5%nat] a)
      by (by vm_compute).
    by vm_compute.
Qed.

End SingleRow.

(** Claim C1 at the table of example 4 (one row, Spend 50, Sales 0): the
    denominator of ACoS, the Sales total of the group, is zero, and the
    ACoS cell of the summary is the rendering of an infinity, not the
    sentinel. *)
Theorem acos_renders_infinity :
  exists out,
    returned (run_on example4 (fun df => aggregate_single df (u "Parent Code")))
    = Some out
    /\ frame_cell out (u "Sales") 0 = Some (VInt 0)
    /\ frame_cell out (u "ACoS") 0 = Some (VStr (u "inf%"))
    /\ frame_cell out (u "ACoS") 0 <> Some (VStr (u "-")).
Proof.
  exists (spend_sales_summary (u "Parent Code") (u "SP-US")).
  split; [by vm_compute|]. split; [by vm_compute|].
  split; [by vm_compute|]. vm_compute. discriminate.
Qed.

(** Claim C2 as stated fails at the table of example 4: Sales / Spend is
    0 / 50, which is not a division by zero, and the ROAS cell is the
    rendering of 0. *)
Lemma example4_roas_is_not_the_sentinel :
  exists out,
    returned (run_on example4 (fun df => aggregate_single df (u "Parent Code")))
    = Some out
    /\ frame_cell out (u "ROAS") 0 = Some (VStr (u "0.00x"))
    /\ ~ (frame_cell out (u "ROAS") 0 = Some (VStr (u "-"))
          /\ frame_cell out (u "ACoS") 0 = Some (VStr (u "-"))).
Proof.
  exists (spend_sales_summary (u "Parent Code") (u "SP-US")).
  split; [by vm_compute|]. split; [by vm_compute|].
  intros [H _]. vm_compute in H. discriminate.
Qed.

(** Claim C2, amended.  For a table of a single row whose Spend is 50 and
    whose Sales is 0, whatever its campaign name and dimension values,
    [aggregate_single] on any of the three dimensions returns a summary of
    one row whose Spend is 50, whose Sales is 0 and whose ROAS cell is the
    string ["0.00x"]. *)
Theorem single_row_roas (σ : store) (df : ref) (name p q a : pystr)
    (dimension : pystr) :
  σ !! df = Some (spend_sales_row name p q a) ->
  dimension ∈ valid_dims ->
  exists out,
    returned (aggregate_single df dimension σ) = Some out
    /\ length (rows out) = 1%nat
    /\ frame_cell out (u "Spend") 0 = Some (VInt 50)
    /\ frame_cell out (u "Sales") 0 = Some (VInt 0)
    /\ frame_cell out (u "ROAS") 0 = Some (VStr (u "0.00x")).
Proof.
  intros Hdf Hdim.
  destruct (aggregate_single_run σ df _ dimension Hdf)
    as (r & ext & Hrun & Hout).
  destruct (spend_sales_row_frame name p q a) as (E1 & E2 & E3).
  unfold valid_dims in Hdim. rewrite !elem_of_cons, elem_of_nil in Hdim.
  destruct Hdim as [->|[->|[->|[]]]].
  - rewrite E1 in *. exists (spend_sales_summary (u "Parent Code") p).
    rewrite Hrun. split; [by apply Hout|]. vm_compute. repeat split.
  - rewrite E2 in *. exists (spend_sales_summary (u "Pattern") q).
    rewrite Hrun. split; [by apply Hout|]. vm_compute. repeat split.
  - rewrite E3 in *. exists (spend_sales_summary (u "Attribute") a).
    rewrite Hrun. split; [by apply Hout|]. vm_compute. repeat split.
Qed.

Lemma single_row_roas_witness :
  exists out,
    returned (aggregate_single 0%nat (u "Pattern") [example4]) = Some out
    /\ frame_cell out (u "ROAS") 0 = Some (VStr (u "0.00x")).
Proof.
  destruct (single_row_roas [example4] 0%nat (u "SP-US 模式A1") (u "SP-US")
              (u "模式A1") Unclassified (u "Pattern"))
    as (out & H1 & _ & _ & _ & H2).
  - reflexivity.
  - apply mem_elem_of. vm_compute. reflexivity.
  - exists out. split; [exact H1 | exact H2].
Defined.

(** Claim C3 at a table whose campaign-name column is called 广告活动:
    the column is among the summed columns, and the summary carries it,
    holding the concatenated names of each group. *)
Theorem chinese_campaign_column_is_summed :
  sum_columns_of (columns example3) = [u "广告活动"; u "Clicks"]
  /\ sum_columns_of (columns example8) = [u "Impressions"; u "Clicks"]
  /\ returned (run_on example3
                 (fun df => aggregate_single df (u "Parent Code")))
     = Some {| columns := [u "Parent Code"; u "广告活动"; u "Clicks"];
               rows := [[VStr (u "SP-US");
                         VStr (u "SP-US 模式A1SP-US 模式A2"); VInt 12]] |}
  /\ returned (run_on example3
                 (fun df => aggregate_cross df (u "Parent Code") (u "Pattern")))
     = Some {| columns := [u "Parent Code"; u "Pattern"; u "广告活动";
                           u "Clicks"];
               rows := [[VStr (u "SP-US"); VStr (u "模式A1");
                         VStr (u "SP-US 模式A1"); VInt 5];
                        [VStr (u "SP-US"); VStr (u "模式A2");
                         VStr (u "SP-US 模式A2"); VInt 7]] |}.
Proof. repeat split; by vm_compute. Qed.

(* ===================================================================== *)
(** * Further properties *)
(* ===================================================================== *)

(* --------------------------------------------------------------------- *)
(** ** The extracted values *)
(* --------------------------------------------------------------------- *)

Section ExtractedValues.

Lemma Unclassified_clean : clean Unclassified.
Proof.
  split; [by vm_compute|].
  let x := eval vm_compute in Unclassified in change Unclassified with x.
  repeat constructor.
Qed.

Lemma nth_token_clean (s : pystr) (i : nat) :
  clean (nth i (Py.split s) Unclassified).
Proof.
  pose proof (tokens_solid _ _ (split_tokens s)) as Hts.
  destruct (Nat.lt_ge_cases i (length (Py.split s))) as [Hlt|Hge].
  - rewrite Forall_forall in Hts. apply Hts, list_elem_of_In.
    by apply nth_In.
  - rewrite nth_overflow by done. apply Unclassified_clean.
Qed.

Lemma split_clean (t : pystr) : clean t -> Py.split t = [t].
Proof.
  intros [Hne Hsol]. apply tokens_split.
  pose proof (tokens_cons [] t [] []) as H. rewrite app_nil_r in H.
  apply H; auto.
  - constructor.
  - by constructor.
Qed.

Lemma extract_parent_code_eq (s : pystr) :
  extract_parent_code (VStr s) = nth 0 (Py.split s) Unclassified.
Proof. unfold extract_parent_code. cbv zeta. apply token_guard. Qed.

Lemma extract_pattern_eq (s : pystr) :
  extract_pattern (VStr s) = nth 1 (Py.split s) Unclassified.
Proof. unfold extract_pattern. cbv zeta. apply token_guard. Qed.

Lemma extract_attribute_eq (s : pystr) :
  extract_attribute (VStr s) = nth 2 (Py.split s) Unclassified.
Proof. unfold extract_attribute. cbv zeta. apply token_guard. Qed.

End ExtractedValues.

(** Whatever the cell, each extracted value is a non-empty string without
    whitespace, and extracting again from an extracted value is stable: its
    parent code is itself, its pattern and attribute are the sentinel. *)
Theorem extracted_values_clean (v : cell) :
  (clean (extract_parent_code v) /\ clean (extract_pattern v)
   /\ clean (extract_attribute v))
  /\ (forall t, t = extract_parent_code v \/ t = extract_pattern v
                \/ t = extract_attribute v ->
        extract_parent_code (VStr t) = t
        /\ extract_pattern (VStr t) = Unclassified
        /\ extract_attribute (VStr t) = Unclassified).
Proof.
  assert (H : clean (extract_parent_code v) /\ clean (extract_pattern v)
              /\ clean (extract_attribute v)).
  { destruct v as [z|f|s]; try (repeat split; apply Unclassified_clean).
    rewrite extract_parent_code_eq, extract_pattern_eq,
      extract_attribute_eq.
    repeat split; apply nth_token_clean. }
  split; [exact H|]. destruct H as (H1 & H2 & H3).
  intros t Ht.
  assert (Hc : clean t) by (destruct Ht as [-> | [-> | ->]]; done).
  rewrite extract_parent_code_eq, extract_pattern_eq, extract_attribute_eq.
  by rewrite (split_clean t Hc).
Qed.

(** Only the first three tokens count, and the spacing does not: for
    three clean tokens separated by non-empty runs of whitespace, preceded
    by any run of whitespace and followed by anything that is empty or
    starts with whitespace, the three extracted values are the three
    tokens. *)
Theorem extraction_ignores_spacing (ws0 t1 ws1 t2 ws2 t3 rest : pystr) :
  Forall (fun c => Py.isspace c = true) ws0 ->
  Forall (fun c => Py.isspace c = true) ws1 -> ws1 <> [] ->
  Forall (fun c => Py.isspace c = true) ws2 -> ws2 <> [] ->
  clean t1 -> clean t2 -> clean t3 ->
  boundary rest ->
  let name := VStr (ws0 ++ t1 ++ ws1 ++ t2 ++ ws2 ++ t3 ++ rest) in
  extract_parent_code name = t1
  /\ extract_pattern name = t2
  /\ extract_attribute name = t3.
Proof.
  intros H0 H1 N1 H2 N2 [E1 S1] [E2 S2] [E3 S3] Hb name.
  assert (Hsplit : Py.split (ws0 ++ t1 ++ ws1 ++ t2 ++ ws2 ++ t3 ++ rest)
                   = t1 :: t2 :: t3 :: Py.split rest).
  { apply tokens_split.
    apply (tokens_cons ws0 t1); auto.
    { destruct ws1 as [|c ws1]; [done|]. simpl. by inversion H1. }
    apply (tokens_cons ws1 t2); auto.
    { destruct ws2 as [|c ws2]; [done|]. simpl. by inversion H2. }
    apply (tokens_cons ws2 t3); auto. apply split_tokens. }
  unfold name.
  rewrite extract_parent_code_eq, extract_pattern_eq, extract_attribute_eq.
  by rewrite Hsplit.
Qed.

Lemma extraction_ignores_spacing_witness :
  extract_parent_code (VStr (u "  SP-US 　模式A1	品类B extra words")) = u "SP-US"
  /\ extract_pattern (VStr (u "  SP-US 　模式A1	品类B extra words")) = u "模式A1"
  /\ extract_attribute (VStr (u "  SP-US 　模式A1	品类B extra words"))
     = u "品类B".
Proof.
  apply (extraction_ignores_spacing (u "  ") (u "SP-US") (u " 　")
           (u "模式A1") (u "	") (u "品类B") (u " extra words")).
  - vm_compute. repeat constructor.
  - vm_compute. repeat constructor.
  - by vm_compute.
  - vm_compute. repeat constructor.
  - by vm_compute.
  - split; [by vm_compute | vm_compute; repeat constructor].
  - split; [by vm_compute | vm_compute; repeat constructor].
  - split; [by vm_compute | vm_compute; repeat constructor].
  - by vm_compute.
Defined.

(* --------------------------------------------------------------------- *)
(** ** Validation *)
(* --------------------------------------------------------------------- *)

Section Validation.

Lemma pd_empty_run (σ : store) (df : ref) (d : DataFrame) :
  σ !! df = Some d -> pd_empty df σ = (Ok (df_empty d), σ).
Proof.
  intros H. unfold pd_empty, mbind, M_bind, load, mret, M_ret.
  by rewrite (deref_lookup _ _ _ H).
Qed.

Lemma validate_data_run (σ : store) (df : ref) (d : DataFrame) :
  σ !! df = Some d ->
  validate_data df σ
  = (Ok (let errors :=
           (if Py.mem (u "Campaign Name") (columns d) then []
            else [missing_name_error])
           ++ (if df_empty d then [empty_frame_error] else []) in
         ((length errors =? 0)%nat, errors)), σ).
Proof.
  intros H. unfold validate_data.
  rewrite (bind_ok _ _ _ _ _ (pd_columns_run _ _ _ H)).
  rewrite (bind_ok _ _ _ _ _ (pd_empty_run _ _ _ H)).
  unfold mret, M_ret. cbv zeta.
  by destruct (Py.mem (u "Campaign Name") (columns d)), (df_empty d).
Qed.

Lemma df_empty_false (d : DataFrame) :
  df_empty d = false <-> columns d <> [] /\ rows d <> [].
Proof.
  unfold df_empty. rewrite orb_false_iff, !Nat.eqb_neq.
  destruct (columns d), (rows d); simpl; split; intros [? ?]; try done;
    split; try done; lia.
Qed.

Lemma error_list_cases (a b : bool) (m e : pystr) :
  m <> e ->
  let errors := (if a then [] else [m]) ++ (if b then [e] else []) in
  ((length errors =? 0)%nat = true <-> a = true /\ b = false)
  /\ ((length errors =? 0)%nat = true <-> errors = [])
  /\ (m ∈ errors <-> a = false)
  /\ (e ∈ errors <-> b = true)
  /\ (a = false -> b = true -> errors = [m; e]).
Proof.
  intros Hne. destruct a, b; simpl;
    rewrite ?elem_of_cons, ?elem_of_nil; intuition congruence.
Qed.

End Validation.

(** What acceptance by [validate_data] requires. *)
Lemma validate_data_acceptance (σ : store) (df : ref) (d : DataFrame) :
  σ !! df = Some d ->
  exists ok errors,
    validate_data df σ = (Ok (ok, errors), σ)
    /\ (ok = true -> u "Campaign Name" ∈ columns d)
    /\ ((u "Campaign Name" ∉ columns d) -> missing_name_error ∈ errors).
Proof.
  intros Hdf. rewrite (validate_data_run _ _ _ Hdf). cbv zeta.
  eexists _, _. split; [reflexivity|].
  assert (Hne : missing_name_error <> empty_frame_error) by (by vm_compute).
  pose proof (error_list_cases (Py.mem (u "Campaign Name") (columns d))
                (df_empty d) _ _ Hne) as (C1 & _ & C3 & _).
  cbv zeta in *. split.
  - rewrite C1, mem_elem_of. by intros [? _].
  - intros Hno. apply C3. by apply mem_not_elem_of.
Qed.

(** [validate_data] never raises and leaves the store as it is.  It
    accepts a table exactly when the table has a column called Campaign
    Name and at least one row; the list of errors is empty exactly when
    the table is accepted; and the checks accumulate: a table that fails
    both gets both messages, the missing column first. *)
Theorem validate_data_spec (σ : store) (df : ref) (d : DataFrame) :
  σ !! df = Some d ->
  exists ok errors,
    validate_data df σ = (Ok (ok, errors), σ)
    /\ (ok = true <-> u "Campaign Name" ∈ columns d /\ rows d <> [])
    /\ (ok = true <-> errors = [])
    /\ (missing_name_error ∈ errors <-> u "Campaign Name" ∉ columns d)
    /\ (empty_frame_error ∈ errors <-> columns d = [] \/ rows d = [])
    /\ ((u "Campaign Name" ∉ columns d) -> rows d = [] ->
        errors = [missing_name_error; empty_frame_error]).
Proof.
  intros Hdf. rewrite (validate_data_run _ _ _ Hdf). cbv zeta.
  eexists _, _. split; [reflexivity|].
  assert (Hne : missing_name_error <> empty_frame_error) by (by vm_compute).
  pose proof (error_list_cases (Py.mem (u "Campaign Name") (columns d))
                (df_empty d) _ _ Hne) as (C1 & C2 & C3 & C4 & C5).
  cbv zeta in *.
  assert (Ha : Py.mem (u "Campaign Name") (columns d) = false
               <-> u "Campaign Name" ∉ columns d) by apply mem_not_elem_of.
  assert (Hb : df_empty d = true <-> columns d = [] \/ rows d = []).
  { destruct (df_empty d) eqn:E.
    - split; [intros _ | done].
      destruct (columns d) eqn:Ec; [by left|].
      destruct (rows d) eqn:Er; [by right|].
      unfold df_empty in E. by rewrite Ec, Er in E.
    - apply df_empty_false in E as [? ?]. split; [done|]. by intros [?|?]. }
  split; [|split; [done|split; [|split]]].
  - rewrite C1, df_empty_false, mem_elem_of. split.
    + intros (? & _ & ?). done.
    + intros [Hin Hr]. split; [done|]. split; [|done].
      intros H0. rewrite H0 in Hin. by apply elem_of_nil in Hin.
  - by rewrite C3.
  - by rewrite C4.
  - intros H1 H2. apply C5; [by apply Ha | apply Hb; by right].
Qed.

Lemma validate_data_spec_witness :
  exists ok errors,
    validate_data 0%nat [example6] = (Ok (ok, errors), [example6])
    /\ (missing_name_error ∈ errors <-> u "Campaign Name" ∉ columns example6).
Proof.
  destruct (validate_data_spec [example6] 0%nat example6 eq_refl)
    as (ok & errors & H1 & _ & _ & H2 & _).
  by exists ok, errors.
Defined.

(* --------------------------------------------------------------------- *)
(** ** The extracted table *)
(* --------------------------------------------------------------------- *)

Section ExtractedTable.

(** Assigning to a column the values it already has changes nothing. *)
Lemma set_column_same (d : DataFrame) (c : pystr) (col : list cell) :
  well_formed d -> get_column d c = Ok col -> set_column d c col = d.
Proof.
  unfold well_formed, get_column, lookup_index, set_column, column_at.
  intros Hwf. destruct (index_of c (columns d)) as [i|] eqn:E; [|done].
  simpl. intros [= <-]. destruct d as [cols rs]. simpl in *. f_equal.
  rewrite (zip_with_same (fun r v => <[i := v]> r) (cell_at i)).
  rewrite <- (map_id rs) at 2. apply map_ext_in. intros r Hr.
  apply list_elem_of_In in Hr. rewrite Forall_forall in Hwf.
  apply list_insert_id. unfold cell_at.
  pose proof (index_of_lt _ _ _ E) as Hlt. rewrite <- (Hwf r Hr) in Hlt.
  destruct (lookup_lt_is_Some_2 r i Hlt) as [x Hx].
  by rewrite (nth_lookup_Some _ _ _ _ Hx).
Qed.

Lemma add_dimension_columns (d d' : DataFrame) (cc name : pystr)
    (f : cell -> pystr) :
  add_dimension d cc name f = Ok d' ->
  name ∈ columns d'
  /\ forall c, c ∈ columns d' -> c ∈ columns d \/ c = name.
Proof.
  unfold add_dimension. intros H.
  apply bind_Ok_inv in H as (s & _ & H). injection H as <-.
  rewrite set_column_columns.
  destruct (Py.mem name (columns d)) eqn:E.
  - apply mem_elem_of in E. split; [done|]. by left.
  - split; [apply elem_of_app; right; by left|].
    intros c Hc. apply elem_of_app in Hc as [?|Hc]; [by left|].
    right. by apply list_elem_of_singleton in Hc.
Qed.

(** What extraction computes, whatever the labels already present. *)
Lemma extract_all_dimensions_frame_full (d : DataFrame) (cc : pystr) :
  well_formed d ->
  campaign_column (columns d) = Ok cc ->
  exists out,
    extract_all_dimensions_frame d = Ok out
    /\ well_formed out
    /\ length (rows out) = length (rows d)
    /\ campaign_column (columns out) = Ok cc
    /\ get_column out cc = Ok (column d cc)
    /\ get_column out (u "Parent Code")
       = Ok (map (fun x => VStr (extract_parent_code x)) (column d cc))
    /\ get_column out (u "Pattern")
       = Ok (map (fun x => VStr (extract_pattern x)) (column d cc))
    /\ get_column out (u "Attribute")
       = Ok (map (fun x => VStr (extract_attribute x)) (column d cc))
    /\ (forall c, c ∈ columns d -> c ∉ valid_dims ->
          get_column out c = get_column d c)
    /\ (forall c, c ∈ columns out -> c ∈ columns d \/ c ∈ valid_dims).
Proof.
  intros Hwf Hcc.
  assert (Hin : cc ∈ columns d /\ cc <> u "Parent Code"
                /\ cc <> u "Pattern" /\ cc <> u "Attribute"
                /\ (cc = u "Campaign Name"
                    \/ (cc = u "广告活动"
                        /\ u "Campaign Name" ∉ columns d))).
  { destruct (campaign_column_cases (columns d))
      as [[H E]|[(N & H & E)|(_ & _ & E)]];
      rewrite E in Hcc; try done; injection Hcc as <-;
      (split; [done | repeat split; try (by vm_compute)]); auto. }
  destruct Hin as (Hin & N1 & N2 & N3 & Hwhich).
  unfold extract_all_dimensions_frame. rewrite Hcc. simpl.
  destruct (add_dimension_spec d cc (u "Parent Code") extract_parent_code
              Hwf Hin) as (d1 & E1 & Hwf1 & L1 & G1 & K1).
  rewrite E1. simpl.
  destruct (K1 cc N1 Hin) as [Hin1 C1].
  destruct (add_dimension_spec d1 cc (u "Pattern") extract_pattern
              Hwf1 Hin1) as (d2 & E2 & Hwf2 & L2 & G2 & K2).
  rewrite E2. simpl.
  destruct (K2 cc N2 Hin1) as [Hin2 C2].
  destruct (add_dimension_spec d2 cc (u "Attribute") extract_attribute
              Hwf2 Hin2) as (d3 & E3 & Hwf3 & L3 & G3 & K3).
  destruct (K3 cc N3 Hin2) as [Hin3 C3].
  destruct (add_dimension_columns _ _ _ _ _ E1) as [P1 Q1].
  destruct (add_dimension_columns _ _ _ _ _ E2) as [P2 Q2].
  destruct (add_dimension_columns _ _ _ _ _ E3) as [P3 Q3].
  destruct (K2 (u "Parent Code")) as [P12 R2]; [by vm_compute | done |].
  destruct (K3 (u "Parent Code")) as [_ R3]; [by vm_compute | done |].
  destruct (K3 (u "Pattern")) as [_ R3']; [by vm_compute | done |].
  assert (D1 : column d1 cc = column d cc) by (unfold column; by rewrite C1).
  assert (D2 : column d2 cc = column d cc)
    by (unfold column; by rewrite C2, C1).
  assert (Hcols : forall c, c ∈ columns d3 -> c ∈ columns d \/ c ∈ valid_dims).
  { intros c Hc. unfold valid_dims. rewrite !elem_of_cons.
    destruct (Q3 c Hc) as [Hc2| ->]; [|tauto].
    destruct (Q2 c Hc2) as [Hc1| ->]; [|tauto].
    destruct (Q1 c Hc1) as [Hc0| ->]; tauto. }
  exists d3. split; [done|]. split; [done|]. split; [congruence|].
  split; [|split; [|split; [|split; [|split; [|split]]]]].
  - destruct Hwhich as [-> | [-> Hno]].
    + unfold campaign_column.
      apply mem_elem_of in Hin3. by rewrite Hin3.
    + unfold campaign_column.
      assert (Hno3 : u "Campaign Name" ∉ columns d3).
      { intros Hc. destruct (Hcols _ Hc) as [?|Hv]; [done|].
        unfold valid_dims in Hv. rewrite !elem_of_cons, elem_of_nil in Hv.
        destruct Hv as [Hv|[Hv|[Hv|[]]]]; vm_compute in Hv; discriminate. }
      apply mem_not_elem_of in Hno3. rewrite Hno3.
      apply mem_elem_of in Hin3. by rewrite Hin3.
  - rewrite C3, C2, C1. by apply get_column_Some.
  - by rewrite R3, R2, G1.
  - by rewrite R3', G2, D1.
  - by rewrite G3, D2.
  - intros c Hc Hv. unfold valid_dims in Hv.
    rewrite !not_elem_of_cons in Hv. destruct Hv as (V1 & V2 & V3 & _).
    destruct (K1 c V1 Hc) as [I1 T1]. destruct (K2 c V2 I1) as [I2 T2].
    destruct (K3 c V3 I2) as [I3 T3]. congruence.
  - exact Hcols.
Qed.

Lemma get_column_string_column (d : DataFrame) (c : pystr)
    (f : cell -> pystr) (l : list cell) :
  get_column d c = Ok (map (fun x => VStr (f x)) l) -> string_column d c.
Proof.
  unfold get_column, lookup_index, string_column.
  destruct (index_of c (columns d)) as [i|]; [|done]. simpl.
  intros [= H]. exists i. split; [done|].
  assert (Hall : Forall (fun x => is_str x = true) (column_at i d)).
  { rewrite H. apply Forall_map, Forall_forall. by intros. }
  unfold column_at in Hall. by apply Forall_map in Hall.
Qed.

(** Extraction is idempotent on the contents of a frame. *)
Lemma extract_all_dimensions_frame_idem (d out : DataFrame) :
  well_formed d ->
  extract_all_dimensions_frame d = Ok out ->
  extract_all_dimensions_frame out = Ok out.
Proof.
  intros Hwf H.
  destruct (campaign_column (columns d)) as [cc|e] eqn:Hcc.
  2:{ unfold extract_all_dimensions_frame in H. by rewrite Hcc in H. }
  destruct (extract_all_dimensions_frame_full d cc Hwf Hcc)
    as (o & Ho & Hwfo & _ & Hcco & Gcc & G1 & G2 & G3 & _).
  rewrite H in Ho. injection Ho as <-.
  unfold extract_all_dimensions_frame. rewrite Hcco. simpl.
  unfold add_dimension. rewrite Gcc. simpl.
  rewrite (set_column_same out _ _ Hwfo G1). simpl. rewrite Gcc. simpl.
  rewrite (set_column_same out _ _ Hwfo G2). simpl. rewrite Gcc. simpl.
  by rewrite (set_column_same out _ _ Hwfo G3).
Qed.

End ExtractedTable.

(** The table [extract_all_dimensions] returns is well formed, has as
    many rows as the input, holds strings in its three dimension columns,
    and agrees with the input on every other column, whether or not the
    input already had columns with the dimension labels. *)
Theorem extracted_table_shape (σ : store) (df : ref) (d out : DataFrame) :
  σ !! df = Some d ->
  well_formed d ->
  returned (extract_all_dimensions df σ) = Some out ->
  well_formed out
  /\ length (rows out) = length (rows d)
  /\ (forall dim, dim ∈ valid_dims -> string_column out dim)
  /\ (forall c, c ∈ columns d -> c ∉ valid_dims -> column out c = column d c)
  /\ (forall c, c ∈ columns out -> c ∈ columns d \/ c ∈ valid_dims).
Proof.
  intros Hdf Hwf Hret.
  destruct (extract_all_dimensions_run σ df d Hdf) as (d' & Hrun & Hd').
  rewrite Hrun in Hret. unfold returned in Hret.
  destruct (extract_all_dimensions_frame d) as [o|e] eqn:E; [|done].
  specialize (Hd' o eq_refl). subst d'. rewrite lookup_new in Hret.
  injection Hret as ->.
  destruct (campaign_column (columns d)) as [cc|e] eqn:Hcc.
  2:{ unfold extract_all_dimensions_frame in E. by rewrite Hcc in E. }
  destruct (extract_all_dimensions_frame_full d cc Hwf Hcc)
    as (o & Ho & Hwfo & Hlen & _ & _ & G1 & G2 & G3 & Hother & Hcols).
  rewrite E in Ho. injection Ho as <-.
  split; [done|]. split; [done|]. split; [|split; [|done]].
  - intros dim Hdim. unfold valid_dims in Hdim.
    rewrite !elem_of_cons, elem_of_nil in Hdim.
    destruct Hdim as [->|[->|[->|[]]]];
      eapply get_column_string_column; eassumption.
  - intros c Hc Hv. unfold column. by rewrite (Hother c Hc Hv).
Qed.

Lemma extracted_table_shape_witness :
  string_column
    {| columns := [u "Campaign Name"; u "Pattern"; u "Parent Code";
                   u "Attribute"];
       rows := [[VStr (u "SP-US 模式A1"); VStr (u "模式A1");
                 VStr (u "SP-US"); VStr Unclassified]] |}
    (u "Pattern").
Proof.
  destruct (extracted_table_shape [example9] 0%nat example9
              {| columns := [u "Campaign Name"; u "Pattern"; u "Parent Code";
                             u "Attribute"];
                 rows := [[VStr (u "SP-US 模式A1"); VStr (u "模式A1");
                           VStr (u "SP-US"); VStr Unclassified]] |})
    as (_ & _ & H & _).
  - reflexivity.
  - repeat constructor.
  - vm_compute. reflexivity.
  - apply H. apply mem_elem_of. vm_compute. reflexivity.
Defined.

(** Running [extract_all_dimensions] on a frame it returned gives a new
    frame with the same contents: the three columns are overwritten with
    the values they already hold. *)
Theorem extract_all_dimensions_idempotent (σ : store) (df r : ref)
    (d : DataFrame) (σ1 : store) :
  σ !! df = Some d ->
  well_formed d ->
  extract_all_dimensions df σ = (Ok r, σ1) ->
  exists out,
    σ1 !! r = Some out
    /\ extract_all_dimensions r σ1 = (Ok (length σ1), σ1 ++ [out]).
Proof.
  intros Hdf Hwf Hrun1.
  destruct (extract_all_dimensions_run σ df d Hdf) as (d' & Hrun & Hd').
  rewrite Hrun in Hrun1.
  destruct (extract_all_dimensions_frame d) as [o|e] eqn:E; [|done].
  specialize (Hd' o eq_refl). subst d'. injection Hrun1 as <- <-.
  exists o. split; [apply lookup_new|].
  destruct (extract_all_dimensions_run (σ ++ [o]) (length σ) o
              (lookup_new σ o)) as (d2 & Hrun2 & Hd2).
  rewrite (extract_all_dimensions_frame_idem d o Hwf E) in Hrun2, Hd2.
  by rewrite (Hd2 o eq_refl) in Hrun2.
Qed.

Lemma extract_all_dimensions_idempotent_witness :
  exists out,
    extract_all_dimensions 1%nat
      (extract_all_dimensions 0%nat [example9_raw]).2
    = (Ok 2%nat, (extract_all_dimensions 0%nat [example9_raw]).2 ++ [out])
    /\ (extract_all_dimensions 0%nat [example9_raw]).2 !! 1%nat = Some out.
Proof.
  destruct (extract_all_dimensions_idempotent [example9_raw] 0%nat 1%nat
              example9_raw (extract_all_dimensions 0%nat [example9_raw]).2)
    as (out & H1 & H2).
  - reflexivity.
  - repeat constructor.
  - vm_compute. reflexivity.
  - exists out. split; [|exact H1].
    rewrite H2. repeat f_equal.
Defined.

(** Validation is narrower than extraction.  A well-formed table that
    [validate_data] accepts is always extracted without error; but a
    table whose campaign-name column carries the Chinese label only is
    rejected by [validate_data], with the missing-column message, although
    [extract_all_dimensions] extracts it. *)
Theorem validation_and_extraction (σ : store) (df : ref) (d : DataFrame) :
  σ !! df = Some d ->
  well_formed d ->
  (forall errors, validate_data df σ = (Ok (true, errors), σ) ->
     exists out, returned (extract_all_dimensions df σ) = Some out)
  /\ ((u "广告活动" ∈ columns d) -> (u "Campaign Name" ∉ columns d) ->
      (exists errors, validate_data df σ = (Ok (false, errors), σ)
                      /\ missing_name_error ∈ errors)
      /\ exists out, returned (extract_all_dimensions df σ) = Some out).
Proof.
  intros Hdf Hwf.
  destruct (validate_data_acceptance σ df d Hdf)
    as (ok & errors & Hv & Hok & Hmiss).
  destruct (extract_all_dimensions_run σ df d Hdf) as (d' & Hrun & Hd').
  assert (Hex : forall cc, campaign_column (columns d) = Ok cc ->
                  exists out, returned (extract_all_dimensions df σ) = Some out).
  { intros cc Hcc.
    destruct (extract_all_dimensions_frame_full d cc Hwf Hcc)
      as (o & Ho & _).
    rewrite Hrun, Ho. rewrite (Hd' o Ho). exists o. apply lookup_new. }
  split.
  - intros errs Hv'. rewrite Hv in Hv'. injection Hv' as -> ->.
    pose proof (Hok eq_refl) as Hin.
    apply (Hex (u "Campaign Name")).
    unfold campaign_column. apply mem_elem_of in Hin. by rewrite Hin.
  - intros Hzh Hno. split.
    + exists errors. split; [|by apply Hmiss].
      destruct ok; [|done]. pose proof (Hok eq_refl) as Hin. done.
    + apply (Hex (u "广告活动")). unfold campaign_column.
      apply mem_not_elem_of in Hno. apply mem_elem_of in Hzh.
      by rewrite Hno, Hzh.
Qed.

Lemma validation_and_extraction_witness :
  (exists errors, validate_data 0%nat [example9_raw]
                  = (Ok (false, errors), [example9_raw])
                  /\ missing_name_error ∈ errors)
  /\ exists out,
       returned (extract_all_dimensions 0%nat [example9_raw]) = Some out.
Proof.
  apply (validation_and_extraction [example9_raw] 0%nat example9_raw).
  - reflexivity.
  - repeat constructor.
  - cbn [columns example9_raw]. by left.
  - cbn [columns example9_raw]. rewrite !not_elem_of_cons.
    repeat split; try (by vm_compute). apply not_elem_of_nil.
Defined.

(* --------------------------------------------------------------------- *)
(** ** The groups of a summary *)
(* --------------------------------------------------------------------- *)

Section Groups.

(** After grouping on a string-valued dimension the key column lists the
    distinct keys. *)
Lemma groupby_key_column (d : DataFrame) (dim : pystr) (cols : list pystr)
    (i : nat) (g : DataFrame) :
  index_of dim (columns d) = Some i ->
  Forall (fun r => is_str (cell_at i r) = true) (rows d) ->
  groupby_sum d [dim] cols = Ok g ->
  well_formed g
  /\ get_column g dim
     = Ok (map first_cell (unique_keys (map (key_at [i]) (rows d)))).
Proof.
  intros Hi Hstr Hg.
  apply groupby_sum_inv in Hg as (kidx & vidx & Hk & Hv & Hcols & Hrows).
  assert (kidx = [i]) as ->.
  { simpl in Hk. unfold lookup_index in Hk. rewrite Hi in Hk. simpl in Hk.
    by injection Hk as <-. }
  destruct (string_keys i (rows d) Hstr) as [Hsk Hnn].
  cbv zeta in Hrows. rewrite (filter_all _ _ Hnn) in Hrows.
  destruct (unique_keys_spec _ Hsk) as (Huk & _ & _).
  pose proof (mapM_Ok_Forall2 _ _ _ Hrows) as Hall.
  apply mapM_Ok_length in Hv.
  split.
  - unfold well_formed. rewrite Hcols. simpl.
    eapply Forall2_Forall_right; [exact Hall|]. simpl.
    intros k row Hk' Hrow. unfold group_row in Hrow.
    apply bind_Ok_inv in Hrow as (sums & Hsums & Hrow). injection Hrow as <-.
    apply mapM_Ok_length in Hsums. rewrite length_map in Hsums.
    rewrite Forall_forall in Huk. destruct (Huk k Hk') as [s ->].
    rewrite length_app. simpl. lia.
  - unfold get_column, lookup_index. rewrite Hcols. cbn [app].
    rewrite index_of_head. simpl. f_equal. unfold column_at.
    eapply Forall2_map_eq; [exact Hall|]. simpl.
    intros k row Hk' Hrow. unfold group_row in Hrow.
    apply bind_Ok_inv in Hrow as (sums & Hsums & Hrow). injection Hrow as <-.
    rewrite Forall_forall in Huk. by destruct (Huk k Hk') as [s ->].
Qed.

Lemma key_at_singleton (i : nat) (rs : list (list cell)) :
  map (key_at [i]) rs = map (fun c => [c]) (map (cell_at i) rs).
Proof. rewrite map_map. by apply map_ext. Qed.

Lemma insert_key_length (k : list cell) (ks : list (list cell)) :
  (1 <= length (insert_key k ks) <= S (length ks))%nat.
Proof.
  induction ks as [|k' ks IH]; simpl; [lia|].
  destruct (key_compare k k'); simpl; lia.
Qed.

Lemma unique_keys_length (ks : list (list cell)) :
  (length (unique_keys ks) <= length ks)%nat
  /\ (ks <> [] -> 1 <= length (unique_keys ks))%nat.
Proof.
  induction ks as [|k ks [IH _]]; simpl; [split; [lia | done]|].
  pose proof (insert_key_length k (unique_keys ks)). split; [lia|].
  intros _. lia.
Qed.

Lemma nunique_strings (cells : list cell) :
  Forall (fun c => is_str c = true) cells ->
  nunique cells = length (unique_keys (map (fun c => [c]) cells)).
Proof.
  intros H. unfold nunique. rewrite filter_all; [done|].
  eapply Forall_impl; [exact H|]. intros c Hc. by destruct c.
Qed.

(** The key column of the summary of a string-valued dimension. *)
Lemma aggregate_single_frame_keys (d : DataFrame) (dimension : pystr)
    (i : nat) (out : DataFrame) :
  index_of dimension (columns d) = Some i ->
  Forall (fun r => is_str (cell_at i r) = true) (rows d) ->
  aggregate_single_frame d dimension = Ok out ->
  exists col,
    get_column out dimension = Ok col
    /\ Permutation col
         (map first_cell (unique_keys (map (key_at [i]) (rows d)))).
Proof.
  intros Hi Hstr E.
  apply aggregate_single_frame_inv in E
    as (Hdim & g0 & g1 & g2 & H0 & H1 & H2 & H3).
  destruct (groupby_key_column _ _ _ _ _ Hi Hstr H0) as [W0 G0].
  assert (I0 : dimension ∈ columns g0).
  { rewrite (groupby_sum_columns _ _ _ _ H0). by left. }
  assert (Hm : dimension ∉ metric_names).
  { unfold valid_dims in Hdim. rewrite !elem_of_cons, elem_of_nil in Hdim.
    unfold metric_names. rewrite !not_elem_of_cons.
    destruct Hdim as [->|[->|[->|[]]]];
      repeat split; try (by vm_compute); apply not_elem_of_nil. }
  destruct (derive_all_spec _ _ _ W0 H1) as [W1 K1].
  destruct (K1 dimension Hm I0) as [I1 G1].
  assert (G2 : get_column g2 dimension = get_column g1 dimension).
  { apply (select_get_column _ _ _ _ H2). by left. }
  rewrite G1, G0 in G2.
  destruct (sort_values_get_column _ _ _ _ _ H3 G2) as (col & Gout & Hperm).
  by exists col.
Qed.

End Groups.

(** The number of rows of a summary. *)
Lemma summary_row_count (σ : store) (df : ref)
    (d : DataFrame) (dimension : pystr) (out : DataFrame) :
  σ !! df = Some d ->
  string_column d dimension ->
  returned (aggregate_single df dimension σ) = Some out ->
  length (rows out) = nunique (column d dimension).
Proof.
  intros Hdf (i & Hi & Hstr) Hret.
  destruct (aggregate_single_run σ df d dimension Hdf)
    as (r & ext & Hrun & Hout).
  rewrite Hrun in Hret. unfold returned in Hret.
  destruct (aggregate_single_frame d dimension) as [o|e] eqn:E; [|done].
  rewrite (Hout o eq_refl) in Hret. injection Hret as ->.
  destruct (aggregate_single_frame_keys d dimension i out Hi Hstr E)
    as (col & Gout & Hperm).
  assert (Hd : column d dimension = map (cell_at i) (rows d)).
  { unfold column, get_column, lookup_index. by rewrite Hi. }
  rewrite Hd. apply get_column_length in Gout. rewrite <- Gout.
  rewrite (Permutation_length Hperm), length_map.
  rewrite nunique_strings by (by apply Forall_map).
  by rewrite key_at_singleton.
Qed.

(** The groups of a summary are the distinct values of the dimension:
    for a table whose dimension column holds strings, the dimension
    column of the summary returned by [aggregate_single] has no repeated
    value, holds exactly the values that occur in the dimension column of
    the input, and the summary has as many rows as the input has distinct
    values in that column. *)
Theorem summary_keys_are_distinct_values (σ : store) (df : ref)
    (d : DataFrame) (dimension : pystr) (out : DataFrame) :
  σ !! df = Some d ->
  string_column d dimension ->
  returned (aggregate_single df dimension σ) = Some out ->
  NoDup (column out dimension)
  /\ (forall v, v ∈ column out dimension <-> v ∈ column d dimension)
  /\ length (rows out) = nunique (column d dimension).
Proof.
  intros Hdf (i & Hi & Hstr) Hret.
  destruct (aggregate_single_run σ df d dimension Hdf)
    as (r & ext & Hrun & Hout).
  rewrite Hrun in Hret. unfold returned in Hret.
  destruct (aggregate_single_frame d dimension) as [o|e] eqn:E; [|done].
  rewrite (Hout o eq_refl) in Hret. injection Hret as ->.
  destruct (aggregate_single_frame_keys d dimension i out Hi Hstr E)
    as (col & Gout & Hperm).
  destruct (string_keys i (rows d) Hstr) as [Hsk _].
  destruct (unique_keys_spec _ Hsk) as (Huk & Hsorted & Hmem).
  pose proof (sorted_keys_NoDup _ Huk Hsorted) as Hnd.
  assert (Hd : column d dimension = map (cell_at i) (rows d)).
  { unfold column, get_column, lookup_index. by rewrite Hi. }
  rewrite (column_get _ _ _ Gout), Hd.
  set (keys := unique_keys (map (key_at [i]) (rows d))) in *.
  assert (Hfirst : forall k, k ∈ keys -> k = [first_cell k]).
  { intros k Hk. rewrite Forall_forall in Huk.
    by destruct (Huk k Hk) as [s ->]. }
  split; [|split].
  - rewrite Hperm. rewrite map_fmap. apply NoDup_fmap_2_strong; [|done].
    intros k k' Hk Hk' Heq.
    rewrite (Hfirst k Hk), (Hfirst k' Hk'). by rewrite Heq.
  - intros v. rewrite Hperm, !map_fmap, !list_elem_of_fmap. split.
    + intros (k & -> & Hk). pose proof (Hfirst k Hk) as Hk1.
      apply Hmem in Hk. rewrite map_fmap in Hk.
      apply list_elem_of_fmap in Hk as (r0 & Hr0 & Hin).
      exists r0. split; [|done]. rewrite Hk1 in Hr0.
      unfold key_at in Hr0. simpl in Hr0. by injection Hr0.
    + intros (r0 & -> & Hin). exists [cell_at i r0]. split; [done|].
      apply Hmem. rewrite map_fmap. apply list_elem_of_fmap.
      by exists r0.
  - apply get_column_length in Gout. rewrite <- Gout.
    rewrite (Permutation_length Hperm), length_map.
    rewrite nunique_strings by (by apply Forall_map).
    unfold keys. by rewrite key_at_singleton.
Qed.

Lemma summary_keys_are_distinct_values_witness :
  NoDup [VStr (u "SP-UK"); VStr (u "SP-US")]
  /\ 2%nat = nunique (column example8 (u "Parent Code")).
Proof.
  destruct (summary_keys_are_distinct_values [example8] 0%nat example8
              (u "Parent Code")
              {| columns := [u "Parent Code"; u "Impressions"; u "Clicks";
                             u "CTR"];
                 rows := [[VStr (u "SP-UK"); VInt 50; VInt 1;
                           VStr (u "2.00%")];
                          [VStr (u "SP-US"); VInt 400; VInt 20;
                           VStr (u "5.00%")]] |}) as (H1 & _ & H3).
  - reflexivity.
  - exists 1%nat. split; [by vm_compute | repeat constructor].
  - vm_compute. reflexivity.
  - split; [exact H1 | exact H3].
Defined.

(* --------------------------------------------------------------------- *)
(** ** The dimension summary *)
(* --------------------------------------------------------------------- *)

Section Summary.

Lemma get_dimension_summary_run (σ : store) (df : ref) (d : DataFrame) :
  σ !! df = Some d ->
  get_dimension_summary df σ
  = (a ← get_column d (u "Parent Code");
     b ← get_column d (u "Pattern");
     c ← get_column d (u "Attribute");
     Ok {| parent_code_count := nunique a;
           pattern_count := nunique b;
           attribute_count := nunique c |}, σ).
Proof.
  intros H. unfold get_dimension_summary.
  unfold mbind at 1, M_bind. rewrite (pd_getitem_run _ _ _ _ H).
  destruct (get_column d (u "Parent Code")) as [a|e]; simpl; [|done].
  unfold mbind at 1, M_bind. rewrite (pd_getitem_run _ _ _ _ H).
  destruct (get_column d (u "Pattern")) as [b|e]; simpl; [|done].
  unfold mbind at 1, M_bind. rewrite (pd_getitem_run _ _ _ _ H).
  by destruct (get_column d (u "Attribute")) as [c|e].
Qed.

Lemma get_column_missing (d : DataFrame) (c : pystr) :
  c ∉ columns d -> get_column d c = Raise (KeyError c).
Proof.
  intros H. apply index_of_None in H.
  unfold get_column, lookup_index. by rewrite H.
Qed.

Lemma nunique_bounds (d : DataFrame) (c : pystr) :
  string_column d c ->
  (nunique (column d c) <= length (rows d))%nat
  /\ (rows d <> [] -> 1 <= nunique (column d c))%nat.
Proof.
  intros (i & Hi & Hstr).
  assert (Hd : column d c = map (cell_at i) (rows d)).
  { unfold column, get_column, lookup_index. by rewrite Hi. }
  rewrite Hd, nunique_strings by (by apply Forall_map).
  destruct (unique_keys_length
              (map (fun x => [x]) (map (cell_at i) (rows d)))) as [H1 H2].
  rewrite !length_map in H1. split; [done|].
  intros Hne. apply H2. by destruct (rows d).
Qed.

Lemma string_column_get (d : DataFrame) (c : pystr) :
  string_column d c -> get_column d c = Ok (column d c).
Proof.
  intros (i & Hi & _). apply get_column_Some.
  by eapply list_elem_of_lookup_2, index_of_lookup.
Qed.

End Summary.

(** On a table whose three dimension columns hold strings (an extracted
    table), [get_dimension_summary] returns, without changing the store,
    three counts that are at most the number of rows and at least 1 when
    there is a row, and each count is the number of rows of the summary
    that [aggregate_single] returns for that dimension. *)
Theorem dimension_summary_counts_groups (σ : store) (df : ref)
    (d : DataFrame) :
  σ !! df = Some d ->
  (forall dim, dim ∈ valid_dims -> string_column d dim) ->
  exists s,
    get_dimension_summary df σ = (Ok s, σ)
    /\ (parent_code_count s <= length (rows d)
        /\ pattern_count s <= length (rows d)
        /\ attribute_count s <= length (rows d))%nat
    /\ (rows d <> [] ->
        1 <= parent_code_count s /\ 1 <= pattern_count s
        /\ 1 <= attribute_count s)%nat
    /\ (forall out,
          returned (aggregate_single df (u "Parent Code") σ) = Some out ->
          length (rows out) = parent_code_count s)
    /\ (forall out,
          returned (aggregate_single df (u "Pattern") σ) = Some out ->
          length (rows out) = pattern_count s)
    /\ (forall out,
          returned (aggregate_single df (u "Attribute") σ) = Some out ->
          length (rows out) = attribute_count s).
Proof.
  intros Hdf Hstr.
  assert (S1 : string_column d (u "Parent Code"))
    by (apply Hstr, mem_elem_of; by vm_compute).
  assert (S2 : string_column d (u "Pattern"))
    by (apply Hstr, mem_elem_of; by vm_compute).
  assert (S3 : string_column d (u "Attribute"))
    by (apply Hstr, mem_elem_of; by vm_compute).
  rewrite (get_dimension_summary_run _ _ _ Hdf).
  rewrite (string_column_get _ _ S1), (string_column_get _ _ S2),
    (string_column_get _ _ S3). simpl.
  eexists. split; [reflexivity|]. simpl.
  destruct (nunique_bounds _ _ S1) as [B1 P1].
  destruct (nunique_bounds _ _ S2) as [B2 P2].
  destruct (nunique_bounds _ _ S3) as [B3 P3].
  split; [done|]. split; [by auto|].
  split; [|split]; intros out Hout;
    by eapply summary_row_count.
Qed.

Lemma dimension_summary_counts_groups_witness :
  get_dimension_summary 0%nat [example8]
  = (Ok {| parent_code_count := 2; pattern_count := 2;
           attribute_count := 3 |}, [example8]).
Proof.
  destruct (dimension_summary_counts_groups [example8] 0%nat example8)
    as (s & Hs & _).
  - reflexivity.
  - intros dim Hdim. unfold valid_dims in Hdim.
    rewrite !elem_of_cons, elem_of_nil in Hdim.
    destruct Hdim as [->|[->|[->|[]]]].
    + exists 1%nat. split; [by vm_compute | repeat constructor].
    + exists 2%nat. split; [by vm_compute | repeat constructor].
    + exists 3%nat. split; [by vm_compute | repeat constructor].
  - rewrite Hs. vm_compute in Hs. injection Hs as <-. reflexivity.
Defined.

(** On a table that lacks one of the three dimension columns (a table
    that was not extracted), [get_dimension_summary] raises [KeyError]
    for the first missing label in the order Parent Code, Pattern,
    Attribute, and leaves the store as it is. *)
Theorem dimension_summary_missing_column (σ : store) (df : ref)
    (d : DataFrame) :
  σ !! df = Some d ->
  ((u "Parent Code" ∉ columns d) ->
     get_dimension_summary df σ = (Raise (KeyError (u "Parent Code")), σ))
  /\ ((u "Parent Code" ∈ columns d) -> (u "Pattern" ∉ columns d) ->
      get_dimension_summary df σ = (Raise (KeyError (u "Pattern")), σ))
  /\ ((u "Parent Code" ∈ columns d) -> (u "Pattern" ∈ columns d) ->
      (u "Attribute" ∉ columns d) ->
      get_dimension_summary df σ = (Raise (KeyError (u "Attribute")), σ)).
Proof.
  intros Hdf. rewrite (get_dimension_summary_run _ _ _ Hdf).
  split; [|split].
  - intros H. by rewrite (get_column_missing _ _ H).
  - intros H1 H2.
    by rewrite (get_column_Some _ _ H1), (get_column_missing _ _ H2).
  - intros H1 H2 H3.
    by rewrite (get_column_Some _ _ H1), (get_column_Some _ _ H2),
      (get_column_missing _ _ H3).
Qed.

Lemma dimension_summary_missing_column_witness :
  get_dimension_summary 0%nat [example9]
  = (Raise (KeyError (u "Parent Code")), [example9]).
Proof.
  apply (dimension_summary_missing_column [example9] 0%nat example9 eq_refl).
  cbn [columns example9]. rewrite !not_elem_of_cons.
  repeat split; try (by vm_compute). apply not_elem_of_nil.
Defined.

(* --------------------------------------------------------------------- *)
(** ** Edge cases of the aggregators *)
(* --------------------------------------------------------------------- *)

Section AggregateEdges.

Lemma mapM_lookup_index_ok (d : DataFrame) (cols : list pystr) :
  Forall (fun c => c ∈ columns d) cols ->
  exists idx, mapM (lookup_index d) cols = Ok idx.
Proof.
  induction 1 as [|c cols Hc _ [idx IH]]; simpl; [by eexists|].
  destruct (index_of_Some _ _ Hc) as [i Hi].
  assert (E : lookup_index d c = Ok i) by (unfold lookup_index; by rewrite Hi).
  rewrite E. simpl. rewrite IH. simpl. by eexists.
Qed.

Lemma sum_columns_subset (cols : list pystr) :
  Forall (fun c => c ∈ cols) (sum_columns_of cols).
Proof.
  apply Forall_forall. intros c Hc. unfold sum_columns_of in Hc.
  by apply list_elem_of_filter in Hc as [_ ?].
Qed.

Lemma groupby_sum_missing_key (d : DataFrame) (dim : pystr)
    (more cols : list pystr) :
  dim ∉ columns d ->
  groupby_sum d (dim :: more) cols = Raise (KeyError dim).
Proof.
  intros H. rewrite <- index_of_None in H.
  assert (E : lookup_index d dim = Raise (KeyError dim))
    by (unfold lookup_index; by rewrite H).
  unfold groupby_sum. simpl. by rewrite E.
Qed.

Lemma groupby_sum_missing_second_key (d : DataFrame) (dim1 dim2 : pystr)
    (cols : list pystr) :
  dim1 ∈ columns d -> dim2 ∉ columns d ->
  groupby_sum d [dim1; dim2] cols = Raise (KeyError dim2).
Proof.
  intros H1 H2. destruct (index_of_Some _ _ H1) as [i Hi].
  rewrite <- index_of_None in H2.
  assert (E1 : lookup_index d dim1 = Ok i)
    by (unfold lookup_index; by rewrite Hi).
  assert (E2 : lookup_index d dim2 = Raise (KeyError dim2))
    by (unfold lookup_index; by rewrite H2).
  unfold groupby_sum. simpl. rewrite E1. simpl. by rewrite E2.
Qed.

(** Grouping a table without rows gives a table without rows. *)
Lemma groupby_sum_no_rows (d : DataFrame) (by_ cols : list pystr) :
  rows d = [] ->
  Forall (fun c => c ∈ columns d) by_ ->
  Forall (fun c => c ∈ columns d) cols ->
  groupby_sum d by_ cols = Ok {| columns := by_ ++ cols; rows := [] |}.
Proof.
  intros Hr Hby Hcols. unfold groupby_sum.
  destruct (mapM_lookup_index_ok d by_ Hby) as [kidx ->].
  destruct (mapM_lookup_index_ok d cols Hcols) as [vidx ->].
  simpl. by rewrite Hr.
Qed.

Lemma resolved_name_present (cols : list pystr) (key : role) (n : pystr) :
  actual (resolve_columns cols) key = Some n -> n ∈ cols.
Proof.
  unfold resolve_columns.
  induction column_mappings as [|[k names] m IH]; simpl; [done|].
  destruct (List.find (fun n0 => Py.mem n0 cols) names) as [c|] eqn:E;
    simpl; [|apply IH].
  destruct (role_eqb key k); [|apply IH].
  intros [= <-]. apply find_some in E as [_ E]. by apply mem_elem_of.
Qed.

Lemma derive_metric_frame_no_rows (name : pystr) (times_100 : bool)
    (t : metric_type) (g : DataFrame) (num den : pystr) :
  rows g = [] -> num ∈ columns g -> den ∈ columns g ->
  exists g',
    derive_metric_frame name times_100 t g num den = Ok g'
    /\ rows g' = []
    /\ forall c, c ∈ columns g -> c ∈ columns g'.
Proof.
  intros Hr Hn Hd. unfold derive_metric_frame.
  rewrite (get_column_Some _ _ Hn), (get_column_Some _ _ Hd). simpl.
  assert (Hcol : forall c, column g c = []).
  { intros c. unfold column, get_column, lookup_index, column_at.
    rewrite Hr. by destruct (index_of c (columns g)). }
  rewrite !Hcol. unfold series_truediv. simpl.
  unfold scale. destruct times_100; simpl.
  - eexists. split; [reflexivity|]. split.
    + unfold set_column. rewrite Hr.
      by destruct (index_of name (columns g)).
    + intros c Hc. by apply set_column_keeps.
  - eexists. split; [reflexivity|]. split.
    + unfold set_column. rewrite Hr.
      by destruct (index_of name (columns g)).
    + intros c Hc. by apply set_column_keeps.
Qed.

Lemma when_both_frame_no_rows (cols : list pystr) (a b : role)
    (name : pystr) (times_100 : bool) (t : metric_type) (g : DataFrame) :
  rows g = [] -> (forall c, c ∈ cols -> c ∈ columns g) ->
  exists g',
    when_both_frame (actual (resolve_columns cols) a)
      (actual (resolve_columns cols) b)
      (derive_metric_frame name times_100 t) g = Ok g'
    /\ rows g' = []
    /\ forall c, c ∈ cols -> c ∈ columns g'.
Proof.
  intros Hr Hsub. unfold when_both_frame.
  destruct (actual (resolve_columns cols) a) as [x|] eqn:Ea;
    [|by exists g].
  destruct (actual (resolve_columns cols) b) as [y|] eqn:Eb;
    [|by exists g].
  apply resolved_name_present in Ea, Eb.
  destruct (derive_metric_frame_no_rows name times_100 t g x y Hr
              (Hsub _ Ea) (Hsub _ Eb)) as (g' & E & Hr' & Hk).
  exists g'. split; [done|]. split; [done|]. auto.
Qed.

Lemma aggregate_single_frame_no_rows (d : DataFrame) (dimension : pystr) :
  rows d = [] -> dimension ∈ valid_dims -> dimension ∈ columns d ->
  exists out, aggregate_single_frame d dimension = Ok out /\ rows out = [].
Proof.
  intros Hr Hdim Hin. unfold aggregate_single_frame.
  apply mem_elem_of in Hdim. rewrite Hdim. simpl.
  rewrite groupby_sum_no_rows; [|done|by repeat constructor
                                |apply sum_columns_subset].
  simpl. unfold derive_all.
  set (cols := dimension :: sum_columns_of (columns d)).
  set (g0 := {| columns := cols; rows := [] |}).
  assert (S0 : forall c, c ∈ cols -> c ∈ columns g0) by done.
  destruct (when_both_frame_no_rows cols click impressions (u "CTR") true
              percent g0 eq_refl S0) as (g1 & -> & R1 & S1). simpl.
  destruct (when_both_frame_no_rows cols spend click (u "CPC") false
              currency g1 R1 S1) as (g2 & -> & R2 & S2). simpl.
  destruct (when_both_frame_no_rows cols sales spend (u "ROAS") false
              ratio g2 R2 S2) as (g3 & -> & R3 & S3). simpl.
  destruct (when_both_frame_no_rows cols spend sales (u "ACoS") true
              percent g3 R3 S3) as (g4 & -> & R4 & S4). simpl.
  destruct (when_both_frame_no_rows cols conversions click (u "CVR") true
              percent g4 R4 S4) as (g5 & -> & R5 & S5). simpl.
  destruct (when_both_frame_no_rows cols spend conversions (u "CPA") false
              currency g5 R5 S5) as (g6 & -> & R6 & S6). simpl.
  unfold reorder, select_columns.
  assert (Hd6 : dimension ∈ columns g6) by (apply S6; by left).
  destruct (mapM_lookup_index_ok g6
              (dimension :: filter (fun col => negb (Py.eqb col dimension))
                              (columns g6))) as [idx ->].
  { constructor; [done|]. apply Forall_forall. intros c Hc.
    by apply list_elem_of_filter in Hc as [_ ?]. }
  simpl. rewrite R6. simpl. unfold sort_values. simpl.
  unfold lookup_index. simpl. rewrite eqb_refl. simpl.
  eexists. split; reflexivity.
Qed.

Lemma aggregate_cross_frame_no_rows (d : DataFrame) (dim1 dim2 : pystr) :
  rows d = [] -> dim1 ∈ valid_dims -> dim2 ∈ valid_dims -> dim1 <> dim2 ->
  dim1 ∈ columns d -> dim2 ∈ columns d ->
  aggregate_cross_frame d dim1 dim2
  = Ok {| columns := [dim1; dim2] ++ sum_columns_of (columns d);
          rows := [] |}.
Proof.
  intros Hr H1 H2 Hne I1 I2. unfold aggregate_cross_frame.
  apply mem_elem_of in H1, H2. pose proof Hne as Hne'.
  apply eqb_neq in Hne. rewrite H1, H2, Hne. simpl.
  rewrite groupby_sum_no_rows; [|done|by repeat constructor
                                |apply sum_columns_subset].
  simpl. unfold sort_values. simpl. unfold lookup_index. simpl.
  rewrite !eqb_refl. simpl.
  assert (E : Py.eqb dim2 dim1 = false) by (apply eqb_neq; congruence).
  by rewrite E.
Qed.

End AggregateEdges.

(** On a table that has the dimension columns but no row, both
    aggregators return a summary without rows: no error, and for the cross
    aggregation the labels are the two dimensions followed by the summed
    columns. *)
Theorem aggregate_table_without_rows (σ : store) (df : ref) (d : DataFrame)
    (dimension dim1 dim2 : pystr) :
  σ !! df = Some d ->
  rows d = [] ->
  (dimension ∈ valid_dims -> dimension ∈ columns d ->
     exists out, returned (aggregate_single df dimension σ) = Some out
                 /\ rows out = [])
  /\ (dim1 ∈ valid_dims -> dim2 ∈ valid_dims -> dim1 <> dim2 ->
      dim1 ∈ columns d -> dim2 ∈ columns d ->
      returned (aggregate_cross df dim1 dim2 σ)
      = Some {| columns := [dim1; dim2] ++ sum_columns_of (columns d);
                rows := [] |}).
Proof.
  intros Hdf Hr. split.
  - intros Hdim Hin.
    destruct (aggregate_single_run σ df d dimension Hdf)
      as (r & ext & Hrun & Hout).
    destruct (aggregate_single_frame_no_rows d dimension Hr Hdim Hin)
      as (out & E & Hro).
    exists out. rewrite Hrun, E. split; [by apply Hout | done].
  - intros H1 H2 Hne I1 I2.
    destruct (aggregate_cross_run σ df d dim1 dim2 Hdf)
      as (r & ext & Hrun & Hout).
    pose proof (aggregate_cross_frame_no_rows d dim1 dim2 Hr H1 H2 Hne I1 I2)
      as E.
    rewrite Hrun, E. by apply Hout.
Qed.

Lemma aggregate_table_without_rows_witness :
  (exists out,
     returned (aggregate_single 0%nat (u "Pattern") [no_rows]) = Some out
     /\ rows out = [])
  /\ returned (aggregate_cross 0%nat (u "Pattern") (u "Attribute") [no_rows])
     = Some {| columns := [u "Pattern"; u "Attribute"; u "Impressions";
                           u "Clicks"];
               rows := [] |}.
Proof.
  destruct (aggregate_table_without_rows [no_rows] 0%nat no_rows
              (u "Pattern") (u "Pattern") (u "Attribute") eq_refl eq_refl)
    as [H1 H2].
  assert (V : forall x, Py.mem x valid_dims = true -> x ∈ valid_dims)
    by (intros x; apply mem_elem_of).
  assert (C : forall x, Py.mem x (columns no_rows) = true ->
                        x ∈ columns no_rows)
    by (intros x; apply mem_elem_of).
  split.
  - apply H1; [apply V | apply C]; vm_compute; reflexivity.
  - rewrite H2; [vm_compute; reflexivity | apply V | apply V | | apply C
                | apply C]; try (vm_compute; reflexivity).
    intros E. vm_compute in E. discriminate.
Defined.

(** On a table that lacks the column of a valid dimension (a table that
    was not extracted), the aggregators raise [KeyError] for that
    dimension, the first missing one for the cross aggregation, and leave
    the store as it is. *)
Theorem aggregate_missing_dimension_column (σ : store) (df : ref)
    (d : DataFrame) (dimension dim1 dim2 : pystr) :
  σ !! df = Some d ->
  (dimension ∈ valid_dims -> dimension ∉ columns d ->
     aggregate_single df dimension σ = (Raise (KeyError dimension), σ))
  /\ (dim1 ∈ valid_dims -> dim2 ∈ valid_dims -> dim1 <> dim2 ->
      dim1 ∉ columns d ->
      aggregate_cross df dim1 dim2 σ = (Raise (KeyError dim1), σ))
  /\ (dim1 ∈ valid_dims -> dim2 ∈ valid_dims -> dim1 <> dim2 ->
      dim1 ∈ columns d -> dim2 ∉ columns d ->
      aggregate_cross df dim1 dim2 σ = (Raise (KeyError dim2), σ)).
Proof.
  intros Hdf. split; [|split].
  - intros Hdim Hno. unfold aggregate_single.
    apply mem_elem_of in Hdim. rewrite Hdim. simpl.
    rewrite (bind_ok _ _ _ _ _ (pd_columns_run _ _ _ Hdf)).
    apply bind_raise. rewrite (pd_groupby_sum_run _ _ _ _ _ Hdf).
    by rewrite groupby_sum_missing_key.
  - intros H1 H2 Hne Hno. unfold aggregate_cross.
    apply mem_elem_of in H1, H2. apply eqb_neq in Hne.
    rewrite H1, H2, Hne. simpl.
    rewrite (bind_ok _ _ _ _ _ (pd_columns_run _ _ _ Hdf)).
    apply bind_raise. rewrite (pd_groupby_sum_run _ _ _ _ _ Hdf).
    by rewrite groupby_sum_missing_key.
  - intros H1 H2 Hne Hin Hno. unfold aggregate_cross.
    apply mem_elem_of in H1, H2. apply eqb_neq in Hne.
    rewrite H1, H2, Hne. simpl.
    rewrite (bind_ok _ _ _ _ _ (pd_columns_run _ _ _ Hdf)).
    apply bind_raise. rewrite (pd_groupby_sum_run _ _ _ _ _ Hdf).
    by rewrite groupby_sum_missing_second_key.
Qed.

Lemma aggregate_missing_dimension_column_witness :
  aggregate_single 0%nat (u "Attribute") [example9]
  = (Raise (KeyError (u "Attribute")), [example9]).
Proof.
  apply (aggregate_missing_dimension_column [example9] 0%nat example9
           (u "Attribute") (u "Attribute") (u "Attribute") eq_refl).
  - apply mem_elem_of. vm_compute. reflexivity.
  - apply mem_not_elem_of. vm_compute. reflexivity.
Defined.

(* --------------------------------------------------------------------- *)
(** ** The derived metrics are computed from the sums of their row *)
(* --------------------------------------------------------------------- *)

Section DerivedMetrics.

Lemma derive_all_blocks (ac : list (role * pystr)) (g : DataFrame) :
  derive_all ac g = run_blocks ac metric_blocks g.
Proof.
  unfold derive_all, metric_blocks. cbn [run_blocks].
  repeat (match goal with
          | |- (?r ≫= _) = (?r ≫= _) =>
            destruct r as [?g|?e]; simpl; [|reflexivity]
          end).
  match goal with |- ?r = _ => by destruct r end.
Qed.

Lemma insert_key_widths (n : nat) (k : list cell) (ks : list (list cell)) :
  length k = n -> Forall (fun k' => length k' = n) ks ->
  Forall (fun k' => length k' = n) (insert_key k ks).
Proof.
  intros Hk. induction 1 as [|k' ks Hk' Hks IH]; simpl.
  - by repeat constructor.
  - destruct (key_compare k k'); repeat constructor; done.
Qed.

Lemma unique_keys_widths (n : nat) (l : list (list cell)) :
  Forall (fun k => length k = n) l ->
  Forall (fun k => length k = n) (unique_keys l).
Proof.
  induction 1 as [|k l Hk _ IH]; simpl; [constructor|].
  by apply insert_key_widths.
Qed.

(** The grouped frame is row-aligned, whatever the input holds. *)
Lemma groupby_sum_wf (d : DataFrame) (by_ cols : list pystr) (g : DataFrame) :
  groupby_sum d by_ cols = Ok g -> well_formed g.
Proof.
  intros H.
  destruct (groupby_sum_inv _ _ _ _ H)
    as (kidx & vidx & Hk & Hv & Hcols & Hrows).
  simpl in Hrows. pose proof (mapM_Ok_Forall2 _ _ _ Hrows) as Hall.
  apply mapM_Ok_length in Hk, Hv.
  set (kept := filter (fun r => forallb notna (key_at kidx r)) (rows d)) in *.
  assert (Hw : Forall (fun k => length k = length kidx)
                 (unique_keys (map (key_at kidx) kept))).
  { apply unique_keys_widths, Forall_map, Forall_forall. intros r _.
    unfold key_at. by rewrite length_map. }
  unfold well_formed. rewrite Hcols, length_app.
  rewrite Forall_forall in Hw.
  eapply Forall2_Forall_right; [exact Hall|]. simpl.
  intros k row Hin Hrow. unfold group_row in Hrow.
  apply bind_Ok_inv in Hrow as (sums & Hsums & Hrow). injection Hrow as <-.
  apply mapM_Ok_length in Hsums. rewrite length_map in Hsums.
  rewrite length_app, (Hw k Hin). lia.
Qed.

Lemma series_truediv_values (a b : list cell) (q : list float) :
  series_truediv a b = Ok q ->
  q = zip_with (fun x y => F64.div (to_float x) (to_float y)) a b.
Proof.
  unfold series_truediv.
  destruct (numeric_dtype (infer_dtype a) && numeric_dtype (infer_dtype b)).
  { by intros [= <-]. }
  revert b q. induction a as [|x a IH]; intros [|y b] q; simpl;
    try by intros [= <-].
  intros H. apply bind_Ok_inv in H as (v & Hv & H).
  apply bind_Ok_inv in H as (q' & Hq' & H). injection H as <-.
  rewrite (IH b q' Hq'). f_equal. unfold py_truediv in Hv.
  destruct (is_str x || is_str y); [done|].
  destruct (is_zero_number y); [done|]. by injection Hv.
Qed.

Lemma rendered_cells (times_100 : bool) (t : metric_type) (a b : list cell)
    (s : list pystr) :
  mapM (render t)
    (scale times_100
       (zip_with (fun x y => F64.div (to_float x) (to_float y)) a b)) = Ok s ->
  Forall2 (fun xy m => metric_cell times_100 t xy.1 xy.2 = Ok m)
    (zip a b) (map VStr s).
Proof.
  revert b s. induction a as [|x a IH]; intros [|y b] s;
    try (destruct times_100; simpl; intros [= <-]; constructor).
  intros H.
  assert (E : scale times_100
                (zip_with (fun x y => F64.div (to_float x) (to_float y))
                   (x :: a) (y :: b))
              = (let q := F64.div (to_float x) (to_float y) in
                 if times_100 then F64.mul q (F64.of_Z 100) else q)
                :: scale times_100
                     (zip_with (fun x y => F64.div (to_float x) (to_float y))
                        a b)).
  { by destruct times_100. }
  rewrite E in H. cbn [mapM] in H.
  apply bind_Ok_inv in H as (v & Hv & H).
  apply bind_Ok_inv in H as (s' & Hs' & H). injection H as <-.
  cbn [map zip zip_with]. constructor; [|by apply IH].
  unfold metric_cell. cbn [fst snd]. cbv zeta in Hv |- *. by rewrite Hv.
Qed.

Lemma derive_metric_frame_columns (name : pystr) (times_100 : bool)
    (t : metric_type) (g : DataFrame) (num den : pystr) (g' : DataFrame) :
  well_formed g -> num <> name -> den <> name ->
  derive_metric_frame name times_100 t g num den = Ok g' ->
  metric_columns g' name num den times_100 t.
Proof.
  intros Hwf Hn Hd H. unfold derive_metric_frame in H.
  apply bind_Ok_inv in H as (a & Ha & H).
  apply bind_Ok_inv in H as (b & Hb & H).
  apply bind_Ok_inv in H as (q & Hq & H).
  apply bind_Ok_inv in H as (s & Hs & H). injection H as <-.
  pose proof (get_column_length _ _ _ Ha) as La.
  pose proof (get_column_length _ _ _ Hb) as Lb.
  pose proof (series_truediv_length _ _ _ Hq ltac:(congruence)) as Lq.
  pose proof (mapM_Ok_length _ _ _ Hs) as Ls. rewrite scale_length in Ls.
  assert (L : length (map VStr s) = length (rows g))
    by (rewrite length_map; congruence).
  apply series_truediv_values in Hq. subst q.
  assert (I : forall c col, get_column g c = Ok col -> c ∈ columns g).
  { intros c col G. destruct (decide (c ∈ columns g)); [done|].
    rewrite get_column_missing in G; done. }
  exists a, b, (map VStr s). split; [|split; [|split]].
  - rewrite get_column_set_ne; eauto.
  - rewrite get_column_set_ne; eauto.
  - by apply get_column_set_eq.
  - by apply rendered_cells.
Qed.

Lemma run_blocks_keeps (ac : list (role * pystr))
    (blocks : list (pystr * role * role * bool * metric_type))
    (g g' : DataFrame) :
  well_formed g -> run_blocks ac blocks g = Ok g' ->
  well_formed g'
  /\ forall c, c ∉ map (fun blk => blk.1.1.1.1) blocks -> c ∈ columns g ->
       c ∈ columns g' /\ get_column g' c = get_column g c.
Proof.
  revert g. induction blocks as [|[[[[name a] b] times_100] t] rest IH];
    intros g Hwf H.
  - injection H as <-. auto.
  - cbn [run_blocks] in H. apply bind_Ok_inv in H as (g1 & H1 & H).
    destruct (when_both_frame_spec _ _ _ _ _ _ _ Hwf H1) as [Hwf1 K1].
    destruct (IH g1 Hwf1 H) as [Hwf' K]. split; [done|].
    intros c Hc Hin. cbn [map fst] in Hc.
    apply not_elem_of_cons in Hc as [Hne Hc].
    destruct (K1 c Hne Hin) as [Hin1 E1].
    destruct (K c Hc Hin1) as [Hin' E']. split; [done | congruence].
Qed.

Lemma run_blocks_metric (ac : list (role * pystr))
    (blocks : list (pystr * role * role * bool * metric_type))
    (g g' : DataFrame) (name : pystr) (a b : role) (times_100 : bool)
    (t : metric_type) (num den : pystr) :
  well_formed g -> run_blocks ac blocks g = Ok g' ->
  NoDup (map (fun blk => blk.1.1.1.1) blocks) ->
  (name, a, b, times_100, t) ∈ blocks ->
  actual ac a = Some num -> actual ac b = Some den ->
  num ∉ map (fun blk => blk.1.1.1.1) blocks ->
  den ∉ map (fun blk => blk.1.1.1.1) blocks ->
  well_formed g' /\ metric_columns g' name num den times_100 t.
Proof.
  revert g. induction blocks as [|[[[[name' a'] b'] times_100'] t'] rest IH];
    intros g Hwf H Hnd Hin Ha Hb Hn Hd.
  { by apply elem_of_nil in Hin. }
  cbn [run_blocks] in H. apply bind_Ok_inv in H as (g1 & H1 & H).
  destruct (when_both_frame_spec _ _ _ _ _ _ _ Hwf H1) as [Hwf1 K1].
  cbn [map fst] in Hnd, Hn, Hd. apply NoDup_cons in Hnd as [Hfresh Hnd].
  apply not_elem_of_cons in Hn as [Hn Hn'].
  apply not_elem_of_cons in Hd as [Hd Hd'].
  apply elem_of_cons in Hin as [Heq | Hin].
  - injection Heq as <- <- <- <- <-.
    unfold when_both_frame in H1. rewrite Ha, Hb in H1.
    destruct (derive_metric_frame_columns _ _ _ _ _ _ _ Hwf Hn Hd H1)
      as (ca & cb & cm & Ga & Gb & Gm & Hall).
    destruct (run_blocks_keeps _ _ _ _ Hwf1 H) as [Hwf' K]. split; [done|].
    assert (I : forall c col, get_column g1 c = Ok col -> c ∈ columns g1).
    { intros c col G. destruct (decide (c ∈ columns g1)); [done|].
      rewrite get_column_missing in G; done. }
    exists ca, cb, cm. split; [|split; [|split]]; [| | |done].
    + destruct (K num Hn' (I _ _ Ga)) as [_ ->]. done.
    + destruct (K den Hd' (I _ _ Gb)) as [_ ->]. done.
    + destruct (K name Hfresh (I _ _ Gm)) as [_ ->]. done.
  - by apply (IH g1).
Qed.

Lemma role_names_are_not_metrics (cols : list pystr) (key : role)
    (n : pystr) :
  actual (resolve_columns cols) key = Some n -> n ∉ metric_names.
Proof.
  intros H.
  assert (Hn : n ∈ concat (map snd column_mappings)).
  { revert H. unfold resolve_columns.
    induction column_mappings as [|[k names] m IH]; simpl; [done|].
    destruct (List.find (fun n0 => Py.mem n0 cols) names) as [c|] eqn:E;
      simpl.
    - destruct (role_eqb key k).
      + intros [= <-]. apply find_some in E as [E _].
        apply elem_of_app. left. by apply list_elem_of_In.
      + intros H. apply elem_of_app. right. by apply IH.
    - intros H. apply elem_of_app. right. by apply IH. }
  assert (F : forallb (fun x => negb (Py.mem x metric_names))
                (concat (map snd column_mappings)) = true)
    by (vm_compute; reflexivity).
  rewrite forallb_forall in F. apply list_elem_of_In, F in Hn.
  apply mem_not_elem_of. by destruct (Py.mem n metric_names).
Qed.

Lemma metric_columns_rows (g : DataFrame) (name num den : pystr)
    (times_100 : bool) (t : metric_type) :
  metric_columns g name num den times_100 t ->
  exists jn jd jm,
    index_of num (columns g) = Some jn
    /\ index_of den (columns g) = Some jd
    /\ index_of name (columns g) = Some jm
    /\ Forall (fun r => metric_cell times_100 t (cell_at jn r) (cell_at jd r)
                        = Ok (cell_at jm r)) (rows g).
Proof.
  intros (a & b & m & Ga & Gb & Gm & Hall).
  unfold get_column, lookup_index in Ga, Gb, Gm.
  destruct (index_of num (columns g)) as [jn|]; [|done].
  destruct (index_of den (columns g)) as [jd|]; [|done].
  destruct (index_of name (columns g)) as [jm|]; [|done].
  simpl in Ga, Gb, Gm. injection Ga as <-. injection Gb as <-.
  injection Gm as <-. exists jn, jd, jm. repeat split.
  unfold column_at in Hall. induction (rows g) as [|r rs IH]; [constructor|].
  cbn [map zip zip_with] in Hall. apply Forall2_cons in Hall as [Hr Hall].
  constructor; [exact Hr | by apply IH].
Qed.

Lemma aggregate_single_frame_metric (d : DataFrame) (dimension : pystr)
    (out : DataFrame) (name : pystr) (a b : role) (times_100 : bool)
    (t : metric_type) (num den : pystr) :
  aggregate_single_frame d dimension = Ok out ->
  (name, a, b, times_100, t) ∈ metric_blocks ->
  actual (resolve_columns (dimension :: sum_columns_of (columns d))) a
  = Some num ->
  actual (resolve_columns (dimension :: sum_columns_of (columns d))) b
  = Some den ->
  well_formed out
  /\ exists jn jd jm,
       index_of num (columns out) = Some jn
       /\ index_of den (columns out) = Some jd
       /\ index_of name (columns out) = Some jm
       /\ Forall (fun r => metric_cell times_100 t (cell_at jn r)
                             (cell_at jd r) = Ok (cell_at jm r)) (rows out).
Proof.
  intros H Hblk Ha Hb.
  destruct (aggregate_single_frame_inv _ _ _ H)
    as (Hdim & g0 & g1 & g2 & H0 & H1 & H2 & H3).
  pose proof (groupby_sum_wf _ _ _ _ H0) as Hwf0.
  pose proof (groupby_sum_columns _ _ _ _ H0) as Hc0. simpl in Hc0.
  rewrite Hc0 in H1. rewrite derive_all_blocks in H1.
  assert (Hnames : map (fun blk : pystr * role * role * bool * metric_type =>
                          blk.1.1.1.1) metric_blocks = metric_names)
    by reflexivity.
  destruct (run_blocks_metric _ _ _ _ name a b times_100 t num den Hwf0 H1)
    as [Hwf1 Hm]; try done.
  { rewrite Hnames. unfold metric_names.
    repeat (apply NoDup_cons; split;
            [apply mem_not_elem_of; vm_compute; reflexivity|]).
    apply NoDup_nil_2. }
  { rewrite Hnames. by eapply role_names_are_not_metrics. }
  { rewrite Hnames. by eapply role_names_are_not_metrics. }
  destruct Hm as (ca & cb & cm & Ga & Gb & Gm & Hall).
  assert (I : forall c col, get_column g1 c = Ok col -> c ∈ columns g1).
  { intros c col G. destruct (decide (c ∈ columns g1)); [done|].
    rewrite get_column_missing in G; done. }
  assert (S : forall c, c ∈ columns g1 ->
            c ∈ dimension :: filter (fun col => negb (Py.eqb col dimension))
                               (columns g1)).
  { intros c Hc. destruct (Py.eqb c dimension) eqn:E.
    - apply eqb_eq in E. subst. by left.
    - right. apply list_elem_of_filter. by rewrite E. }
  unfold reorder in H2.
  assert (Hm2 : metric_columns g2 name num den times_100 t).
  { exists ca, cb, cm. split; [|split; [|split]]; [| | |done].
    - rewrite (select_get_column _ _ _ _ H2 (S _ (I _ _ Ga))). done.
    - rewrite (select_get_column _ _ _ _ H2 (S _ (I _ _ Gb))). done.
    - rewrite (select_get_column _ _ _ _ H2 (S _ (I _ _ Gm))). done. }
  destruct (select_columns_inv _ _ _ H2) as (idx & Hidx & Hc2 & Hr2).
  assert (Hwf2 : well_formed g2).
  { unfold well_formed. rewrite Hc2, Hr2. apply Forall_map, Forall_forall.
    intros r _. rewrite length_map. by apply mapM_Ok_length in Hidx. }
  destruct (metric_columns_rows _ _ _ _ _ _ Hm2)
    as (jn & jd & jm & In & Id & Im & Hrows).
  destruct (sort_values_inv _ _ _ H3) as (kidx & _ & Hco & Hro).
  split.
  - unfold well_formed. rewrite Hco, Hro.
    eapply Permutation_Forall; [symmetry; apply sort_rows_perm | exact Hwf2].
  - exists jn, jd, jm. rewrite Hco, Hro. repeat split; try done.
    eapply Permutation_Forall; [symmetry; apply sort_rows_perm | exact Hrows].
Qed.

Lemma frame_cell_Some (d : DataFrame) (c : pystr) (j i : nat)
    (r : list cell) :
  well_formed d -> index_of c (columns d) = Some j -> rows d !! i = Some r ->
  frame_cell d c i = Some (cell_at j r).
Proof.
  intros Hwf Hj Hr. unfold frame_cell. rewrite Hj, Hr. simpl.
  unfold well_formed in Hwf. rewrite Forall_forall in Hwf.
  pose proof (Hwf r (list_elem_of_lookup_2 _ _ _ Hr)) as L.
  apply index_of_lt in Hj. unfold cell_at.
  destruct (lookup_lt_is_Some_2 r j ltac:(lia)) as [x Hx].
  rewrite Hx. f_equal. symmetry. by apply nth_lookup_Some.
Qed.

End DerivedMetrics.

(** Every derived metric of a summary is computed from the sums of its
    own row: for each of the six blocks whose two roles have a column in
    the grouped frame, every row of the summary returned by
    [aggregate_single] has a numerator cell, a denominator cell and a
    metric cell, and the metric cell is the rendering of the quotient of
    the two (times 100 for the percentages). *)
Theorem derived_metrics_follow_the_sums (σ : store) (df : ref)
    (d : DataFrame) (dimension : pystr) (out : DataFrame) (name : pystr)
    (a b : role) (times_100 : bool) (t : metric_type) (num den : pystr) :
  σ !! df = Some d ->
  returned (aggregate_single df dimension σ) = Some out ->
  (name, a, b, times_100, t) ∈ metric_blocks ->
  actual (resolve_columns (dimension :: sum_columns_of (columns d))) a
  = Some num ->
  actual (resolve_columns (dimension :: sum_columns_of (columns d))) b
  = Some den ->
  forall i, (i < length (rows out))%nat ->
    exists x y m,
      frame_cell out num i = Some x
      /\ frame_cell out den i = Some y
      /\ frame_cell out name i = Some m
      /\ metric_cell times_100 t x y = Ok m.
Proof.
  intros Hdf Hret Hblk Ha Hb i Hi.
  destruct (aggregate_single_run σ df d dimension Hdf)
    as (r & ext & Hrun & Hout).
  rewrite Hrun in Hret. unfold returned in Hret.
  destruct (aggregate_single_frame d dimension) as [o|e] eqn:E; [|done].
  rewrite (Hout o eq_refl) in Hret. injection Hret as ->.
  destruct (aggregate_single_frame_metric _ _ _ _ _ _ _ _ _ _ E Hblk Ha Hb)
    as (Hwf & jn & jd & jm & In & Id & Im & Hrows).
  destruct (lookup_lt_is_Some_2 (rows out) i Hi) as [row Hrow].
  rewrite Forall_forall in Hrows.
  pose proof (Hrows row (list_elem_of_lookup_2 _ _ _ Hrow)) as Hm.
  exists (cell_at jn row), (cell_at jd row), (cell_at jm row).
  rewrite (frame_cell_Some _ _ _ _ _ Hwf In Hrow).
  rewrite (frame_cell_Some _ _ _ _ _ Hwf Id Hrow).
  rewrite (frame_cell_Some _ _ _ _ _ Hwf Im Hrow). done.
Qed.

Lemma derived_metrics_follow_the_sums_witness :
  exists x y m,
    frame_cell example8_by_parent (u "Clicks") 1%nat = Some x
    /\ frame_cell example8_by_parent (u "Impressions") 1%nat = Some y
    /\ frame_cell example8_by_parent (u "CTR") 1%nat = Some m
    /\ metric_cell true percent x y = Ok m.
Proof.
  apply (derived_metrics_follow_the_sums [example8] 0%nat example8
           (u "Parent Code") example8_by_parent (u "CTR") click impressions
           true percent (u "Clicks") (u "Impressions")).
  - reflexivity.
  - vm_compute. reflexivity.
  - unfold metric_blocks. by left.
  - vm_compute. reflexivity.
  - vm_compute. reflexivity.
  - simpl. lia.
Defined.

(* --------------------------------------------------------------------- *)
(** ** The layout of the summaries *)
(* --------------------------------------------------------------------- *)

Section Layout.

Lemma filter_ext_elem {A} (P Q : A -> Prop) `{!forall x, Decision (P x)}
    `{!forall x, Decision (Q x)} (l : list A) :
  (forall x, x ∈ l -> P x <-> Q x) -> filter P l = filter Q l.
Proof.
  induction l as [|x l IH]; intros Hext; [done|].
  rewrite !filter_cons.
  assert (Hx : P x <-> Q x) by (apply Hext; by left).
  rewrite IH by (intros y Hy; apply Hext; by right).
  destruct (decide (P x)), (decide (Q x)); tauto.
Qed.

Lemma not_mem_iff (x : pystr) (l : list pystr) :
  negb (Py.mem x l) <-> x ∉ l.
Proof.
  rewrite <- mem_not_elem_of. destruct (Py.mem x l); simpl; split; done.
Qed.

Lemma derived_names_cons (ac : list (role * pystr)) (name : pystr)
    (a b : role) (times_100 : bool) (t : metric_type)
    (rest : list (pystr * role * role * bool * metric_type)) :
  derived_names ac ((name, a, b, times_100, t) :: rest)
  = match actual ac a, actual ac b with
    | Some _, Some _ => name :: derived_names ac rest
    | _, _ => derived_names ac rest
    end.
Proof.
  unfold derived_names. simpl. by destruct (actual ac a), (actual ac b).
Qed.

Lemma derived_names_subset (ac : list (role * pystr))
    (blocks : list (pystr * role * role * bool * metric_type)) (n : pystr) :
  n ∈ derived_names ac blocks -> n ∈ map (fun blk => blk.1.1.1.1) blocks.
Proof.
  induction blocks as [|[[[[name a] b] times_100] t] rest IH];
    [done|].
  rewrite derived_names_cons. cbn [map fst].
  destruct (actual ac a), (actual ac b);
    rewrite ?elem_of_cons; intros H; try (right; by apply IH).
  destruct H as [-> | H]; [by left | right; by apply IH].
Qed.

Lemma run_blocks_columns (ac : list (role * pystr))
    (blocks : list (pystr * role * role * bool * metric_type))
    (g g' : DataFrame) :
  run_blocks ac blocks g = Ok g' ->
  NoDup (map (fun blk => blk.1.1.1.1) blocks) ->
  columns g'
  = columns g
    ++ filter (fun n => negb (Py.mem n (columns g))) (derived_names ac blocks).
Proof.
  revert g. induction blocks as [|[[[[name a] b] times_100] t] rest IH];
    intros g H Hnd.
  { injection H as <-. by rewrite app_nil_r. }
  cbn [run_blocks] in H. apply bind_Ok_inv in H as (g1 & H1 & H).
  cbn [map fst] in Hnd. apply NoDup_cons in Hnd as [Hfresh Hnd].
  rewrite (IH g1 H Hnd). unfold when_both_frame in H1.
  rewrite derived_names_cons.
  destruct (actual ac a) as [num|]; [|by injection H1 as <-].
  destruct (actual ac b) as [den|]; [|by injection H1 as <-].
  unfold derive_metric_frame in H1.
  apply bind_Ok_inv in H1 as (ca & _ & H1).
  apply bind_Ok_inv in H1 as (cb & _ & H1).
  apply bind_Ok_inv in H1 as (q & _ & H1).
  apply bind_Ok_inv in H1 as (s & _ & H1). injection H1 as <-.
  rewrite set_column_columns. rewrite filter_cons.
  destruct (Py.mem name (columns g)) eqn:E.
  - rewrite decide_False by (cbv beta; rewrite ?E; simpl; tauto). done.
  - rewrite decide_True by (cbv beta; rewrite ?E; simpl; tauto).
    rewrite <- app_assoc. cbn [app]. do 2 f_equal.
    apply filter_ext_elem. intros n Hn. rewrite !not_mem_iff.
    rewrite elem_of_app, list_elem_of_singleton.
    apply derived_names_subset in Hn.
    assert (n <> name) by (intros ->; done). tauto.
Qed.

Lemma dimension_is_not_a_metric (dimension : pystr) :
  dimension ∈ valid_dims -> dimension ∉ metric_names.
Proof.
  unfold valid_dims. rewrite !elem_of_cons, elem_of_nil.
  intros [-> | [-> | [-> | []]]]; apply mem_not_elem_of;
    vm_compute; reflexivity.
Qed.

Lemma aggregate_single_frame_columns (d : DataFrame) (dimension : pystr)
    (out : DataFrame) :
  aggregate_single_frame d dimension = Ok out ->
  let cols := dimension :: sum_columns_of (columns d) in
  well_formed out
  /\ columns out
     = cols ++ filter (fun n => negb (Py.mem n cols))
                 (derived_names (resolve_columns cols) metric_blocks).
Proof.
  intros H cols.
  destruct (aggregate_single_frame_inv _ _ _ H)
    as (Hdim & g0 & g1 & g2 & H0 & H1 & H2 & H3).
  pose proof (groupby_sum_columns _ _ _ _ H0) as Hc0. simpl in Hc0.
  fold cols in Hc0. rewrite Hc0, derive_all_blocks in H1.
  assert (Hnames : map (fun blk : pystr * role * role * bool * metric_type =>
                          blk.1.1.1.1) metric_blocks = metric_names)
    by reflexivity.
  assert (Hnd : NoDup metric_names).
  { unfold metric_names.
    repeat (apply NoDup_cons; split;
            [apply mem_not_elem_of; vm_compute; reflexivity|]).
    apply NoDup_nil_2. }
  pose proof (run_blocks_columns _ _ _ _ H1 ltac:(by rewrite Hnames)) as Hc1.
  rewrite Hc0 in Hc1.
  destruct (select_columns_inv _ _ _ H2) as (idx & Hidx & Hc2 & Hr2).
  destruct (sort_values_inv _ _ _ H3) as (kidx & _ & Hco & Hro).
  split.
  - unfold well_formed. rewrite Hco, Hro.
    eapply Permutation_Forall; [symmetry; apply sort_rows_perm|].
    rewrite Hc2, Hr2. apply Forall_map, Forall_forall.
    intros r _. rewrite length_map. by apply mapM_Ok_length in Hidx.
  - rewrite Hco, Hc2, Hc1. unfold cols. cbn [app].
    rewrite filter_cons, decide_False
      by (cbv beta; rewrite eqb_refl; simpl; tauto).
    f_equal. apply filter_all, Forall_forall. intros c Hc.
    apply Is_true_true, negb_true_iff, eqb_neq. intros ->.
    apply elem_of_app in Hc as [Hc | Hc].
    + by destruct (sum_columns_not_dimension _ _ _ Hc Hdim).
    + apply list_elem_of_filter in Hc as [_ Hc].
      apply derived_names_subset in Hc. rewrite Hnames in Hc.
      by apply dimension_is_not_a_metric in Hdim.
Qed.

Lemma aggregate_cross_frame_columns (d : DataFrame) (dim1 dim2 : pystr)
    (out : DataFrame) :
  aggregate_cross_frame d dim1 dim2 = Ok out ->
  well_formed out
  /\ columns out = [dim1; dim2] ++ sum_columns_of (columns d).
Proof.
  intros H.
  destruct (aggregate_cross_frame_inv _ _ _ _ H)
    as (_ & _ & _ & g & H0 & H1).
  pose proof (groupby_sum_columns _ _ _ _ H0) as Hc0.
  pose proof (groupby_sum_wf _ _ _ _ H0) as Hwf0.
  destruct (sort_values_inv _ _ _ H1) as (kidx & _ & Hco & Hro).
  split; [|congruence].
  unfold well_formed. rewrite Hco, Hro.
  eapply Permutation_Forall; [symmetry; apply sort_rows_perm | exact Hwf0].
Qed.

End Layout.

(** The layout of the summaries.  A summary returned by
    [aggregate_single] has the dimension first, then the summed columns in
    the order of the input, then the labels of the derived metrics that
    were computed and are not already summed columns, in the order of the
    blocks; a summary returned by [aggregate_cross] has the two dimensions
    followed by the summed columns and no derived metric.  In both, every
    row has one cell per label. *)
Theorem summary_layout (σ : store) (df : ref) (d : DataFrame)
    (dimension dim1 dim2 : pystr) :
  σ !! df = Some d ->
  (forall out, returned (aggregate_single df dimension σ) = Some out ->
     let cols := dimension :: sum_columns_of (columns d) in
     well_formed out
     /\ columns out
        = cols ++ filter (fun n => negb (Py.mem n cols))
                    (derived_names (resolve_columns cols) metric_blocks))
  /\ (forall out, returned (aggregate_cross df dim1 dim2 σ) = Some out ->
        well_formed out
        /\ columns out = [dim1; dim2] ++ sum_columns_of (columns d)).
Proof.
  intros Hdf. split.
  - intros out Hret.
    destruct (aggregate_single_run σ df d dimension Hdf)
      as (r & ext & Hrun & Hout).
    rewrite Hrun in Hret. unfold returned in Hret.
    destruct (aggregate_single_frame d dimension) as [o|e] eqn:E; [|done].
    rewrite (Hout o eq_refl) in Hret. injection Hret as ->.
    by apply aggregate_single_frame_columns.
  - intros out Hret.
    destruct (aggregate_cross_run σ df d dim1 dim2 Hdf)
      as (r & ext & Hrun & Hout).
    rewrite Hrun in Hret. unfold returned in Hret.
    destruct (aggregate_cross_frame d dim1 dim2) as [o|e] eqn:E; [|done].
    rewrite (Hout o eq_refl) in Hret. injection Hret as ->.
    by apply aggregate_cross_frame_columns.
Qed.

Lemma summary_layout_witness :
  columns example8_by_parent
  = [u "Parent Code"; u "Impressions"; u "Clicks"; u "CTR"].
Proof.
  destruct (summary_layout [example8] 0%nat example8 (u "Parent Code")
              (u "Parent Code") (u "Pattern") eq_refl) as [H _].
  destruct (H example8_by_parent) as [_ E].
  - vm_compute. reflexivity.
  - rewrite E. vm_compute. reflexivity.
Defined.

(* --------------------------------------------------------------------- *)
(** ** The detail page of app.py *)
(* --------------------------------------------------------------------- *)

Section DetailPage.

Lemma cell_eq_str_spec (value : pystr) (c : cell) :
  cell_eq_str value c = true <-> c = VStr value.
Proof.
  destruct c as [z|f|s]; simpl; try (split; [done | intros [=]]).
  rewrite eqb_eq. split; [by intros -> | by intros [= ->]].
Qed.

Lemma filter_map_commute {A B} (f : A -> B) (P : B -> Prop)
    `{!forall y, Decision (P y)} (l : list A) :
  filter P (map f l) = map f (filter (fun x => P (f x)) l).
Proof.
  induction l as [|x l IH]; [done|]. cbn [map]. rewrite !filter_cons.
  destruct (decide (P (f x))); cbn [map]; by rewrite IH.
Qed.

Lemma unique_keys_constant (k : list cell) (l : list (list cell)) :
  key_eqb k k = true -> l <> [] -> Forall (fun k' => k' = k) l ->
  unique_keys l = [k].
Proof.
  intros Hk Hne Hall. induction Hall as [|k' l -> Hall IH]; [done|].
  simpl. destruct l as [|k'' l]; [done|].
  rewrite IH by done. simpl. unfold key_eqb in Hk.
  by destruct (key_compare k k).
Qed.

Lemma filter_eq_inv (d : DataFrame) (c value : pystr) (f : DataFrame) :
  filter_eq d c value = Ok f ->
  exists i,
    index_of c (columns d) = Some i
    /\ columns f = columns d
    /\ rows f = filter (fun r => cell_eq_str value (cell_at i r)) (rows d)
    /\ Forall (fun r => cell_at i r = VStr value) (rows f)
    /\ (rows f = [] -> VStr value ∉ column d c)
    /\ (rows f <> [] -> VStr value ∈ column d c).
Proof.
  unfold filter_eq, lookup_index. intros H.
  destruct (index_of c (columns d)) as [i|] eqn:Hi; [|done].
  simpl in H. injection H as <-. exists i. cbn [columns rows].
  split; [done|]. split; [done|]. split; [done|]. split.
  - apply Forall_forall. intros r Hr.
    apply list_elem_of_filter in Hr as [Hr _].
    by apply cell_eq_str_spec, Is_true_true.
  - assert (Hc : column d c = map (cell_at i) (rows d)).
    { unfold column, get_column, lookup_index. by rewrite Hi. }
    rewrite Hc. split.
    + intros He Hin. rewrite map_fmap in Hin.
      apply list_elem_of_fmap in Hin as (r & Hr & Hin).
      assert (Hf : r ∈ filter (fun r => cell_eq_str value (cell_at i r))
                         (rows d)).
      { apply list_elem_of_filter. split; [|done].
        apply Is_true_true, cell_eq_str_spec. done. }
      rewrite He in Hf. by apply elem_of_nil in Hf.
    + intros Hne.
      destruct (filter (fun r => cell_eq_str value (cell_at i r)) (rows d))
        as [|r rs] eqn:E; [done|].
      assert (Hr : r ∈ filter (fun r => cell_eq_str value (cell_at i r))
                         (rows d)) by (rewrite E; by left).
      apply list_elem_of_filter in Hr as [Hr Hin].
      apply Is_true_true, cell_eq_str_spec in Hr. rewrite <- Hr.
      rewrite map_fmap. apply list_elem_of_fmap. by exists r.
Qed.

(** The summary of a table filtered on the dimension has one row. *)
Lemma aggregate_single_frame_one_group (f : DataFrame)
    (dimension value : pystr) (i : nat) (out : DataFrame) :
  index_of dimension (columns f) = Some i ->
  Forall (fun r => cell_at i r = VStr value) (rows f) ->
  rows f <> [] ->
  aggregate_single_frame f dimension = Ok out ->
  column out dimension = [VStr value] /\ length (rows out) = 1%nat.
Proof.
  intros Hi Hall Hne E.
  assert (Hstr : Forall (fun r => is_str (cell_at i r) = true) (rows f)).
  { eapply Forall_impl; [exact Hall|]. intros r Hr. cbv beta in Hr.
    by rewrite Hr. }
  destruct (aggregate_single_frame_keys f dimension i out Hi Hstr E)
    as (col & Gout & Hperm).
  rewrite (unique_keys_constant [VStr value]) in Hperm.
  - simpl in Hperm. apply Permutation_singleton_r in Hperm. subst col.
    split; [by apply column_get|].
    by apply get_column_length in Gout.
  - apply key_eqb_refl_str.
  - by destruct (rows f).
  - apply Forall_map. eapply Forall_impl; [exact Hall|].
    intros r Hr. cbv beta in Hr. unfold key_at. cbn [map]. by rewrite Hr.
Qed.

Lemma display_columns_select (f : DataFrame) :
  exists dt,
    select_columns f
      (filter (fun col => negb (Py.mem col [u "Parent Code"; u "Pattern"]))
         (columns f)) = Ok dt
    /\ columns dt
       = filter (fun col => negb (Py.mem col [u "Parent Code"; u "Pattern"]))
           (columns f)
    /\ length (rows dt) = length (rows f).
Proof.
  unfold select_columns.
  destruct (mapM_lookup_index_ok f
              (filter (fun col => negb (Py.mem col [u "Parent Code";
                                                     u "Pattern"]))
                 (columns f))) as [idx ->].
  { apply Forall_forall. intros c Hc.
    by apply list_elem_of_filter in Hc as [_ ?]. }
  simpl. eexists. split; [reflexivity|]. split; [done|]. simpl.
  by rewrite length_map.
Qed.

(** The four ways the page ends, in terms of the frames. *)
Lemma show_detail_page_run (σ : store) (df : ref) (d : DataFrame)
    (dimension value : pystr) :
  σ !! df = Some d ->
  match filter_eq d dimension value with
  | Raise e =>
    show_detail_page (Some df) dimension value σ = (Raise e, σ)
  | Ok f =>
    if df_empty f
    then show_detail_page (Some df) dimension value σ
         = (Ok NotFound, σ ++ [f])
    else
      match aggregate_single_frame f dimension with
      | Raise e =>
        exists ext, show_detail_page (Some df) dimension value σ
                    = (Raise e, σ ++ ext)
      | Ok out =>
        exists (r : ref) (ext : store) (dt : DataFrame),
          show_detail_page (Some df) dimension value σ
          = (Ok (Detail (if negb (df_empty out) then Some r else None)
                        (length (σ ++ ext))), (σ ++ ext) ++ [dt])
          /\ (σ ++ ext) !! r = Some out
          /\ select_columns f
               (filter (fun col => negb (Py.mem col [u "Parent Code";
                                                      u "Pattern"]))
                  (columns f)) = Ok dt
      end
  end.
Proof.
  intros Hdf. unfold show_detail_page, pd_filter_eq.
  pose proof (pd_fresh_run (fun d0 => filter_eq d0 dimension value) σ df d
                Hdf) as Hf. cbv beta in Hf.
  destruct (filter_eq d dimension value) as [f|e] eqn:Ef.
  2: { by rewrite (bind_raise _ _ _ _ _ Hf). }
  rewrite (bind_ok _ _ _ _ _ Hf).
  pose proof (lookup_new σ f) as Hnew.
  rewrite (bind_ok _ _ _ _ _ (pd_empty_run _ _ _ Hnew)).
  destruct (df_empty f); [done|].
  destruct (aggregate_single_run (σ ++ [f]) (length σ) f dimension Hnew)
    as (r & ext & Hrun & Hout).
  destruct (aggregate_single_frame f dimension) as [out|e] eqn:Ea.
  2: { exists ([f] ++ ext). rewrite (bind_raise _ _ _ _ _ Hrun).
       by rewrite app_assoc. }
  rewrite (bind_ok _ _ _ _ _ Hrun).
  pose proof (Hout out eq_refl) as Hr.
  rewrite (bind_ok _ _ _ _ _ (pd_empty_run _ _ _ Hr)).
  assert (Hnew' : ((σ ++ [f]) ++ ext) !! length σ = Some f).
  { rewrite lookup_app_l; [done|]. rewrite length_app. simpl. lia. }
  rewrite (bind_ok _ _ _ _ _ (pd_columns_run _ _ _ Hnew')).
  destruct (display_columns_select f) as (dt & Hsel & _).
  pose proof (pd_select_run _ _ _
                (filter (fun col => negb (Py.mem col [u "Parent Code";
                                                       u "Pattern"]))
                   (columns f)) Hnew') as Hs.
  rewrite Hsel in Hs. rewrite (bind_ok _ _ _ _ _ Hs).
  exists r, ([f] ++ ext), dt. rewrite !app_assoc. done.
Qed.

End DetailPage.

(** The detail page shows one group.  When [show_detail_page] finds a
    cached table and ends without an exception, the cached table is
    unchanged; the page is the unknown-value warning exactly when no cell
    of the dimension column is the requested string; otherwise a summary
    is shown, it has exactly one row, whose dimension is the requested
    value, and the detail table has the columns of the cached table
    without Parent Code and Pattern and one row for each cell of the
    dimension column that is the requested string. *)
Theorem detail_page_shows_one_group (σ σ' : store) (df : ref)
    (d : DataFrame) (dimension value : pystr) (pg : page) :
  σ !! df = Some d ->
  show_detail_page (Some df) dimension value σ = (Ok pg, σ') ->
  σ' !! df = Some d
  /\ match pg with
     | NoData => False
     | NotFound => VStr value ∉ column d dimension
     | Detail s det =>
       VStr value ∈ column d dimension
       /\ (exists r sm,
             s = Some r /\ σ' !! r = Some sm
             /\ column sm dimension = [VStr value]
             /\ length (rows sm) = 1%nat)
       /\ (exists dt,
             σ' !! det = Some dt
             /\ columns dt
                = filter (fun col =>
                            negb (Py.mem col [u "Parent Code"; u "Pattern"]))
                    (columns d)
             /\ length (rows dt)
                = length (filter (fun c => cell_eq_str value c)
                            (column d dimension)))
     end.
Proof.
  intros Hdf Hrun.
  pose proof (show_detail_page_run σ df d dimension value Hdf) as Hcases.
  destruct (filter_eq d dimension value) as [f|e] eqn:Ef;
    [|rewrite Hcases in Hrun; done].
  destruct (filter_eq_inv _ _ _ _ Ef)
    as (i & Hi & Hcols & Hrows & Hall & Hno & Hyes).
  assert (Hcol : column d dimension = map (cell_at i) (rows d)).
  { unfold column, get_column, lookup_index. by rewrite Hi. }
  assert (Hde : df_empty f = true <-> rows f = []).
  { unfold df_empty. rewrite Hcols.
    destruct (columns d) as [|c0 cs]; [done|]. simpl.
    destruct (rows f); simpl; split; done. }
  destruct (df_empty f) eqn:Ee.
  - rewrite Hcases in Hrun. injection Hrun as <- <-. split.
    + rewrite lookup_app_l; [done | by eapply lookup_lt_Some].
    + apply Hno, Hde. done.
  - assert (Hne : rows f <> []).
    { intros E. apply Hde in E. congruence. }
    destruct (aggregate_single_frame f dimension) as [out|e] eqn:Ea.
    2: { destruct Hcases as [ext Hc]. rewrite Hc in Hrun. done. }
    destruct Hcases as (r & ext & dt & Hc & Hr & Hsel).
    rewrite Hc in Hrun. injection Hrun as <- <-.
    rewrite <- Hcols in Hi.
    destruct (aggregate_single_frame_one_group f dimension value i out
                Hi Hall Hne Ea) as [Hkey Hlen].
    assert (Hout_ne : df_empty out = false).
    { unfold df_empty. rewrite Hlen.
      destruct (columns out) as [|c0 cs] eqn:Eo; [|done]. exfalso.
      unfold column, get_column, lookup_index in Hkey.
      rewrite Eo in Hkey. simpl in Hkey. done. }
    rewrite Hout_ne. simpl. split; [|split; [|split]].
    + rewrite !lookup_app_l; [done | by eapply lookup_lt_Some
                             | rewrite length_app;
                               apply lookup_lt_Some in Hdf; lia].
    + by apply Hyes.
    + exists r, out. split; [done|]. split; [|done].
      rewrite lookup_app_l; [done | by eapply lookup_lt_Some].
    + destruct (display_columns_select f) as (dt' & Hsel' & Hc' & Hl').
      rewrite Hsel' in Hsel. injection Hsel as ->.
      exists dt. split; [apply lookup_new|]. split; [by rewrite Hc', Hcols|].
      rewrite Hl', Hrows, Hcol.
      rewrite (filter_map_commute (cell_at i)
                 (fun c => cell_eq_str value c)).
      by rewrite length_map.
Qed.

Lemma detail_page_shows_one_group_witness :
  VStr (u "SP-UK") ∈ column example8 (u "Parent Code").
Proof.
  destruct (detail_page_shows_one_group [example8]
              (snd (show_detail_page (Some 0%nat) (u "Parent Code")
                      (u "SP-UK") [example8]))
              0%nat example8 (u "Parent Code") (u "SP-UK")
              (Detail (Some 4%nat) 5%nat)) as [_ [H _]].
  - reflexivity.
  - vm_compute. reflexivity.
  - exact H.
Defined.

(** The detail page takes its dimension from the query string and does
    not check it.  A dimension that is not a column of the cached table
    raises [KeyError]; a column that is not one of the three dimensions
    raises the [ValueError] of [aggregate_single] as soon as the value
    occurs in it. *)
Theorem detail_page_unchecked_dimension (σ : store) (df : ref)
    (d : DataFrame) (dimension value : pystr) :
  σ !! df = Some d ->
  (dimension ∉ columns d ->
     show_detail_page (Some df) dimension value σ
     = (Raise (KeyError dimension), σ))
  /\ (dimension ∉ valid_dims -> VStr value ∈ column d dimension ->
      exists σ',
        show_detail_page (Some df) dimension value σ
        = (Raise (ValueError (u "无效的维度: " ++ dimension)), σ')).
Proof.
  intros Hdf.
  pose proof (show_detail_page_run σ df d dimension value Hdf) as Hcases.
  split.
  - intros Hno. apply index_of_None in Hno.
    unfold filter_eq, lookup_index in Hcases. by rewrite Hno in Hcases.
  - intros Hinv Hin.
    destruct (filter_eq d dimension value) as [f|e] eqn:Ef.
    + destruct (filter_eq_inv _ _ _ _ Ef)
        as (i & Hi & Hcols & Hrows & Hall & Hno & Hyes).
      assert (Hne : df_empty f = false).
      { unfold df_empty. rewrite Hcols.
        destruct (columns d) as [|c0 cs]; [done|]. simpl.
        destruct (rows f) eqn:E; [|done]. exfalso. by apply Hno. }
      rewrite Hne in Hcases. unfold aggregate_single_frame in Hcases.
      apply mem_not_elem_of in Hinv. rewrite Hinv in Hcases.
      simpl in Hcases. destruct Hcases as [ext Hc]. by exists (σ ++ ext).
    + exfalso. unfold filter_eq, lookup_index in Ef.
      unfold column, get_column, lookup_index in Hin.
      destruct (index_of dimension (columns d)); [done|].
      by apply elem_of_nil in Hin.
Qed.

Lemma detail_page_unchecked_dimension_witness :
  show_detail_page (Some 0%nat) (u "Sales") (u "5") [example8]
  = (Raise (KeyError (u "Sales")), [example8])
  /\ exists σ',
       show_detail_page (Some 0%nat) (u "Campaign Name") (u "SP-US 模式A1")
         [example8]
       = (Raise (ValueError (u "无效的维度: " ++ u "Campaign Name")), σ').
Proof.
  split.
  - apply (detail_page_unchecked_dimension [example8] 0%nat example8
             (u "Sales") (u "5") eq_refl).
    apply mem_not_elem_of. vm_compute. reflexivity.
  - apply (detail_page_unchecked_dimension [example8] 0%nat example8
             (u "Campaign Name") (u "SP-US 模式A1") eq_refl).
    + apply mem_not_elem_of. vm_compute. reflexivity.
    + unfold column. cbn. left.
Defined.

(* --------------------------------------------------------------------- *)
(** ** Sums through the cross aggregation *)
(* --------------------------------------------------------------------- *)

(** The theory of the distinct keys, for any class of keys on which the
    comparison is a strict total order. *)
Section OrderedKeys.

Variable K : list cell -> Prop.
Hypothesis K_eqb : forall k k', K k -> K k' -> key_eqb k k' = true <-> k = k'.
Hypothesis K_trans :
  forall k1 k2 k3, K k1 -> K k2 -> K k3 -> klt k1 k2 -> klt k2 k3 -> klt k1 k3.
Hypothesis K_irrefl : forall k, K k -> ~ klt k k.

Lemma insert_ordered_elem_of (k x : list cell) (ks : list (list cell)) :
  K k -> Forall K ks ->
  x ∈ insert_key k ks <-> x = k \/ x ∈ ks.
Proof using All.
  intros Hk. induction 1 as [|k' ks Hk' _ IH]; simpl.
  - rewrite list_elem_of_singleton, elem_of_nil. tauto.
  - destruct (key_compare k k') eqn:E.
    + assert (k = k') as -> by (apply K_eqb; auto; unfold key_eqb;
                                  by rewrite E).
      rewrite elem_of_cons. tauto.
    + rewrite !elem_of_cons. tauto.
    + rewrite !elem_of_cons, IH. tauto.
Qed.

Lemma insert_ordered_class (k : list cell) (ks : list (list cell)) :
  K k -> Forall K ks -> Forall K (insert_key k ks).
Proof using All.
  intros Hk Hks. apply Forall_forall. intros x Hx.
  apply insert_ordered_elem_of in Hx as [->|Hx]; auto.
  by eapply Forall_forall in Hks.
Qed.

Lemma insert_ordered_sorted (k : list cell) (ks : list (list cell)) :
  K k -> Forall K ks ->
  StronglySorted klt ks -> StronglySorted klt (insert_key k ks).
Proof using All.
  intros Hk Hks Hs. induction Hs as [|k' ks Hs IH Hall]; simpl.
  - repeat constructor.
  - apply Forall_cons in Hks as [Hk' Hks].
    destruct (key_compare k k') eqn:E.
    + by constructor.
    + constructor; [by constructor|]. constructor; [done|].
      rewrite Forall_forall in Hall, Hks. apply Forall_forall.
      intros x Hx. apply (K_trans k k' x); auto.
    + constructor; [by apply IH|].
      apply Forall_forall. intros x Hx.
      apply insert_ordered_elem_of in Hx as [->|Hx]; auto.
      * unfold klt. rewrite (key_compare_antisym k k'), E. done.
      * by eapply Forall_forall in Hall.
Qed.

Lemma unique_ordered_keys (ks : list (list cell)) :
  Forall K ks ->
  Forall K (unique_keys ks)
  /\ NoDup (unique_keys ks)
  /\ (forall x, x ∈ unique_keys ks <-> x ∈ ks).
Proof using All.
  intros Hks.
  assert (H : Forall K (unique_keys ks)
              /\ StronglySorted klt (unique_keys ks)
              /\ (forall x, x ∈ unique_keys ks <-> x ∈ ks)).
  { induction Hks as [|k ks Hk Hks (IH1 & IH2 & IH3)]; simpl.
    - split; [constructor|]. split; [constructor | done].
    - split; [by apply insert_ordered_class|].
      split; [by apply insert_ordered_sorted|].
      intros x. rewrite insert_ordered_elem_of by done.
      rewrite elem_of_cons, IH3. tauto. }
  destruct H as (H1 & H2 & H3). split; [done|]. split; [|done].
  clear H3. induction H2 as [|k l Hs IH Hall]; [constructor|].
  apply Forall_cons in H1 as [Hk H1]. constructor; [|by apply IH].
  intros Hin. rewrite Forall_forall in Hall. by apply (K_irrefl k), Hall.
Qed.

End OrderedKeys.

Section CrossSums.

Lemma pkey_compare (s t s' t' : pystr) :
  key_compare [VStr s; VStr t] [VStr s'; VStr t']
  = match Py.compare s s' with
    | Eq => Py.compare t t'
    | c => c
    end.
Proof.
  simpl. unfold cell_compare. simpl.
  destruct (Py.compare s s'); [|done|done]. by destruct (Py.compare t t').
Qed.

Lemma pkey_eqb (k k' : list cell) :
  pkey k -> pkey k' -> key_eqb k k' = true <-> k = k'.
Proof.
  intros (s & t & ->) (s' & t' & ->). unfold key_eqb. rewrite pkey_compare.
  split.
  - destruct (Py.compare s s') eqn:E; try done.
    destruct (Py.compare t t') eqn:E'; try done. intros _.
    by rewrite (compare_eq _ _ E), (compare_eq _ _ E').
  - intros [= -> ->]. by rewrite !compare_refl.
Qed.

Lemma pkey_trans (k1 k2 k3 : list cell) :
  pkey k1 -> pkey k2 -> pkey k3 -> klt k1 k2 -> klt k2 k3 -> klt k1 k3.
Proof.
  intros (a & a' & ->) (b & b' & ->) (c & c' & ->). unfold klt.
  rewrite !pkey_compare.
  destruct (Py.compare a b) eqn:Eab; try done;
    destruct (Py.compare b c) eqn:Ebc; try done.
  - apply compare_eq in Eab, Ebc. subst. rewrite compare_refl.
    apply compare_lt_trans.
  - apply compare_eq in Eab. subst. by rewrite Ebc.
  - apply compare_eq in Ebc. subst. by rewrite Eab.
  - by rewrite (compare_lt_trans _ _ _ Eab Ebc).
Qed.

Lemma pkey_irrefl (k : list cell) : pkey k -> ~ klt k k.
Proof.
  intros (s & t & ->). unfold klt. rewrite pkey_compare.
  by rewrite !compare_refl.
Qed.

Lemma string_pair_keys (i1 i2 : nat) (rs : list (list cell)) :
  Forall (fun r => is_str (cell_at i1 r) = true) rs ->
  Forall (fun r => is_str (cell_at i2 r) = true) rs ->
  Forall pkey (map (key_at [i1; i2]) rs)
  /\ Forall (fun r => forallb notna (key_at [i1; i2] r)) rs.
Proof.
  intros H1 H2. split.
  - apply Forall_map. rewrite Forall_forall in H1, H2. apply Forall_forall.
    intros r Hr. pose proof (H1 r Hr) as E1. pose proof (H2 r Hr) as E2.
    unfold key_at. cbn [map].
    destruct (cell_at i1 r) as [| |s]; try done.
    destruct (cell_at i2 r) as [| |t]; try done. by exists s, t.
  - rewrite Forall_forall in H1, H2. apply Forall_forall.
    intros r Hr. pose proof (H1 r Hr) as E1. pose proof (H2 r Hr) as E2.
    unfold key_at. cbn [map].
    destruct (cell_at i1 r) as [| |s]; try done.
    destruct (cell_at i2 r) as [| |t]; try done.
Qed.

(** After grouping on two string-valued dimensions, an int64 column
    holds, key by key, the wrapped sum of its cells over the rows of the
    key. *)
Lemma groupby_cross_int64_column (d : DataFrame) (dim1 dim2 c : pystr)
    (i1 i2 j : nat) (g : DataFrame) :
  index_of dim1 (columns d) = Some i1 ->
  index_of dim2 (columns d) = Some i2 ->
  Forall (fun r => is_str (cell_at i1 r) = true) (rows d) ->
  Forall (fun r => is_str (cell_at i2 r) = true) (rows d) ->
  index_of c (columns d) = Some j ->
  Forall (fun r => is_int64 (cell_at j r) = true) (rows d) ->
  c ∈ sum_columns_of (columns d) ->
  dim1 ∈ valid_dims -> dim2 ∈ valid_dims ->
  groupby_sum d [dim1; dim2] (sum_columns_of (columns d)) = Ok g ->
  get_column g c
  = Ok (map (fun k =>
               VInt (sum_int64
                       (map (cell_at j)
                            (filter (fun r => key_eqb (key_at [i1; i2] r) k)
                                    (rows d)))))
            (unique_keys (map (key_at [i1; i2]) (rows d)))).
Proof.
  intros Hi1 Hi2 Hs1 Hs2 Hj Hint Hc Hd1 Hd2 Hg.
  destruct (sum_columns_not_dimension _ _ _ Hc Hd1) as [Hne1 _].
  destruct (sum_columns_not_dimension _ _ _ Hc Hd2) as [Hne2 _].
  apply groupby_sum_inv in Hg as (kidx & vidx & Hk & Hv & Hcols & Hrows).
  assert (kidx = [i1; i2]) as ->.
  { simpl in Hk. unfold lookup_index in Hk. rewrite Hi1, Hi2 in Hk.
    simpl in Hk. by injection Hk as <-. }
  destruct (string_pair_keys i1 i2 (rows d) Hs1 Hs2) as [Hpk Hnn].
  cbv zeta in Hrows. rewrite (filter_all _ _ Hnn) in Hrows.
  destruct (unique_ordered_keys pkey pkey_eqb pkey_trans pkey_irrefl _ Hpk)
    as (Huk & _ & Hmem).
  set (keys := unique_keys (map (key_at [i1; i2]) (rows d))) in *.
  set (cols := sum_columns_of (columns d)) in *.
  destruct (index_of_Some _ _ Hc) as [p Hp].
  pose proof (index_of_lookup _ _ _ Hp) as Hcp.
  destruct (mapM_Ok_lookup _ _ _ _ _ Hv Hcp) as (j' & Hvp & Hj').
  unfold lookup_index in Hj'. rewrite Hj in Hj'. injection Hj' as <-.
  assert (Hdt : infer_dtype (column_at j d) = Int64).
  { unfold infer_dtype, column_at. rewrite forallb_Forall; [done|].
    by apply Forall_map. }
  set (vcols := map (fun i0 => (i0, infer_dtype (column_at i0 d))) vidx) in *.
  assert (Hvc : vcols !! p = Some (j, Int64)).
  { unfold vcols. rewrite map_fmap, list_lookup_fmap, Hvp. simpl.
    by rewrite Hdt. }
  pose proof (mapM_Ok_Forall2 _ _ _ Hrows) as Hall.
  unfold get_column, lookup_index. rewrite Hcols. cbn [app].
  rewrite index_of_tail by done. rewrite index_of_tail by done.
  rewrite Hp. simpl. f_equal. unfold column_at.
  eapply Forall2_map_eq; [exact Hall|]. simpl.
  intros k row Hk' Hrow. unfold group_row in Hrow.
  apply bind_Ok_inv in Hrow as (sums & Hsums & Hrow). injection Hrow as <-.
  destruct (mapM_Ok_lookup _ _ _ _ _ Hsums Hvc) as (y & Hy & Hagg).
  simpl in Hagg. injection Hagg as <-.
  rewrite Forall_forall in Huk. destruct (Huk k Hk') as (s & t & ->).
  unfold cell_at. simpl. by apply nth_lookup_Some.
Qed.

End CrossSums.

(** The cross aggregation keeps the totals.  For every table whose two
    dimension columns hold strings (as extraction produces) and every
    summed column stored as int64, the sum of the column over the rows
    of the summary returned by [aggregate_cross] is the sum of the column
    over the rows of the input; both are the wrapped 64-bit sum of the
    cells. *)
Theorem aggregate_cross_sum_invariant (σ : store) (df : ref)
    (d : DataFrame) (dim1 dim2 c : pystr) (out : DataFrame) :
  σ !! df = Some d ->
  string_column d dim1 ->
  string_column d dim2 ->
  int64_column d c ->
  c ∈ sum_columns_of (columns d) ->
  returned (aggregate_cross df dim1 dim2 σ) = Some out ->
  column_sum out c = column_sum d c
  /\ column_sum d c = Ok (VInt (wrap64 (total (column d c)))).
Proof.
  intros Hdf (i1 & Hi1 & Hs1) (i2 & Hi2 & Hs2) (j & Hj & Hint) Hc Hret.
  destruct (aggregate_cross_run σ df d dim1 dim2 Hdf)
    as (r & ext & Hrun & Hout).
  rewrite Hrun in Hret. unfold returned in Hret.
  destruct (aggregate_cross_frame d dim1 dim2) as [o|e] eqn:E; [|done].
  rewrite (Hout o eq_refl) in Hret. injection Hret as ->.
  apply aggregate_cross_frame_inv in E as (Hd1 & Hd2 & _ & g & H0 & H1).
  pose proof (groupby_cross_int64_column d dim1 dim2 c i1 i2 j g
                Hi1 Hi2 Hs1 Hs2 Hj Hint Hc Hd1 Hd2 H0) as G0.
  destruct (sort_values_get_column _ _ _ _ _ H1 G0) as (col' & Gout & Hperm).
  assert (Hin : get_column d c = Ok (map (cell_at j) (rows d))).
  { unfold get_column, lookup_index. by rewrite Hj. }
  assert (Hd : column_sum d c
               = Ok (VInt (wrap64 (total (map (cell_at j) (rows d)))))).
  { unfold column_sum. rewrite Hin. simpl.
    unfold infer_dtype. rewrite forallb_Forall by (by apply Forall_map).
    simpl. by rewrite sum_int64_total. }
  split; [|by rewrite (column_get _ _ _ Hin)].
  rewrite Hd. unfold column_sum. rewrite Gout. simpl.
  assert (Hall : Forall (fun x => is_int64 x = true) col').
  { rewrite Hperm. apply Forall_map, Forall_forall. intros k _. simpl.
    rewrite sum_int64_total. apply wrap64_in_range. }
  unfold infer_dtype. rewrite forallb_Forall by done. simpl.
  do 2 f_equal. rewrite sum_int64_total, (total_perm _ _ Hperm).
  unfold total at 1. rewrite map_map. simpl.
  erewrite map_ext by (intros k; apply sum_int64_total).
  rewrite (wrap64_sum_wrapped
             (fun k => total (map (cell_at j)
                            (filter (fun r => key_eqb (key_at [i1; i2] r) k)
                                    (rows d))))).
  f_equal. unfold total.
  rewrite (map_map (cell_at j) int_value (rows d)).
  destruct (string_pair_keys i1 i2 (rows d) Hs1 Hs2) as [Hpk _].
  destruct (unique_ordered_keys pkey pkey_eqb pkey_trans pkey_irrefl _ Hpk)
    as (Huk & Hnd & Hmem).
  rewrite <- (sum_over_groups (key_at [i1; i2])
                (fun r => int_value (cell_at j r))
                (unique_keys (map (key_at [i1; i2]) (rows d))) (rows d)).
  - f_equal. apply map_ext. intros k. by rewrite map_map.
  - done.
  - intros r' Hr'. apply Hmem. rewrite map_fmap. by apply list_elem_of_fmap_2.
  - intros r' k Hr' Hk. apply pkey_eqb.
    + rewrite Forall_forall in Hpk. apply Hpk.
      rewrite map_fmap. by apply list_elem_of_fmap_2.
    + rewrite Forall_forall in Huk. by apply Huk.
Qed.

Lemma aggregate_cross_sum_invariant_witness :
  column_sum example8_by_parent_and_pattern (u "Clicks")
  = column_sum example8 (u "Clicks")
  /\ column_sum example8 (u "Clicks") = Ok (VInt 21).
Proof.
  destruct (aggregate_cross_sum_invariant [example8] 0%nat example8
              (u "Parent Code") (u "Pattern") (u "Clicks")
              example8_by_parent_and_pattern) as [H1 H2].
  - reflexivity.
  - exists 1%nat. split; [by vm_compute | repeat constructor].
  - exists 2%nat. split; [by vm_compute | repeat constructor].
  - exists 5%nat. split; [by vm_compute | repeat constructor].
  - apply list_elem_of_filter. split; [by vm_compute|].
    apply mem_elem_of. by vm_compute.
  - vm_compute. reflexivity.
  - split; [exact H1|]. rewrite H2. vm_compute. reflexivity.
Defined.

Section Links.

Lemma summary_value_occurs (d : DataFrame) (dimension : pystr) (i : nat)
    (out : DataFrame) (v : cell) :
  index_of dimension (columns d) = Some i ->
  Forall (fun r => is_str (cell_at i r) = true) (rows d) ->
  aggregate_single_frame d dimension = Ok out ->
  v ∈ column out dimension -> v ∈ column d dimension.
Proof.
  intros Hi Hstr E.
  destruct (aggregate_single_frame_keys d dimension i out Hi Hstr E)
    as (col & Gout & Hperm).
  destruct (string_keys i (rows d) Hstr) as [Hsk _].
  destruct (unique_keys_spec _ Hsk) as (Huk & _ & Hmem).
  assert (Hd : column d dimension = map (cell_at i) (rows d)).
  { unfold column, get_column, lookup_index. by rewrite Hi. }
  rewrite (column_get _ _ _ Gout), Hd, Hperm, !map_fmap, !list_elem_of_fmap.
  intros (k & -> & Hk). rewrite Forall_forall in Huk.
  destruct (Huk k Hk) as [s Hs]. apply Hmem in Hk. rewrite map_fmap in Hk.
  apply list_elem_of_fmap in Hk as (r0 & Hr0 & Hin).
  exists r0. split; [|done]. rewrite Hs in Hr0 |- *.
  unfold key_at in Hr0. cbn [map] in Hr0. injection Hr0 as <-. done.
Qed.

End Links.

(** Every value of the dimension column of a summary has a detail page:
    for a table whose dimension column holds strings, calling
    [show_detail_page] on the same table with a value listed by
    [aggregate_single] never ends in the unknown-value warning. *)
Theorem summary_values_have_detail_pages (σ σ2 σ' : store) (df : ref)
    (d : DataFrame) (dimension v : pystr) (out : DataFrame) (pg : page) :
  σ !! df = Some d ->
  string_column d dimension ->
  returned (aggregate_single df dimension σ) = Some out ->
  VStr v ∈ column out dimension ->
  σ2 !! df = Some d ->
  show_detail_page (Some df) dimension v σ2 = (Ok pg, σ') ->
  exists s det, pg = Detail s det.
Proof.
  intros Hdf (i & Hi & Hstr) Hret Hv Hdf2 Hpage.
  destruct (aggregate_single_run σ df d dimension Hdf)
    as (r & ext & Hrun & Hout).
  rewrite Hrun in Hret. unfold returned in Hret.
  destruct (aggregate_single_frame d dimension) as [o|e] eqn:E; [|done].
  rewrite (Hout o eq_refl) in Hret. injection Hret as ->.
  pose proof (summary_value_occurs d dimension i out (VStr v) Hi Hstr E Hv)
    as Hin.
  pose proof (show_detail_page_run σ2 df d dimension v Hdf2) as Hcases.
  destruct (filter_eq d dimension v) as [f|e] eqn:Ef;
    [|rewrite Hcases in Hpage; done].
  destruct (filter_eq_inv _ _ _ _ Ef)
    as (i' & Hi' & Hcols & Hrows & Hall & Hno & Hyes).
  destruct (df_empty f) eqn:Ee.
  - exfalso. unfold df_empty in Ee. rewrite Hcols in Ee.
    destruct (columns d) as [|c0 cs]; [done|]. simpl in Ee.
    destruct (rows f); [|done]. by apply Hno.
  - destruct (aggregate_single_frame f dimension) as [sm|e].
    + destruct Hcases as (r' & ext' & dt & Hc & _). rewrite Hc in Hpage.
      injection Hpage as <- _. by eexists _, _.
    + destruct Hcases as [ext' Hc]. rewrite Hc in Hpage. done.
Qed.

Lemma summary_values_have_detail_pages_witness :
  exists s det, Detail (Some 4%nat) 5%nat = Detail s det.
Proof.
  apply (summary_values_have_detail_pages [example8] [example8]
           (snd (show_detail_page (Some 0%nat) (u "Parent Code")
                   (u "SP-UK") [example8]))
           0%nat example8 (u "Parent Code") (u "SP-UK")
           example8_by_parent).
  - reflexivity.
  - exists 1%nat. split; [by vm_compute | repeat constructor].
  - vm_compute. reflexivity.
  - unfold column. cbn. left.
  - reflexivity.
  - vm_compute. reflexivity.
Defined.

(* --------------------------------------------------------------------- *)
(** ** Rendering *)
(* --------------------------------------------------------------------- *)

(** [format_value] returns the dash for a missing value whatever the
    type, and a string for every other value, with one exception: an
    infinite value of type number raises [OverflowError]. *)
Theorem format_value_raises_only_on_infinite_number (value : float)
    (t : metric_type) :
  (F64.is_nan value = true -> format_value value t = Ok (u "-"))
  /\ ((exists sg, value = S754_infinity sg) ->
      format_value value number = Raise OverflowError)
  /\ (forall e, format_value value t = Raise e ->
        t = number /\ e = OverflowError /\ exists sg, value = S754_infinity sg).
Proof.
  split; [|split].
  - intros H. unfold format_value. by rewrite H.
  - intros [sg ->]. reflexivity.
  - intros e. unfold format_value.
    destruct value as [s| s | |s m x]; destruct t; simpl; try done.
    intros [= <-]. split; [done|]. split; [done|]. by exists s.
Qed.

Lemma format_value_raises_only_on_infinite_number_witness :
  format_value (S754_infinity false) number = Raise OverflowError.
Proof.
  apply (format_value_raises_only_on_infinite_number (S754_infinity false)
           number).
  by exists false.
Defined.

(* --------------------------------------------------------------------- *)
(** ** Tables on which the aggregation succeeds *)
(* --------------------------------------------------------------------- *)

Section Success.










End Success.


